(** * Landscape-scale validation helpers (Tubbs fire case)

    A shallow embedding of
    [cases/Validation/landscape_scale/tubbs_fire/scripts/landscape_validation_helpers.py]
    and the properties its design document states about it.

    Conventions of the embedding:
    - a double is a value of [Float.float]: not-a-number, the two infinities,
      or a finite value carried as a rational.  Comparisons, maxima and
      selections are exact on doubles, so the rational carries them faithfully;
    - a 2-D numpy array is a shape together with a total item function, a
      masked array is an array of (data, mask) cells;
    - a Python exception is a value of [exn]; a function that may raise
      returns [result]. *)

From Stdlib Require Import String Ascii.
From Stdlib Require Import ZArith QArith Qminmax Qabs List Bool Lia.
From Stdlib Require Import Sorted Permutation DecimalString.
Import ListNotations.

Set Implicit Arguments.

(* ------------------------------------------------------------------ *)
(** ** Exceptions *)

Inductive exn : Type :=
| ValueError (msg : string)
| KeyError (msg : string)
| FileNotFoundError (msg : string)
| AmbiguousTimeError
| NonExistentTimeError.

Inductive result (A : Type) : Type :=
| Ok (a : A)
| Raise (e : exn).

Arguments Ok {A} a.
Arguments Raise {A} e.

Definition bind {A B : Type} (r : result A) (k : A -> result B) : result B :=
  match r with
  | Ok a => k a
  | Raise e => Raise e
  end.

Notation "'do' x <- r ; k" := (bind r (fun x => k))
  (at level 10, x name, r at level 100, k at level 200).

(* ------------------------------------------------------------------ *)
(** ** Doubles *)

Module Float.

Inductive float : Type :=
| nan
| pinf
| ninf
| fin (q : Q).

Definition isfinite (x : float) : bool :=
  match x with
  | fin _ => true
  | _ => false
  end.

Definition isnan (x : float) : bool :=
  match x with
  | nan => true
  | _ => false
  end.

(** [x <= y]; false as soon as one side is not-a-number. *)
Definition leb (x y : float) : bool :=
  match x, y with
  | nan, _ => false
  | _, nan => false
  | ninf, _ => true
  | _, pinf => true
  | fin a, fin b => Qle_bool a b
  | _, _ => false
  end.

(** [x < y]. *)
Definition ltb (x y : float) : bool :=
  match x, y with
  | nan, _ => false
  | _, nan => false
  | pinf, _ => false
  | _, ninf => false
  | fin a, fin b => negb (Qle_bool b a)
  | _, _ => true
  end.

(** [x > y]. *)
Definition gtb (x y : float) : bool := ltb y x.

(** [x == y]. *)
Definition eqb (x y : float) : bool :=
  match x, y with
  | pinf, pinf => true
  | ninf, ninf => true
  | fin a, fin b => Qeq_bool a b
  | _, _ => false
  end.

(** One step of [np.nanmax]: a not-a-number operand is ignored. *)
Definition fmax (x y : float) : float :=
  if isnan x then y
  else if isnan y then x
  else if leb x y then y else x.

(** [np.nanmax] of a flat selection.  numpy raises on an empty selection;
    every call below is guarded by [mask.any()]. *)
Definition nanmax (l : list float) : float := fold_left fmax l nan.

Definition of_Z (z : Z) : float := fin (inject_Z z).

End Float.

(* ------------------------------------------------------------------ *)
(** ** numpy arrays *)

Module NumPy.

Record ndarray (A : Type) : Type := mk_ndarray {
  shape : nat * nat;          (* (rows, columns) *)
  item : nat -> nat -> A
}.

Definition height {A} (a : ndarray A) : nat := fst (shape a).
Definition width {A} (a : ndarray A) : nat := snd (shape a).

(** [np.zeros(shape)], [np.full]. *)
Definition full {A} (sh : nat * nat) (x : A) : ndarray A :=
  mk_ndarray sh (fun _ _ => x).

Definition map {A B} (f : A -> B) (a : ndarray A) : ndarray B :=
  mk_ndarray (shape a) (fun i j => f (item a i j)).

(** Row-major list of the in-range indices. *)
Definition indices (sh : nat * nat) : list (nat * nat) :=
  flat_map (fun i => List.map (fun j => (i, j)) (seq 0 (snd sh))) (seq 0 (fst sh)).

(** [a.ravel()]. *)
Definition ravel {A} (a : ndarray A) : list A :=
  List.map (fun ij => item a (fst ij) (snd ij)) (indices (shape a)).

(** [a[m].ravel()] for a boolean index [m]: the items where [m] holds, in
    row-major order. *)
Definition select {A} (m : nat -> nat -> bool) (a : ndarray A) : list A :=
  List.map (fun ij => item a (fst ij) (snd ij))
    (filter (fun ij => m (fst ij) (snd ij)) (indices (shape a))).

(** [m.any()] over the cells of shape [sh]. *)
Definition any (sh : nat * nat) (m : nat -> nat -> bool) : bool :=
  existsb (fun ij => m (fst ij) (snd ij)) (indices sh).


(** An array from its rows; out-of-range items read [d]. *)
Definition of_rows {A} (d : A) (rows : list (list A)) : ndarray A :=
  mk_ndarray (length rows, length (hd [] rows))
    (fun i j => nth j (nth i rows []) d).

(** A cell of a masked array: the underlying datum and its mask bit. *)
Record cell : Type := mk_cell {
  data : Float.float;
  mask : bool
}.

Definition MaskedArray : Type := ndarray cell.

(** [np.isfinite(arr) & ~arr.mask]: the data of that masked boolean array. *)
Definition cell_valid (c : cell) : bool :=
  Float.isfinite (data c) && negb (mask c).

Definition valid_mask (arr : MaskedArray) (i j : nat) : bool :=
  cell_valid (item arr i j).

End NumPy.

Import NumPy.

(* ------------------------------------------------------------------ *)
(** ** Simulated burned mask of the kappa metric
    ([calc_cohen_kappa_for_case], the block building [burnt] and [sim_time]) *)

Module SimMask.

(** [valid & (arr <= time_sec) & (arr > 0.0)]. *)
Definition threshold_mask (arr : MaskedArray) (time_sec : Q) (i j : nat) : bool :=
  valid_mask arr i j
  && Float.leb (data (item arr i j)) (Float.fin time_sec)
  && Float.gtb (data (item arr i j)) (Float.fin 0).

(** The pair [(burnt, sim_time)] at one observation time. *)
Definition simulated (arr : MaskedArray) (time_sec : Q)
  : ndarray nat * Float.float :=
  let zeros := full (shape arr) 0%nat in
  if negb (Qle_bool time_sec 0) then
    let m := threshold_mask arr time_sec in
    if any (shape arr) m then
      (mk_ndarray (shape arr) (fun i j => if m i j then 1%nat else 0%nat),
       Float.nanmax (select m (NumPy.map data arr)))
    else (zeros, Float.nan)
  else (zeros, Float.nan).

Definition burnt (arr : MaskedArray) (time_sec : Q) : ndarray nat :=
  fst (simulated arr time_sec).

Definition sim_time (arr : MaskedArray) (time_sec : Q) : Float.float :=
  snd (simulated arr time_sec).

End SimMask.

(* ------------------------------------------------------------------ *)
(** ** Calendar arithmetic behind [pd.Timestamp]

    A timestamp is a count of seconds since 1970-01-01T00:00:00, read on
    the wall clock for a naive timestamp and in UTC for an aware one.  The
    fields [.day], [.hour] ... are derived from the count with the
    proleptic Gregorian calendar. *)

Module Calendar.

Local Open Scope Z_scope.

Definition Timestamp : Type := Z.

(** Days since 1970-01-01 of the civil date [y-m-d]. *)
Definition days_from_civil (y m d : Z) : Z :=
  let y' := if m <=? 2 then y - 1 else y in
  let era := y' / 400 in
  let yoe := y' - era * 400 in
  let mp := if 2 <? m then m - 3 else m + 9 in
  let doy := (153 * mp + 2) / 5 + d - 1 in
  let doe := yoe * 365 + yoe / 4 - yoe / 100 + doy in
  era * 146097 + doe - 719468.

(** The civil date [(y, m, d)] of a day count. *)
Definition civil_from_days (days : Z) : Z * Z * Z :=
  let z := days + 719468 in
  let era := z / 146097 in
  let doe := z - era * 146097 in
  let yoe := (doe - doe / 1460 + doe / 36524 - doe / 146096) / 365 in
  let doy := doe - (365 * yoe + yoe / 4 - yoe / 100) in
  let mp := (5 * doy + 2) / 153 in
  let d := doy - (153 * mp + 2) / 5 + 1 in
  let m := if mp <? 10 then mp + 3 else mp - 9 in
  ((yoe + era * 400) + (if m <=? 2 then 1 else 0), m, d).

Definition date_of (t : Timestamp) : Z * Z * Z := civil_from_days (t / 86400).

Definition year (t : Timestamp) : Z := fst (fst (date_of t)).
Definition month (t : Timestamp) : Z := snd (fst (date_of t)).
Definition day (t : Timestamp) : Z := snd (date_of t).
Definition hour (t : Timestamp) : Z := (t mod 86400) / 3600.
Definition minute (t : Timestamp) : Z := (t mod 3600) / 60.

(** Day of the week of a day count, Sunday = 0. *)
Definition weekday (days : Z) : Z := (days + 4) mod 7.

Definition is_leap (y : Z) : bool :=
  ((y mod 4 =? 0) && negb (y mod 100 =? 0)) || (y mod 400 =? 0).

Definition days_in_month (y m : Z) : Z :=
  if m =? 2 then (if is_leap y then 29 else 28)
  else if (m =? 4) || (m =? 6) || (m =? 9) || (m =? 11) then 30
  else 31.

(** The timestamp of civil fields. *)
Definition of_fields (y m d hh mm ss : Z) : Timestamp :=
  days_from_civil y m d * 86400 + hh * 3600 + mm * 60 + ss.

(** [timedelta(hours=hh, minutes=mm)] in seconds. *)
Definition timedelta (hh mm : Z) : Z := hh * 3600 + mm * 60.

(** Day count of the [n]-th Sunday (n = 1, 2, ...) of month [m] of [y]. *)
Definition nth_sunday (y m n : Z) : Z :=
  let first := days_from_civil y m 1 in
  first + (7 - weekday first) mod 7 + 7 * (n - 1).

End Calendar.

(** ** Time zones ([zoneinfo.ZoneInfo]) *)

Module Zone.

Local Open Scope Z_scope.

Inductive zone : Type :=
| UTC
| America_Los_Angeles.

(** What the wall-clock reading [t] is in a zone. *)
Inductive local_kind : Type :=
| Unique (utcoffset : Z)     (* seconds east of UTC *)
| Ambiguous                  (* read twice, when the clock is set back *)
| NonExistent.               (* skipped, when the clock is set forward *)

(** US Pacific time under the rule in force since 2007: daylight time from
    02:00 on the second Sunday of March to 02:00 on the first Sunday of
    November.  The rule is applied to every year; the zone database has
    other rules before 2007. *)
Definition los_angeles (t : Calendar.Timestamp) : local_kind :=
  let y := Calendar.year t in
  let spring := Calendar.nth_sunday y 3 2 * 86400 + 2 * 3600 in
  let autumn := Calendar.nth_sunday y 11 1 * 86400 + 2 * 3600 in
  if t <? spring then Unique (-8 * 3600)
  else if t <? spring + 3600 then NonExistent
  else if t <? autumn - 3600 then Unique (-7 * 3600)
  else if t <? autumn then Ambiguous
  else Unique (-8 * 3600).

Definition classify (z : zone) (t : Calendar.Timestamp) : local_kind :=
  match z with
  | UTC => Unique 0
  | America_Los_Angeles => los_angeles t
  end.

(** [ts.tz_localize(zone).astimezone(UTC)] of a naive [ts]: pandas raises
    on an ambiguous or non-existent wall-clock time. *)
Definition localize_to_utc (z : zone) (naive : Calendar.Timestamp)
  : result Calendar.Timestamp :=
  match classify z naive with
  | Unique off => Ok (naive - off)
  | Ambiguous => Raise AmbiguousTimeError
  | NonExistent => Raise NonExistentTimeError
  end.

End Zone.

(* ------------------------------------------------------------------ *)
(** ** Text: the [str] and [re] operations the helpers use

    A Python string is read as its list of code points; the classes below
    are Python's on the code points 0..255. *)

Module Text.

Definition code (c : ascii) : nat := nat_of_ascii c.

Definition between (lo hi n : nat) : bool := (lo <=? n)%nat && (n <=? hi)%nat.

(** [str.isspace], also the class [\s]. *)
Definition isspace (c : ascii) : bool :=
  let n := code c in
  between 9 13 n || between 28 32 n || (n =? 133)%nat || (n =? 160)%nat.

Definition isdigit (c : ascii) : bool := between 48 57 (code c).

(** The class [\w]: alphanumeric or underscore. *)
Definition isword (c : ascii) : bool :=
  let n := code c in
  between 48 57 n || between 65 90 n || between 97 122 n || (n =? 95)%nat
  || (n =? 170)%nat || (n =? 178)%nat || (n =? 179)%nat || (n =? 181)%nat
  || (n =? 185)%nat || (n =? 186)%nat || between 188 190 n
  || between 192 214 n || between 216 246 n || between 248 255 n.

(** [str.upper] on an ASCII letter; other characters are kept. *)
Definition upper (c : ascii) : ascii :=
  if between 97 122 (code c) then ascii_of_nat (code c - 32) else c.

Fixpoint lstrip (l : list ascii) : list ascii :=
  match l with
  | c :: tl => if isspace c then lstrip tl else l
  | [] => []
  end.

(** [s.strip()]. *)
Definition strip (l : list ascii) : list ascii :=
  rev (lstrip (rev (lstrip l))).

(** [s.replace(",", " ")]. *)
Definition replace_comma (l : list ascii) : list ascii :=
  List.map (fun c => if (code c =? 44)%nat then " "%char else c) l.

(** The zone tokens of the pattern [\b(PST|PDT|UTC|GMT)\s*$]. *)
Inductive tz_token : Type := PST | PDT | UTC | GMT.

(** The alternation [(PST|PDT|UTC|GMT)] under [re.IGNORECASE], read at the
    head of [l]: the token and what follows it. *)
Definition token_at (l : list ascii) : option (tz_token * list ascii) :=
  match l with
  | a :: b :: c :: rest =>
      match String (upper a) (String (upper b) (String (upper c) EmptyString)) with
      | "PST"%string => Some (PST, rest)
      | "PDT"%string => Some (PDT, rest)
      | "UTC"%string => Some (UTC, rest)
      | "GMT"%string => Some (GMT, rest)
      | _ => None
      end
  | _ => None
  end.

(** The pattern anchored at the head of [l], the character before it being
    a word character or not: a word boundary, a token, white space up to
    the end. *)
Definition match_here (prev_word : bool) (l : list ascii) : option tz_token :=
  if prev_word then None
  else match token_at l with
       | Some (tok, rest) => if forallb isspace rest then Some tok else None
       | None => None
       end.

(** [re.search]: the leftmost position where the pattern matches. *)
Fixpoint search_from (prev_word : bool) (pos : nat) (l : list ascii)
  : option (nat * tz_token) :=
  match match_here prev_word l with
  | Some tok => Some (pos, tok)
  | None =>
      match l with
      | [] => None
      | c :: tl => search_from (isword c) (S pos) tl
      end
  end.

Definition search_tz (l : list ascii) : option (nat * tz_token) :=
  search_from false 0 l.

(** Decimal digits to a number, most significant first. *)
Fixpoint digits_value (acc : Z) (l : list ascii) : option Z :=
  match l with
  | [] => Some acc
  | c :: tl =>
      if isdigit c then digits_value (10 * acc + Z.of_nat (code c - 48))%Z tl
      else None
  end.

(** The digits of an integer literal: at least one digit, single
    underscores allowed between digits. *)
Fixpoint literal_value (acc : Z) (l : list ascii) : option Z :=
  match l with
  | [] => None
  | c :: tl =>
      if isdigit c then
        let acc' := (10 * acc + Z.of_nat (code c - 48))%Z in
        match tl with
        | [] => Some acc'
        | u :: tl' =>
            if (code u =? 95)%nat then literal_value acc' tl'
            else literal_value acc' tl
        end
      else None
  end.

(** [int(s)]: white space around the literal, an optional sign, decimal
    digits; anything else raises [ValueError]. *)
Definition int (l : list ascii) : result Z :=
  let bad := Raise (ValueError "invalid literal for int() with base 10") in
  let unsigned d := match literal_value 0 d with
                    | Some z => Some z
                    | None => None
                    end in
  match strip l with
  | [] => bad
  | c :: tl =>
      let r := if (code c =? 45)%nat then option_map Z.opp (unsigned tl)
               else if (code c =? 43)%nat then unsigned tl
               else unsigned (c :: tl) in
      match r with
      | Some z => Ok z
      | None => bad
      end
  end.

End Text.

(* ------------------------------------------------------------------ *)
(** ** [_parse_start_to_utc] *)

Module StartTime.

Import Text.

(** [tz_map] *)
Definition tz_map (tok : tz_token) : Zone.zone :=
  match tok with
  | PST => Zone.America_Los_Angeles
  | PDT => Zone.America_Los_Angeles
  | UTC => Zone.UTC
  | GMT => Zone.UTC
  end.

(** The argument [start_time]: a string, or a timestamp that is naive (wall
    clock, read as UTC) or aware (its UTC instant). *)
Inductive start_time : Type :=
| Str (s : string)
| Stamp (t : Calendar.Timestamp) (aware : bool).

Section WithParser.

(** [pd.to_datetime(s, errors="raise")] on a string without zone token:
    the naive timestamp, or the exception raised. *)
Variable to_datetime : list ascii -> result Calendar.Timestamp.

Definition _parse_start_to_utc (start : start_time) : result Calendar.Timestamp :=
  match start with
  | Str str =>
      let s := strip (replace_comma (list_ascii_of_string str)) in
      let m := search_tz s in
      let tz := match m with
                | Some (_, tok) => Some (tz_map tok)
                | None => None
                end in
      let s := match m with
               | Some (start_pos, _) => strip (firstn start_pos s)
               | None => s
               end in
      do ts <- to_datetime s;
      Zone.localize_to_utc (match tz with Some z => z | None => Zone.UTC end) ts
  | Stamp t _ => Ok t
  end.

End WithParser.

(** *** The ISO-like layout of [pd.to_datetime]

    [YYYY-MM-DD], optionally followed by white space and [HH:MM] or
    [HH:MM:SS].  The helper's callers write the start time in this layout;
    pandas reads other layouts too, which this reader rejects. *)

Definition two_digits (a b : ascii) : option Z :=
  digits_value 0 [a; b].

Definition read_date (l : list ascii) : option (Z * Z * Z * list ascii) :=
  match l with
  | y1 :: y2 :: y3 :: y4 :: "-"%char :: m1 :: m2 :: "-"%char :: d1 :: d2 :: rest =>
      match digits_value 0 [y1; y2; y3; y4], two_digits m1 m2, two_digits d1 d2 with
      | Some y, Some m, Some d =>
          if ((1 <=? m) && (m <=? 12) && (1 <=? d)
              && (d <=? Calendar.days_in_month y m))%Z
          then Some (y, m, d, rest) else None
      | _, _, _ => None
      end
  | _ => None
  end.

Definition read_clock (l : list ascii) : option (Z * Z * Z) :=
  match l with
  | [h1; h2; ":"%char; m1; m2] =>
      match two_digits h1 h2, two_digits m1 m2 with
      | Some h, Some m =>
          if ((h <? 24) && (m <? 60))%Z then Some (h, m, 0%Z) else None
      | _, _ => None
      end
  | [h1; h2; ":"%char; m1; m2; ":"%char; s1; s2] =>
      match two_digits h1 h2, two_digits m1 m2, two_digits s1 s2 with
      | Some h, Some m, Some s =>
          if ((h <? 24) && (m <? 60) && (s <? 60))%Z then Some (h, m, s) else None
      | _, _, _ => None
      end
  | _ => None
  end.

Definition to_datetime_iso (l : list ascii) : result Calendar.Timestamp :=
  let bad := Raise (ValueError "Unknown datetime string format") in
  match read_date l with
  | Some (y, m, d, []) => Ok (Calendar.of_fields y m d 0 0 0)
  | Some (y, m, d, c :: rest) =>
      if isspace c then
        match read_clock (lstrip rest) with
        | Some (hh, mm, ss) => Ok (Calendar.of_fields y m d hh mm ss)
        | None => bad
        end
      else bad
  | None => bad
  end.

End StartTime.

(* ------------------------------------------------------------------ *)
(** ** The geometry libraries (shapely, pyproj, rasterio)

    The helpers call them and never look inside a geometry; the embedding
    takes them as an interface. *)

Module Geo.

(** A coordinate pair (x, y): longitude and latitude in EPSG:4326. *)
Definition point : Type := (Q * Q)%type.

(** [geom_type] *)
Inductive gtype : Type :=
| Point
| LineString
| Polygon
| MultiPolygon
| GeometryCollection.

(** The grid of a reference raster, as [rasterio.open] gives it. *)
Record RefRaster : Type := mk_ref {
  ref_height : nat;
  ref_width : nat;
  ref_crs : nat                  (* EPSG code *)
}.

(** pyproj: reprojection of a point from one EPSG code to another. *)
Class Projection : Type := {
  point_to_crs : nat -> nat -> point -> point
}.

(** shapely: the hull constructions and what is read off a geometry. *)
Class Hulls : Type := {
  geometry : Type;
  (** [MultiPoint(pts).convex_hull] *)
  convex_hull : list point -> geometry;
  (** [concave_hull(MultiPoint(pts), ratio=, allow_holes=)], which may raise *)
  concave_hull : list point -> Q -> bool -> result geometry;
  geom_type : geometry -> gtype;
  (** [g.buffer(distance)] *)
  buffer : geometry -> Q -> geometry;
  (** [g.area] *)
  area : geometry -> Q
}.

(** rasterio and geopandas on the geometries handed to the scorer. *)
Class Raster (geometry : Type) : Type := {
  is_empty : geometry -> bool;
  (** reprojection of a geometry from one EPSG code to another *)
  to_crs : nat -> nat -> geometry -> geometry;
  (** [rasterio.features.rasterize]: is the cell (row, column) of the
      reference grid burnt by the geometry *)
  rasterize : geometry -> RefRaster -> nat -> nat -> bool
}.

End Geo.

(* ------------------------------------------------------------------ *)
(** ** Python dictionaries keyed by timestamps *)

Module Dict.

Section Dict.
Variable V : Type.

(** Keys in insertion order. *)
Definition dict : Type := list (Z * V).

(** [d[k] = v]: an existing key keeps its place. *)
Fixpoint set (k : Z) (v : V) (d : dict) : dict :=
  match d with
  | [] => [(k, v)]
  | (k', v') :: tl =>
      if (k =? k')%Z then (k, v) :: tl else (k', v') :: set k v tl
  end.

Fixpoint get (k : Z) (d : dict) : option V :=
  match d with
  | [] => None
  | (k', v') :: tl => if (k =? k')%Z then Some v' else get k tl
  end.

Definition keys (d : dict) : list Z := List.map fst d.

End Dict.

(** Insertion of [z] in an ascending list. *)
Fixpoint insert_sorted (z : Z) (l : list Z) : list Z :=
  match l with
  | [] => [z]
  | x :: tl => if (z <=? x)%Z then z :: l else x :: insert_sorted z tl
  end.

(** [sorted(l)] *)
Definition sorted (l : list Z) : list Z := fold_right insert_sorted [] l.

(** Insertion of [z] in an ascending list without repetition. *)
Fixpoint insert_unique (z : Z) (l : list Z) : list Z :=
  match l with
  | [] => [z]
  | x :: tl =>
      if (z <? x)%Z then z :: l
      else if (z =? x)%Z then l
      else x :: insert_unique z tl
  end.

(** [sorted(series.unique())] *)
Definition sorted_unique (l : list Z) : list Z := fold_right insert_unique [] l.

End Dict.

(* ------------------------------------------------------------------ *)
(** ** VIIRS detections: [load_viirs_points], [add_viirs_obstime],
    [viirs_concave_hulls_by_halfday] *)

Module Viirs.

Import Geo.

(** The geometry column of a detection: missing, an empty geometry, or a
    point. *)
Inductive geom_cell : Type :=
| Missing
| EmptyGeom
| At (p : point).

Record row : Type := mk_row {
  ACQ_DATE : Calendar.Timestamp;
  ACQ_TIME : string;              (* 'HHMM' *)
  geom : geom_cell
}.

(** A GeoDataFrame with rows of type [R]. *)
Record frame (R : Type) : Type := mk_frame {
  crs : option nat;               (* EPSG code *)
  rows : list R
}.

(** [gdf.empty] *)
Definition empty {R} (g : frame R) : bool :=
  match rows g with
  | [] => true
  | _ => false
  end.

(** A shapefile: what each of the two readers gives on it.  The first
    reader skips invalid records. *)
Record shapefile : Type := mk_shapefile {
  pyogrio : result (frame row);
  fiona : result (frame row)
}.

(** The directory searched: its path and the shapefiles under it, sorted. *)
Record directory : Type := mk_directory {
  path : string;
  shps : list shapefile
}.

Definition read_file (shp : shapefile) : result (frame row) :=
  match pyogrio shp with
  | Ok g => Ok g
  | Raise _ => fiona shp
  end.

(** The frames read, the empty ones left out. *)
Fixpoint read_all (l : list shapefile) : result (list (frame row)) :=
  match l with
  | [] => Ok []
  | shp :: tl =>
      do g <- read_file shp;
      do gs <- read_all tl;
      Ok (if empty g then gs else g :: gs)
  end.

(** The distinct reference systems that are set, in order of appearance. *)
Fixpoint distinct_crs (l : list (option nat)) : list nat :=
  match l with
  | [] => []
  | None :: tl => distinct_crs tl
  | Some c :: tl =>
      c :: filter (fun c' => negb (c' =? c)%nat) (distinct_crs tl)
  end.

(** [pd.concat(gdfs, ignore_index=True)] *)
Definition concat (gdfs : list (frame row)) : result (frame row) :=
  let all_rows := flat_map (@rows row) gdfs in
  match distinct_crs (List.map (@crs row) gdfs) with
  | [] => Ok (mk_frame None all_rows)
  | [c] => Ok (mk_frame (Some c) all_rows)
  | _ => Raise (ValueError "Cannot determine common CRS for concatenation inputs")
  end.

Definition has_geometry (g : geom_cell) : bool :=
  match g with
  | At _ => true
  | _ => false
  end.

Section WithProjection.
Context {P : Projection}.

Definition reproject_cell (src dst : nat) (g : geom_cell) : geom_cell :=
  match g with
  | At p => At (point_to_crs src dst p)
  | other => other
  end.

Definition reproject_row (src dst : nat) (r : row) : row :=
  mk_row (ACQ_DATE r) (ACQ_TIME r) (reproject_cell src dst (geom r)).

Definition load_viirs_points (viirs_dir : directory) : result (frame row) :=
  match shps viirs_dir with
  | [] => Raise (FileNotFoundError ("No shapefiles under: " ++ path viirs_dir))
  | found =>
      do gdfs <- read_all found;
      do gdf <- match gdfs with
                | [] => Ok (mk_frame None [])
                | _ => concat gdfs
                end;
      if empty gdf then Ok gdf
      else
        let gdf :=
          match crs gdf with
          | None => mk_frame (Some 4326%nat) (rows gdf)
          | Some c => mk_frame (Some 4326%nat)
                        (List.map (reproject_row c 4326) (rows gdf))
          end in
        Ok (mk_frame (crs gdf)
              (filter (fun r => has_geometry (geom r)) (rows gdf)))
  end.

End WithProjection.

(** A detection with its derived columns. *)
Record obs_row : Type := mk_obs_row {
  base : row;
  observation_time : Calendar.Timestamp;
  half_day : Z
}.

(** [str(hm)[:2]] and [str(hm)[2:]] read by [int]. *)
Definition combine (r : row) : result Calendar.Timestamp :=
  let hm := list_ascii_of_string (ACQ_TIME r) in
  do hh <- Text.int (firstn 2 hm);
  do mm <- Text.int (skipn 2 hm);
  Ok (ACQ_DATE r + Calendar.timedelta hh mm)%Z.

(** [dt.day * 2 + dt.hour // 12] *)
Definition half_day_of (t : Calendar.Timestamp) : Z :=
  (Calendar.day t * 2 + Calendar.hour t / 12)%Z.

Fixpoint apply_combine (l : list row) : result (list (row * Calendar.Timestamp)) :=
  match l with
  | [] => Ok []
  | r :: tl =>
      do t <- combine r;
      do ts <- apply_combine tl;
      Ok ((r, t) :: ts)
  end.

(** Stable insertion sort by a comparison. *)
Section Sort.
Variable A : Type.
Variable leb : A -> A -> bool.

Fixpoint insert_by (x : A) (l : list A) : list A :=
  match l with
  | [] => [x]
  | y :: tl => if leb x y then x :: l else y :: insert_by x tl
  end.

Definition sort_by (l : list A) : list A := fold_right insert_by [] l.

End Sort.

(** [add_viirs_obstime]; [sort_values] is read as a stable sort. *)
Definition add_viirs_obstime (gdf : frame row) : result (frame obs_row) :=
  do timed <- apply_combine (rows gdf);
  let sorted := sort_by (fun a b => (snd a <=? snd b)%Z) timed in
  Ok (mk_frame (crs gdf)
        (List.map (fun rt => mk_obs_row (fst rt) (snd rt) (half_day_of (snd rt)))
           sorted)).

(** A detection whose geometry is a point. *)
Record located : Type := mk_located {
  loc_time : Calendar.Timestamp;
  loc_half_day : Z;
  loc_point : point
}.

(** [gdf[~gdf.geometry.isna() & ~gdf.geometry.is_empty]] *)
Definition dropna (l : list obs_row) : list located :=
  flat_map (fun r => match geom (base r) with
                     | At p => [mk_located (observation_time r) (half_day r) p]
                     | _ => []
                     end) l.

(** [series.max()] over the rows of a cohort (a cohort has at least one). *)
Definition series_max (l : list Z) : Z :=
  match l with
  | [] => 0%Z
  | x :: tl => fold_left Z.max tl x
  end.

Section WithHulls.
Context {P : Projection} {H : Hulls}.

Variable ratio : Q.
Variable allow_holes : bool.
Variable tiny_buffer_deg : Q.

(** The hull of the accumulated points: the body of the loop between
    [mp = MultiPoint(cum_points)] and the buffering. *)
Definition raw_hull (cum_points : list point) : geometry :=
  if (length cum_points <? 3)%nat then convex_hull cum_points
  else match concave_hull cum_points ratio allow_holes with
       | Ok hull => hull
       | Raise _ => convex_hull cum_points
       end.

Definition ensure_polygonal (hull : geometry) : geometry :=
  match geom_type hull with
  | Point => buffer hull tiny_buffer_deg
  | LineString => buffer hull tiny_buffer_deg
  | _ => hull
  end.

Definition hull_of (cum_points : list point) : geometry :=
  ensure_polygonal (raw_hull cum_points).

(** What one turn of the loop over the half-days leaves. *)
Record step : Type := mk_step {
  st_half_day : Z;
  st_cum_points : list point;
  st_key : Calendar.Timestamp;
  st_hull : geometry
}.

Fixpoint steps (g : list located) (hds : list Z) (cum_points : list point)
  : list step :=
  match hds with
  | [] => []
  | hd :: tl =>
      let cohort := filter (fun r => (loc_half_day r =? hd)%Z) g in
      let cum_points := cum_points ++ List.map loc_point cohort in
      let hull := hull_of cum_points in
      let t_rep := series_max (List.map loc_time cohort) in
      mk_step hd cum_points t_rep hull :: steps g tl cum_points
  end.

(** The rows the loop runs over: geometry present, in EPSG:4326, sorted by
    half-day then observation time. *)
Definition prepared (gdf : frame obs_row) : list located :=
  let g := dropna (rows gdf) in
  let g := match crs gdf with
           | None => g
           | Some c =>
               if (c =? 4326)%nat then g
               else List.map (fun r => mk_located (loc_time r) (loc_half_day r)
                                         (point_to_crs c 4326 (loc_point r))) g
           end in
  sort_by (fun a b =>
             (loc_half_day a <? loc_half_day b)%Z
             || ((loc_half_day a =? loc_half_day b)%Z
                 && (loc_time a <=? loc_time b)%Z)) g.

(** The turns of the loop, in the order they are taken. *)
Definition hull_steps (gdf : frame obs_row) : list step :=
  let g := prepared gdf in
  steps g (Dict.sorted_unique (List.map loc_half_day g)) [].

Definition viirs_concave_hulls_by_halfday (gdf : frame obs_row)
  : Dict.dict geometry :=
  fold_left (fun hulls s => Dict.set (st_key s) (st_hull s) hulls)
    (hull_steps gdf) [].

End WithHulls.

End Viirs.

(* ------------------------------------------------------------------ *)
(** ** [burn_area_history_from_toa] *)

Module BurnHistory.

(** The finite values of [a[finite_mask]], as rationals, in row-major
    order. *)
Definition finite_values (a : MaskedArray) : list Q :=
  flat_map (fun c => match data c with
                     | Float.fin q => [q]
                     | _ => []
                     end)
    (select (valid_mask a) a).

(** [vals.sort()] *)
Fixpoint insert (x : Q) (l : list Q) : list Q :=
  match l with
  | [] => [x]
  | y :: tl => if Qle_bool x y then x :: l else y :: insert x tl
  end.

Definition sort (l : list Q) : list Q := fold_right insert [] l.

(** Runs of equal values of a sorted list, each with its length. *)
Fixpoint runs (l : list Q) : list (Q * nat) :=
  match l with
  | [] => []
  | x :: tl =>
      match runs tl with
      | (y, n) :: rest => if Qeq_bool x y then (x, S n) :: rest
                          else (x, 1%nat) :: (y, n) :: rest
      | [] => [(x, 1%nat)]
      end
  end.

(** [np.unique(vals, return_counts=True)] *)
Definition unique (vals : list Q) : list Q * list nat :=
  let r := runs (sort vals) in
  (List.map fst r, List.map snd r).

(** [np.cumsum] *)
Fixpoint cumsum_from (acc : nat) (l : list nat) : list nat :=
  match l with
  | [] => []
  | n :: tl => (acc + n)%nat :: cumsum_from (acc + n) tl
  end.

Definition cumsum (l : list nat) : list nat := cumsum_from 0 l.

(** [np.linspace(t_min, t_max, n)] *)
Definition linspace (t_min t_max : Q) (n : nat) : list Q :=
  match n with
  | 0%nat => []
  | 1%nat => [t_min]
  | _ =>
      List.map (fun i => t_min + inject_Z (Z.of_nat i) * (t_max - t_min)
                                 / inject_Z (Z.of_nat (n - 1)))
        (seq 0 n)
  end.

(** [np.searchsorted(vals, t, side="right")]: how many values are [<= t]. *)
Definition searchsorted_right (vals : list Q) (t : Q) : nat :=
  length (filter (fun v => Qle_bool v t) vals).

Definition scaled (scale : Q) (n : nat) : Q := inject_Z (Z.of_nat n) * scale.

(** The function returns tuples of two or of three lists. *)
Inductive history : Type :=
| Pair (times : list Q) (areas : list Q)
| Triple (times : list Q) (counts : list nat) (areas : list Q).

(** [pixel_area_m2 if pixel_area_m2 else 1.0] *)
Definition scale_of (pixel_area_m2 : option Q) : Q :=
  match pixel_area_m2 with
  | Some a => if Qeq_bool a 0 then 1 else a
  | None => 1
  end.

(** [vals > 0] *)
Definition positive (v : Q) : bool := negb (Qle_bool v 0).

Definition burn_area_history_from_toa
  (toa_array : MaskedArray) (pixel_area_m2 : option Q) (n_steps : option nat)
  : history :=
  let vals := finite_values toa_array in
  match vals with
  | [] => Pair [] []
  | _ =>
      let vals := sort vals in
      let vals := filter positive vals in
      match vals with
      | [] => Triple [] [] []
      | _ =>
          let scale := scale_of pixel_area_m2 in
          match n_steps with
          | None =>
              let '(unique_times, counts) := unique vals in
              let cum_counts := cumsum counts in
              Triple unique_times cum_counts (List.map (scaled scale) cum_counts)
          | Some n =>
              let t_min := hd 0 vals in
              let t_max := last vals 0 in
              let thresholds := linspace t_min t_max n in
              let idx := List.map (searchsorted_right vals) thresholds in
              Pair thresholds (List.map (scaled scale) idx)
          end
      end
  end.

Definition times_of (h : history) : list Q :=
  match h with
  | Pair t _ => t
  | Triple t _ _ => t
  end.

Definition areas_of (h : history) : list Q :=
  match h with
  | Pair _ a => a
  | Triple _ _ a => a
  end.

Definition counts_of (h : history) : list nat :=
  match h with
  | Pair _ _ => []
  | Triple _ c _ => c
  end.

End BurnHistory.

(* ------------------------------------------------------------------ *)
(** ** [rasterize_polygon_to_ref] and [calc_cohen_kappa_for_case] *)

Module Kappa.

Import Geo.

Section WithRaster.
Context {geometry : Type} {R : Raster geometry}.

Definition rasterize_polygon_to_ref (poly : geometry) (ref : RefRaster)
  (burn_value : nat) : ndarray nat :=
  let out_shape := (ref_height ref, ref_width ref) in
  if is_empty poly then full out_shape 0%nat
  else mk_ndarray out_shape
         (fun i j => if rasterize poly ref i j then burn_value else 0%nat).

End WithRaster.

(** [y.max()] and [y.min()] of a flat array; numpy raises on an empty one. *)
Definition zero_size (op : string) : exn :=
  ValueError ("zero-size array to reduction operation " ++ op
              ++ " which has no identity").

Definition amax (y : list nat) : result nat :=
  match y with
  | [] => Raise (zero_size "maximum")
  | x :: tl => Ok (fold_left Nat.max tl x)
  end.

Definition amin (y : list nat) : result nat :=
  match y with
  | [] => Raise (zero_size "minimum")
  | x :: tl => Ok (fold_left Nat.min tl x)
  end.

(** [y1.max() == y1.min() and y2.max() == y2.min()], left to right. *)
Definition both_single_class (y_sim y_obs : list nat) : result bool :=
  do smax <- amax y_sim;
  do smin <- amin y_sim;
  if (smax =? smin)%nat then
    do omax <- amax y_obs;
    do omin <- amin y_obs;
    Ok (omax =? omin)%nat
  else Ok false.

(** *** [sklearn.metrics.cohen_kappa_score] on labels 0 and 1

    The confusion matrix over the two labels, the expected matrix
    [outer(sum0, sum1) / n], and one minus the ratio of their off-diagonal
    sums.  Division follows the doubles: 0/0 is not-a-number. *)

Definition count_pairs (a b : nat) (y1 y2 : list nat) : Z :=
  Z.of_nat (length (filter (fun p => (fst p =? a)%nat && (snd p =? b)%nat)
                      (combine y1 y2))).

Definition fdiv (num den : Q) : Float.float :=
  if Qeq_bool den 0 then
    (if Qeq_bool num 0 then Float.nan
     else if Qle_bool 0 num then Float.pinf else Float.ninf)
  else Float.fin (num / den).

(** [1 - k] *)
Definition one_minus (k : Float.float) : Float.float :=
  match k with
  | Float.fin q => Float.fin (1 - q)
  | Float.pinf => Float.ninf
  | Float.ninf => Float.pinf
  | Float.nan => Float.nan
  end.

Definition cohen_kappa_score (y1 y2 : list nat) : Float.float :=
  let c00 := count_pairs 0 0 y1 y2 in
  let c01 := count_pairs 0 1 y1 y2 in
  let c10 := count_pairs 1 0 y1 y2 in
  let c11 := count_pairs 1 1 y1 y2 in
  let sum0_0 := (c00 + c10)%Z in      (* np.sum(confusion, axis=0) *)
  let sum0_1 := (c01 + c11)%Z in
  let sum1_0 := (c00 + c01)%Z in      (* np.sum(confusion, axis=1) *)
  let sum1_1 := (c10 + c11)%Z in
  let n := (sum0_0 + sum0_1)%Z in
  (* the off-diagonal entries of [expected] *)
  let e01 := fdiv (inject_Z (sum0_0 * sum1_1)) (inject_Z n) in
  let e10 := fdiv (inject_Z (sum0_1 * sum1_0)) (inject_Z n) in
  match e01, e10 with
  | Float.fin a, Float.fin b =>
      one_minus (fdiv (inject_Z (c01 + c10)) (a + b))
  | _, _ => Float.nan
  end.

(** [float(kappa) if np.isfinite(kappa) else np.nan] *)
Definition finite_or_nan (k : Float.float) : Float.float :=
  if Float.isfinite k then k else Float.nan.

(** The guard on single-class labels and the score: the value appended to
    [kappas]. *)
Definition recorded_kappa (y_sim y_obs : list nat) : result Float.float :=
  do single <- both_single_class y_sim y_obs;
  let kappa := if single then Float.nan else cohen_kappa_score y_obs y_sim in
  Ok (finite_or_nan kappa).

(** The three values appended for one hull. *)
Record record : Type := mk_record {
  kappa : Float.float;
  time_simu : Float.float;
  time_viirs : Float.float
}.

Section WithRaster.
Context {geometry : Type} {R : Raster geometry}.

Variable to_datetime : list ascii -> result Calendar.Timestamp.

(** [str(shape)] of a 2-D shape. *)
Definition str_of_nat (n : nat) : string :=
  NilZero.string_of_uint (Nat.to_uint n).

Definition str_of_shape (sh : nat * nat) : string :=
  "(" ++ str_of_nat (fst sh) ++ ", " ++ str_of_nat (snd sh) ++ ")".

Definition grid_mismatch (toa_shape ref_shape : nat * nat) : exn :=
  ValueError ("Grid mismatch: TOA shape " ++ str_of_shape toa_shape
              ++ " != ref raster shape " ++ str_of_shape ref_shape).

Definition shape_eqb (a b : nat * nat) : bool :=
  (fst a =? fst b)%nat && (snd a =? snd b)%nat.

(** [burnt[valid].ravel()] at the elapsed time. *)
Definition sim_labels (arr : MaskedArray) (time_sec : Q) : list nat :=
  select (valid_mask arr) (SimMask.burnt arr time_sec).

(** [viirs_bin[valid].ravel()] for the hull, reprojected and rasterized on
    the reference grid. *)
Definition obs_labels (arr : MaskedArray) (ref : RefRaster) (hull : geometry)
  : list nat :=
  let hull_proj := to_crs 4326 (ref_crs ref) hull in
  let viirs_bin := rasterize_polygon_to_ref hull_proj ref 1 in
  select (valid_mask arr) viirs_bin.

(** The body of the loop over the observation times. *)
Definition score_hull (arr : MaskedArray) (t0 : Calendar.Timestamp)
  (ref : RefRaster) (t : Calendar.Timestamp) (hull : geometry)
  : result record :=
  let time_sec := inject_Z (t - t0) in
  let y_obs := obs_labels arr ref hull in
  let sim_time := SimMask.sim_time arr time_sec in
  let y_sim := sim_labels arr time_sec in
  do k <- recorded_kappa y_sim y_obs;
  Ok (mk_record k sim_time (Float.fin time_sec)).

Fixpoint score_all (arr : MaskedArray) (t0 : Calendar.Timestamp)
  (ref : RefRaster) (hulls : Dict.dict geometry) (obs_times : list Z)
  : result (list record) :=
  match obs_times with
  | [] => Ok []
  | t :: tl =>
      do hull <- match Dict.get t hulls with
                 | Some h => Ok h
                 | None => Raise (KeyError "observation time")
                 end;
      do r <- score_hull arr t0 ref t hull;
      do rs <- score_all arr t0 ref hulls tl;
      Ok (r :: rs)
  end.

(** The lists [(kappas, times_simu, times_viirs)]. *)
Definition calc_cohen_kappa_for_case
  (toa_field : MaskedArray) (hulls_by_halfday : Dict.dict geometry)
  (start : StartTime.start_time) (ref : RefRaster)
  : result (list Float.float * list Float.float * list Float.float) :=
  do t0 <- StartTime._parse_start_to_utc to_datetime start;
  let ref_shape := (ref_height ref, ref_width ref) in
  if negb (shape_eqb (shape toa_field) ref_shape) then
    Raise (grid_mismatch (shape toa_field) ref_shape)
  else
    let obs_times := Dict.sorted (Dict.keys hulls_by_halfday) in
    do records <- score_all toa_field t0 ref hulls_by_halfday obs_times;
    Ok (List.map kappa records, List.map time_simu records,
        List.map time_viirs records).

End WithRaster.

End Kappa.

(* ------------------------------------------------------------------ *)
(** ** [plot_burnt_map_from_toa]

    The function builds the burned mask at [time_now], takes the largest
    arrival time under it, draws the mask and returns that time.  The
    embedding keeps the mask and the returned time; the drawing itself
    ([ax.imshow] of the mask with its zeros turned to not-a-number) is left
    out. *)

Module BurntMap.

(** The argument [toa_array]: a plain array, or a masked one. *)
Inductive toa_arg : Type :=
| Plain (a : ndarray Float.float)
| Masked (a : MaskedArray).

(** The array with the mask the function sees: none on a plain array. *)
Definition as_masked (toa_array : toa_arg) : MaskedArray :=
  match toa_array with
  | Plain a => NumPy.map (fun d => mk_cell d false) a
  | Masked a => a
  end.

(** The reduction [np.nanmax] ends in: [np.fmax.reduce] on a plain array,
    the [max] method on a masked one. *)
Definition reduction (toa_array : toa_arg) : string :=
  match toa_array with
  | Plain _ => "fmax"
  | Masked _ => "maximum"
  end.

(** The pair [(burned, toa_max)], [burned] before its conversion to
    floats. *)
Definition plot_burnt_map_from_toa (toa_array : toa_arg) (time_now : Q)
  : result (ndarray bool * Float.float) :=
  let arr := as_masked toa_array in
  let burned := mk_ndarray (shape arr) (SimMask.threshold_mask arr time_now) in
  match select (item burned) (NumPy.map data arr) with
  | [] => Raise (Kappa.zero_size (reduction toa_array))
  | sel => Ok (burned, Float.nanmax sel)
  end.

End BurntMap.

(* ------------------------------------------------------------------ *)
(** ** [_geodesic_area_m2] and [viirs_burn_area_history_from_hulls] *)

Module HullHistory.

(** What the function reads off a hull, and pyproj's geodesic area.  The
    hulls are polygons or multi-polygons, as the loop over the half-days
    leaves them. *)
Class Areas (geometry : Type) : Type := {
  (** [g.is_empty] *)
  is_empty : geometry -> bool;
  (** [g.geoms] when [isinstance(g, MultiPolygon)] *)
  geoms : geometry -> option (list geometry);
  (** [poly.exterior.xy] *)
  exterior_xy : geometry -> list Q * list Q;
  (** [ring.xy] for the rings of [poly.interiors] *)
  interiors_xy : geometry -> list (list Q * list Q);
  (** [_geod.polygon_area_perimeter(x, y)]: signed area and perimeter *)
  polygon_area_perimeter : list Q -> list Q -> Q * Q
}.

Section WithAreas.
Context {geometry : Type} {A : Areas geometry}.

Variable to_datetime : list ascii -> result Calendar.Timestamp.

Definition _geodesic_area_m2 (poly : geometry) : Q :=
  let '(x, y) := exterior_xy poly in
  let a_ext := fst (polygon_area_perimeter x y) in
  fold_left (fun area ring =>
               let '(xi, yi) := ring in
               let a_h := fst (polygon_area_perimeter xi yi) in
               area - Qabs a_h)
    (interiors_xy poly) (Qabs a_ext).

(** [sum(...)] of the areas of the parts. *)
Definition sum_areas (parts : list geometry) : Q :=
  fold_left (fun acc p => acc + _geodesic_area_m2 p) parts 0.

(** The value appended to [areas_km2] for one hull. *)
Definition area_km2 (g : geometry) : Q :=
  if is_empty g then 0
  else match geoms g with
       | Some parts => sum_areas parts / 1000000
       | None => _geodesic_area_m2 g / 1000000
       end.

Fixpoint history (t0 : Calendar.Timestamp) (hulls : Dict.dict geometry)
  (obs_times : list Z) : result (list Q * list Q) :=
  match obs_times with
  | [] => Ok ([], [])
  | t :: tl =>
      do g <- match Dict.get t hulls with
              | Some h => Ok h
              | None => Raise (KeyError "observation time")
              end;
      let area := area_km2 g in
      let time := inject_Z (t - t0) in
      do rest <- history t0 hulls tl;
      Ok (time :: fst rest, area :: snd rest)
  end.

(** The pair [(times_sec, areas_km2)]. *)
Definition viirs_burn_area_history_from_hulls
  (hulls : Dict.dict geometry) (start : StartTime.start_time)
  : result (list Q * list Q) :=
  do t0 <- StartTime._parse_start_to_utc to_datetime start;
  let obs_times := Dict.sorted (Dict.keys hulls) in
  history t0 hulls obs_times.

End WithAreas.

End HullHistory.
(* ------------------------------------------------------------------ *)
(** ** [load_toa_stack]

    A path is read as the list of its parts, which is what [pathlib]
    compares; the files the pattern matches are given with what
    [read_raster] returns on each. *)

Module ToaStack.

Import Text.

Definition Path : Type := list string.

(** [p.name] *)
Definition name (p : Path) : string := last p EmptyString.

(** The order of [pathlib] paths: the order of Python lists on their parts,
    with the parts compared as strings, code point by code point. *)
Fixpoint compare (a b : Path) : comparison :=
  match a, b with
  | [], [] => Eq
  | [], _ :: _ => Lt
  | _ :: _, [] => Gt
  | x :: a', y :: b' =>
      match String.compare x y with
      | Eq => compare a' b'
      | c => c
      end
  end.

Definition leb (a b : Path) : bool :=
  match compare a b with
  | Gt => false
  | _ => true
  end.

(** *** The pattern [time_of_arrival_(\d+)\.tif$] *)

(** [l] without the literal [p] at its head. *)
Fixpoint strip_literal (p l : list ascii) : option (list ascii) :=
  match p, l with
  | [], _ => Some l
  | c :: p', d :: l' => if Ascii.eqb c d then strip_literal p' l' else None
  | _ :: _, [] => None
  end.

(** The longest run of digits at the head of [l], and what follows it. *)
Fixpoint span_digits (l : list ascii) : list ascii * list ascii :=
  match l with
  | c :: tl =>
      if isdigit c then let '(d, r) := span_digits tl in (c :: d, r)
      else ([], l)
  | [] => ([], [])
  end.

(** [$]: the end of the string, or a line feed that ends it. *)
Definition at_end (l : list ascii) : bool :=
  match l with
  | [] => true
  | [c] => (code c =? 10)%nat
  | _ => false
  end.

(** The pattern anchored at the head of [l]: the digits of the group.  The
    run of digits is taken whole: a shorter one is followed by a digit, not
    by the dot. *)
Definition match_here (l : list ascii) : option (list ascii) :=
  match strip_literal (list_ascii_of_string "time_of_arrival_") l with
  | Some rest =>
      let '(digits, rest) := span_digits rest in
      match digits with
      | [] => None
      | _ =>
          match strip_literal (list_ascii_of_string ".tif") rest with
          | Some tail => if at_end tail then Some digits else None
          | None => None
          end
      end
  | None => None
  end.

(** [re.search]: the leftmost match. *)
Fixpoint search (l : list ascii) : option (list ascii) :=
  match match_here l with
  | Some digits => Some digits
  | None =>
      match l with
      | [] => None
      | _ :: tl => search tl
      end
  end.

(** [float(m2.group(1)) if m2 else float(len(times))]; the value is exact
    for a number a double holds. *)
Definition time_of (p : Path) (index : nat) : Q :=
  match search (list_ascii_of_string (name p)) with
  | Some digits =>
      match digits_value 0 digits with
      | Some z => inject_Z z
      | None => inject_Z (Z.of_nat index)
      end
  | None => inject_Z (Z.of_nat index)
  end.

Section WithRasters.

(** The types of [src.transform] and of [src.meta]. *)
Variables Affine Meta : Type.

(** A file the pattern matches, with the outcome of [read_raster] on it. *)
Record file : Type := mk_file {
  path : Path;
  read_raster : result (MaskedArray * Affine * Meta)
}.

(** [np.array(arr)]: the data of the masked array, without the mask. *)
Definition np_array (arr : MaskedArray) : ndarray Float.float :=
  NumPy.map data arr.

(** The loop over the paths; [index] is [len(times)]. *)
Fixpoint read_stack (files : list file) (index : nat)
  : result (list (ndarray Float.float) * list Q) :=
  match files with
  | [] => Ok ([], [])
  | f :: tl =>
      do r <- read_raster f;
      let '(arr, _, _) := r in
      do rest <- read_stack tl (S index);
      Ok (np_array arr :: fst rest, time_of (path f) index :: snd rest)
  end.

(** The tuple [(paths, arrays, times, transform, meta)]. *)
Definition load_toa_stack (toa_glob : string) (matched : list file)
  : result (list Path * list (ndarray Float.float) * list Q * Affine * Meta) :=
  let files := Viirs.sort_by (fun a b => leb (path a) (path b)) matched in
  match files with
  | [] => Raise (FileNotFoundError
                   ("No TOA rasters found with pattern: " ++ toa_glob))
  | first :: _ =>
      do stack <- read_stack files 0;
      do r <- read_raster first;
      let '(_, tform, m) := r in
      Ok (List.map path files, fst stack, snd stack, tform, m)
  end.

End WithRasters.

End ToaStack.
(* ------------------------------------------------------------------ *)
(** ** Implementations of the geometry interfaces used in examples *)

(** Points that are already in the target reference system. *)
Module Identity.

#[local] Instance projection : Geo.Projection :=
  {| Geo.point_to_crs := fun _ _ p => p |}.

End Identity.

(** Exact plane geometry over the rationals.

    The convex hull is computed by the monotone-chain construction.  The
    area of a polygon is exact (the shoelace formula).  The area of a
    buffered segment is that of the rectangle of half-width [eps] along the
    longer of its two coordinate extents, and the area of a buffered point
    that of the square inscribed in the disc: both lie inside the buffer
    shapely builds, so they never exceed its area. *)
Module Planar.

Import Geo.

Inductive shape : Type :=
| Empty
| Pt (p : point)
| Segment (a b : point)
| Ring (vertices : list point)
| Buffered (g : shape) (eps : Q).

Definition cross (o a b : point) : Q :=
  (fst a - fst o) * (snd b - snd o) - (snd a - snd o) * (fst b - fst o).

Definition lex_leb (a b : point) : bool :=
  negb (Qle_bool (fst b) (fst a))
  || (Qeq_bool (fst a) (fst b) && Qle_bool (snd a) (snd b)).

Definition point_eqb (a b : point) : bool :=
  Qeq_bool (fst a) (fst b) && Qeq_bool (snd a) (snd b).

Fixpoint dedup (l : list point) : list point :=
  match l with
  | a :: ((b :: _) as tl) => if point_eqb a b then dedup tl else a :: dedup tl
  | _ => l
  end.

(** One point added to a chain kept with its last vertex first. *)
Fixpoint add_point (p : point) (chain : list point) : list point :=
  match chain with
  | b :: rest =>
      match rest with
      | a :: _ => if Qle_bool (cross a b p) 0 then add_point p rest
                  else p :: chain
      | [] => p :: chain
      end
  | [] => [p]
  end.

Definition chain (pts : list point) : list point :=
  fold_left (fun c p => add_point p c) pts [].

Definition hull_vertices (pts : list point) : list point :=
  let sorted := dedup (Viirs.sort_by lex_leb pts) in
  match sorted with
  | [] => []
  | [p] => [p]
  | _ =>
      let lower := rev (chain sorted) in
      let upper := rev (chain (rev sorted)) in
      removelast lower ++ removelast upper
  end.

Definition convex (pts : list point) : shape :=
  match hull_vertices pts with
  | [] => Empty
  | [p] => Pt p
  | [a; b] => Segment a b
  | vs => Ring vs
  end.

Fixpoint shoelace (first prev : point) (l : list point) : Q :=
  match l with
  | [] => fst prev * snd first - fst first * snd prev
  | p :: tl => fst prev * snd p - fst p * snd prev + shoelace first p tl
  end.

Definition ring_area (vs : list point) : Q :=
  match vs with
  | [] => 0
  | p :: tl => Qabs (shoelace p p tl) / 2
  end.

Fixpoint shape_area (g : shape) : Q :=
  match g with
  | Ring vs => ring_area vs
  | Buffered (Segment a b) eps =>
      2 * eps * Qmax (Qabs (fst b - fst a)) (Qabs (snd b - snd a))
  | Buffered (Pt _) eps => 2 * eps * eps
  | Buffered g' _ => shape_area g'
  | _ => 0
  end.

Definition shape_type (g : shape) : gtype :=
  match g with
  | Pt _ => Point
  | Segment _ _ => LineString
  | _ => Polygon
  end.

(** The hull operations with a given concave construction. *)
Definition hulls_with (concave : list point -> Q -> bool -> result shape)
  : Hulls :=
  {| geometry := shape;
     convex_hull := convex;
     concave_hull := concave;
     geom_type := shape_type;
     buffer := Buffered;
     area := shape_area |}.

(** The concave hull at ratio 1 is the convex hull. *)
Definition hulls : Hulls := hulls_with (fun pts _ _ => Ok (convex pts)).




End Planar.

(** Geometries given by the cells they cover on the reference grid. *)
Module Cells.

Definition covered : Type := list (nat * nat).

Definition covers (g : covered) (i j : nat) : bool :=
  existsb (fun ij => (fst ij =? i)%nat && (snd ij =? j)%nat) g.

#[local] Instance raster : Geo.Raster covered :=
  {| Geo.is_empty := fun g => match g with [] => true | _ => false end;
     Geo.to_crs := fun _ _ g => g;
     Geo.rasterize := fun g _ i j => covers g i j |}.

End Cells.

(* ------------------------------------------------------------------ *)
(** ** Vocabulary of the properties *)

(** The cell (i, j) lies on the grid. *)
Definition in_grid {A} (a : ndarray A) (i j : nat) : Prop :=
  (i < height a)%nat /\ (j < width a)%nat.

(** A cell that takes part in the burn history: valid, with a strictly
    positive arrival time. *)
Definition arrived (c : cell) : bool :=
  cell_valid c && Float.gtb (data c) (Float.fin 0).

(** How many cells of the grid are finite and strictly positive. *)
Definition finite_positive_cells (a : MaskedArray) : nat :=
  length (filter arrived (ravel a)).

(** Labels of one class only. *)
Definition single_class (y : list nat) : Prop :=
  y <> [] /\ exists c, Forall (eq c) y.

(** The 4x4 arrival-time grid of the design document's scenario; the
    no-data cells are masked and carry the fill value. *)
Definition nodata_cell : cell := mk_cell (Float.of_Z (-9999)) true.
Definition toa_cell (z : Z) : cell := mk_cell (Float.of_Z z) false.

Definition scenario_grid : MaskedArray :=
  of_rows nodata_cell
    [ [toa_cell 1; toa_cell 2; nodata_cell; nodata_cell];
      [toa_cell 3; toa_cell 4; nodata_cell; nodata_cell];
      [nodata_cell; nodata_cell; nodata_cell; nodata_cell];
      [nodata_cell; nodata_cell; nodata_cell; nodata_cell] ].

(** Grids without a burned cell: one that is all no-data, one whose arrival
    times are zero or negative. *)
Definition blank_grid : MaskedArray :=
  of_rows nodata_cell [ [nodata_cell; nodata_cell] ].

Definition unburned_grid : MaskedArray :=
  of_rows nodata_cell [ [toa_cell 0; toa_cell (-5)] ].

(** A grid with repeated arrival times. *)
Definition repeated_grid : MaskedArray :=
  of_rows nodata_cell
    [ [toa_cell 7; toa_cell 2; toa_cell 7];
      [toa_cell 2; nodata_cell; toa_cell 7] ].


(** A directory whose only shapefile has two records, one without geometry
    and one with an empty geometry; and one whose only shapefile has lost
    all its records as invalid. *)
Definition geometryless_frame : Viirs.frame Viirs.row :=
  Viirs.mk_frame (Some 4326%nat)
    [ Viirs.mk_row 1507507200%Z "0954" Viirs.Missing;
      Viirs.mk_row 1507507200%Z "2106" Viirs.EmptyGeom ].




(** Detections of 9 October 2017: two in the morning, 0.04 degrees apart
    on a parallel, and one in the evening, between them and a billionth of
    a degree to the north. *)
Definition thin_detections : Viirs.frame Viirs.row :=
  Viirs.mk_frame (Some 4326%nat)
    [ Viirs.mk_row 1507507200%Z "0954" (Viirs.At (-122.75, 38.5));
      Viirs.mk_row 1507507200%Z "0954" (Viirs.At (-122.71, 38.5));
      Viirs.mk_row 1507507200%Z "2106" (Viirs.At (-122.73, 38.500000001)) ].


(** The frames above with their observation times and half-days. *)
Definition with_obstime (gdf : Viirs.frame Viirs.row) : Viirs.frame Viirs.obs_row :=
  match Viirs.add_viirs_obstime gdf with
  | Ok g => g
  | Raise _ => Viirs.mk_frame None []
  end.

(** The default [tiny_buffer_deg]. *)
Definition tiny_buffer_deg : Q := 1 # 1000000000.

(** The turns of the hull loop on a frame, with exact plane geometry. *)
Definition planar_steps (H : Geo.Hulls) (ratio : Q)
  (gdf : Viirs.frame Viirs.row) : list (@Viirs.step H) :=
  Viirs.hull_steps (P := Identity.projection) (H := H) ratio true
    tiny_buffer_deg (with_obstime gdf).

(** The half-day window of a timestamp: the count of half-days since the
    epoch. *)
Definition window (t : Calendar.Timestamp) : Z := (t / 43200)%Z.

(** Observation times around the end of October 2017, and a month apart. *)
Definition oct31_1300 : Calendar.Timestamp := Calendar.of_fields 2017 10 31 13 0 0.
Definition nov01_0100 : Calendar.Timestamp := Calendar.of_fields 2017 11 1 1 0 0.
Definition oct09_0954 : Calendar.Timestamp := Calendar.of_fields 2017 10 9 9 54 0.
Definition oct09_2106 : Calendar.Timestamp := Calendar.of_fields 2017 10 9 21 6 0.
Definition nov09_0954 : Calendar.Timestamp := Calendar.of_fields 2017 11 9 9 54 0.

(** The start time of the design document's scenario. *)
Definition scenario_start : StartTime.start_time :=
  StartTime.Str "2020-01-01, 09:00 PDT".

(** The value of a decimal digit. *)
Definition digit_value (c : ascii) : Z := Z.of_nat (Text.code c - 48).

(** The text 'HHMM' of four characters. *)
Definition hhmm (h1 h2 m1 m2 : ascii) : string :=
  String h1 (String h2 (String m1 (String m2 EmptyString))).

(** A reference raster on the scenario's grid, and one of another shape. *)
Definition scenario_ref : Geo.RefRaster := Geo.mk_ref 4 4 3310.
Definition other_ref : Geo.RefRaster := Geo.mk_ref 3 5 3310.

(** A hull covering the three cells the fire has reached at cutoff 3, and
    an empty one. *)
Definition scenario_hull : Cells.covered := [(0, 0); (0, 1); (1, 0)]%nat.
Definition empty_hull : Cells.covered := [].

(** The start time of the Tubbs fire case. *)
Definition tubbs_start : StartTime.start_time :=
  StartTime.Str "2017-10-08, 21:45 PST".

(** Three hulls keyed out of order: five minutes before the start of
    the Tubbs case, and two and three seconds after it. *)
Definition three_hulls : Dict.dict Cells.covered :=
  [(1507524303%Z, scenario_hull); (1507524302%Z, empty_hull);
   (1507524000%Z, scenario_hull)].

(** A directory of two shapefiles: the first is read by the fallback
    reader only and holds the detections of 9 October, the second has no
    located record. *)
Definition mixed_dir : Viirs.directory :=
  Viirs.mk_directory "data/viirs_observation"
    [ Viirs.mk_shapefile (Raise (ValueError "unsupported field type"))
        (Ok thin_detections);
      Viirs.mk_shapefile (Ok geometryless_frame) (Ok geometryless_frame) ].

(** The plain array behind the scenario grid: the no-data cells hold the
    fill value. *)
Definition scenario_plain : ndarray Float.float := NumPy.map data scenario_grid.

(** The area recorded for the key [t] of a dictionary of hulls. *)
Definition area_at_key {geometry : Type} {A : HullHistory.Areas geometry}
  (hulls : Dict.dict geometry) (t : Z) : Q :=
  match Dict.get t hulls with
  | Some g => HullHistory.area_km2 g
  | None => 0
  end.

(** Plane polygons read through their cells: the area of a hull is the
    number of its cells, in square metres. *)
Module CellAreas.

#[local] Instance areas : HullHistory.Areas Cells.covered :=
  {| HullHistory.is_empty := fun g => match g with [] => true | _ => false end;
     HullHistory.geoms := fun _ => None;
     HullHistory.exterior_xy :=
       fun g => (List.map (fun ij => inject_Z (Z.of_nat (snd ij))) g,
                 List.map (fun ij => inject_Z (Z.of_nat (fst ij))) g);
     HullHistory.interiors_xy := fun _ => [];
     HullHistory.polygon_area_perimeter :=
       fun x _ => (inject_Z (Z.of_nat (length x)), 0) |}.

End CellAreas.

(** Two rasters the pattern matches, as the file system lists them: one
    named by its time, one named by run and time. *)
Definition scenario_stack : list (ToaStack.file unit unit) :=
  [ ToaStack.mk_file ["outputs"%string; "time_of_arrival_0003600.tif"%string]
      (Ok (repeated_grid, tt, tt));
    ToaStack.mk_file
      ["outputs"%string; "time_of_arrival_0000001_0021600.tif"%string]
      (Ok (scenario_grid, tt, tt)) ].


(** The array the scorer and the burn history receive for a raster that
    went through [load_toa_stack]: its data, with no mask. *)
Definition stacked (arr : MaskedArray) : MaskedArray :=
  BurntMap.as_masked (BurntMap.Plain (ToaStack.np_array arr)).

(* ================================================================== *)
(** * Properties *)

Unset Implicit Arguments.

(** ** numpy arrays *)

Section ArrayFacts.

Lemma in_indices (sh : nat * nat) (i j : nat) :
  In (i, j) (indices sh) <-> (i < fst sh)%nat /\ (j < snd sh)%nat.
Proof.
  unfold indices. rewrite in_flat_map. split.
  - intros [r [Hr Hin]]. apply in_map_iff in Hin.
    destruct Hin as [c [Heq Hc]]. inversion Heq; subst.
    apply in_seq in Hr. apply in_seq in Hc. lia.
  - intros [Hi Hj]. exists i. split.
    + apply in_seq. lia.
    + apply in_map_iff. exists j. split; [reflexivity | apply in_seq; lia].
Qed.

Lemma any_true (sh : nat * nat) (m : nat -> nat -> bool) :
  any sh m = true <->
  exists i j, (i < fst sh)%nat /\ (j < snd sh)%nat /\ m i j = true.
Proof.
  unfold any. rewrite existsb_exists. split.
  - intros [[i j] [Hin Hm]]. apply in_indices in Hin.
    exists i, j. simpl in Hm. tauto.
  - intros [i [j [Hi [Hj Hm]]]]. exists (i, j). split.
    + apply in_indices. auto.
    + exact Hm.
Qed.

Lemma any_false (sh : nat * nat) (m : nat -> nat -> bool) :
  any sh m = false ->
  forall i j, (i < fst sh)%nat -> (j < snd sh)%nat -> m i j = false.
Proof.
  intros Hany i j Hi Hj. destruct (m i j) eqn:Hm; [|reflexivity].
  assert (any sh m = true) by (apply any_true; eauto).
  congruence.
Qed.

Lemma in_select {A} (m : nat -> nat -> bool) (a : ndarray A) (x : A) :
  In x (select m a) <->
  exists i j, (i < height a)%nat /\ (j < width a)%nat
              /\ m i j = true /\ x = item a i j.
Proof.
  unfold select, height, width. rewrite in_map_iff. split.
  - intros [[i j] [Hx Hin]]. apply filter_In in Hin.
    destruct Hin as [Hin Hm]. apply in_indices in Hin.
    exists i, j. simpl in *. intuition congruence.
  - intros [i [j [Hi [Hj [Hm Hx]]]]]. exists (i, j). split.
    + simpl. congruence.
    + apply filter_In. split; [apply in_indices; auto | exact Hm].
Qed.

End ArrayFacts.

(** ** Doubles *)

Section FloatFacts.

Lemma leb_fin (a b : Q) : Float.leb (Float.fin a) (Float.fin b) = true <-> a <= b.
Proof. simpl. apply Qle_bool_iff. Qed.

Lemma gtb_fin (a b : Q) : Float.gtb (Float.fin a) (Float.fin b) = true <-> b < a.
Proof.
  unfold Float.gtb. simpl. rewrite negb_true_iff. split.
  - intro H. apply Qnot_le_lt. intro Hle.
    apply Qle_bool_iff in Hle. congruence.
  - intro H. destruct (Qle_bool a b) eqn:E; [|reflexivity].
    apply Qle_bool_iff in E. exfalso. exact (Qlt_not_le _ _ H E).
Qed.

(** The running maximum over finite values stays finite, is one of the
    values met, and bounds them all. *)
Lemma nanmax_from (l : list Float.float) (m : Q) :
  (forall x, In x l -> exists q, x = Float.fin q) ->
  exists m', fold_left Float.fmax l (Float.fin m) = Float.fin m'
             /\ (m' = m \/ In (Float.fin m') l)
             /\ m <= m'
             /\ (forall q, In (Float.fin q) l -> q <= m').
Proof.
  revert m. induction l as [|x l IH]; intros m Hfin.
  - exists m. simpl. repeat split; auto using Qle_refl. intros q [].
  - destruct (Hfin x (or_introl eq_refl)) as [q ->].
    assert (Hl : forall y, In y l -> exists r, y = Float.fin r)
      by (intros y Hy; apply Hfin; right; exact Hy).
    simpl fold_left. unfold Float.fmax at 2. simpl.
    destruct (Qle_bool m q) eqn:E.
    + apply Qle_bool_iff in E.
      destruct (IH q Hl) as [m' [Hf [Hin [Hle Hall]]]].
      exists m'. repeat split.
      * exact Hf.
      * right. destruct Hin as [-> | Hin]; [left; reflexivity | right; exact Hin].
      * eapply Qle_trans; eauto.
      * intros r [Hr | Hr]; [inversion Hr; subst; exact Hle | auto].
    + assert (Hlt : q < m).
      { apply Qnot_le_lt. intro Hle. apply Qle_bool_iff in Hle. congruence. }
      destruct (IH m Hl) as [m' [Hf [Hin [Hle Hall]]]].
      exists m'. repeat split.
      * exact Hf.
      * destruct Hin as [-> | Hin]; [left; reflexivity | right; right; exact Hin].
      * exact Hle.
      * intros r [Hr | Hr]; [inversion Hr; subst|auto].
        apply Qlt_le_weak. eapply Qlt_le_trans; eauto.
Qed.

Lemma nanmax_finite (l : list Float.float) :
  l <> [] ->
  (forall x, In x l -> exists q, x = Float.fin q) ->
  exists m, Float.nanmax l = Float.fin m
            /\ In (Float.fin m) l
            /\ (forall q, In (Float.fin q) l -> q <= m).
Proof.
  intros Hne Hfin. destruct l as [|x l]; [congruence|].
  destruct (Hfin x (or_introl eq_refl)) as [q ->].
  unfold Float.nanmax. simpl fold_left. unfold Float.fmax at 2. simpl.
  destruct (@nanmax_from l q) as [m [Hf [Hin [Hle Hall]]]].
  { intros y Hy. apply Hfin. right. exact Hy. }
  exists m. repeat split.
  - exact Hf.
  - destruct Hin as [-> | Hin]; [left; reflexivity | right; exact Hin].
  - intros r [Hr | Hr]; [inversion Hr; subst; exact Hle | auto].
Qed.

End FloatFacts.

(** ** The simulated burned mask *)

Section SimMaskFacts.

Variable arr : MaskedArray.
Variable time_sec : Q.

Lemma threshold_mask_true (i j : nat) :
  SimMask.threshold_mask arr time_sec i j = true <->
  mask (item arr i j) = false
  /\ exists q, data (item arr i j) = Float.fin q /\ 0 < q /\ q <= time_sec.
Proof.
  unfold SimMask.threshold_mask, valid_mask, cell_valid.
  rewrite !andb_true_iff, negb_true_iff.
  destruct (data (item arr i j)) as [| | |q] eqn:E; simpl Float.isfinite.
  1-3: split; [intros [[[H _] _] _]; discriminate
              | intros [_ [q [Hq _]]]; discriminate].
  rewrite leb_fin, gtb_fin. split.
  - intros [[[_ Hm] Hle] Hpos]. split; [exact Hm|]. exists q. auto.
  - intros [Hm [q' [Hq [Hpos Hle]]]]. inversion Hq; subst. auto.
Qed.

Lemma burnt_shape : shape (SimMask.burnt arr time_sec) = shape arr.
Proof.
  unfold SimMask.burnt, SimMask.simulated.
  destruct (negb (Qle_bool time_sec 0)); [|reflexivity].
  destruct (any (shape arr) (SimMask.threshold_mask arr time_sec)); reflexivity.
Qed.

(** On the grid the mask is the threshold test, whichever branch built it. *)
Lemma burnt_item (i j : nat) :
  in_grid arr i j ->
  item (SimMask.burnt arr time_sec) i j =
  if SimMask.threshold_mask arr time_sec i j then 1%nat else 0%nat.
Proof.
  intros [Hi Hj]. unfold SimMask.burnt, SimMask.simulated.
  destruct (negb (Qle_bool time_sec 0)) eqn:Ht.
  - destruct (any (shape arr) (SimMask.threshold_mask arr time_sec)) eqn:Hany.
    + reflexivity.
    + simpl. rewrite (any_false _ _ Hany i j Hi Hj). reflexivity.
  - simpl. apply negb_false_iff, Qle_bool_iff in Ht.
    destruct (SimMask.threshold_mask arr time_sec i j) eqn:Hm; [|reflexivity].
    apply threshold_mask_true in Hm. destruct Hm as [_ [q [_ [Hpos Hle]]]].
    exfalso. apply (Qlt_irrefl 0).
    eapply Qlt_le_trans; [exact Hpos|]. eapply Qle_trans; eauto.
Qed.

Lemma burnt_zero_or_one (i j : nat) :
  item (SimMask.burnt arr time_sec) i j = 0%nat
  \/ item (SimMask.burnt arr time_sec) i j = 1%nat.
Proof.
  unfold SimMask.burnt, SimMask.simulated.
  destruct (negb (Qle_bool time_sec 0)); [|left; reflexivity].
  destruct (any (shape arr) (SimMask.threshold_mask arr time_sec));
    [|left; reflexivity].
  simpl. destruct (SimMask.threshold_mask arr time_sec i j); auto.
Qed.

Lemma burnt_unburned (i j : nat) :
  time_sec <= 0 -> item (SimMask.burnt arr time_sec) i j = 0%nat.
Proof.
  intro Ht. unfold SimMask.burnt, SimMask.simulated.
  apply Qle_bool_iff in Ht. rewrite Ht. reflexivity.
Qed.

Lemma sim_time_unburned : time_sec <= 0 -> SimMask.sim_time arr time_sec = Float.nan.
Proof.
  intro Ht. unfold SimMask.sim_time, SimMask.simulated.
  apply Qle_bool_iff in Ht. rewrite Ht. reflexivity.
Qed.

(** The realized cutoff: not-a-number when no cell of the grid is burned,
    else the largest arrival time among the burned cells. *)
Lemma sim_time_spec :
  ((forall i j, in_grid arr i j -> item (SimMask.burnt arr time_sec) i j = 0%nat)
   /\ SimMask.sim_time arr time_sec = Float.nan)
  \/
  (exists i j m,
      in_grid arr i j
      /\ item (SimMask.burnt arr time_sec) i j = 1%nat
      /\ data (item arr i j) = Float.fin m
      /\ SimMask.sim_time arr time_sec = Float.fin m
      /\ forall i' j' q,
          in_grid arr i' j' ->
          item (SimMask.burnt arr time_sec) i' j' = 1%nat ->
          data (item arr i' j') = Float.fin q -> q <= m).
Proof.
  destruct (negb (Qle_bool time_sec 0)) eqn:Ht.
  2:{ left. apply negb_false_iff, Qle_bool_iff in Ht. split.
      - intros i j _. apply burnt_unburned. exact Ht.
      - apply sim_time_unburned. exact Ht. }
  destruct (any (shape arr) (SimMask.threshold_mask arr time_sec)) eqn:Hany.
  2:{ left. split.
      - intros i j Hin. rewrite burnt_item by exact Hin.
        destruct Hin as [Hi Hj]. rewrite (any_false _ _ Hany i j Hi Hj).
        reflexivity.
      - unfold SimMask.sim_time, SimMask.simulated. rewrite Ht, Hany.
        reflexivity. }
  right.
  set (sel := select (SimMask.threshold_mask arr time_sec) (NumPy.map data arr)).
  assert (Hsel : forall x, In x sel <->
            exists i j, in_grid arr i j
                        /\ SimMask.threshold_mask arr time_sec i j = true
                        /\ x = data (item arr i j)).
  { intro x. unfold sel. rewrite in_select. unfold in_grid, height, width.
    simpl. split; intros [i [j H]]; exists i, j; tauto. }
  assert (Hst : SimMask.sim_time arr time_sec = Float.nanmax sel).
  { unfold SimMask.sim_time, SimMask.simulated. rewrite Ht, Hany. reflexivity. }
  destruct (@nanmax_finite sel) as [m [Hmax [Hin Hall]]].
  - apply any_true in Hany. destruct Hany as [i [j [Hi [Hj Hm]]]].
    intro Hnil.
    assert (Hx : In (data (item arr i j)) sel).
    { apply Hsel. exists i, j. unfold in_grid, height, width. auto. }
    rewrite Hnil in Hx. exact Hx.
  - intros x Hx. apply Hsel in Hx. destruct Hx as [i [j [_ [Hm ->]]]].
    apply threshold_mask_true in Hm. destruct Hm as [_ [q [Hq _]]]. eauto.
  - apply Hsel in Hin. destruct Hin as [i [j [Hgrid [Hm Hd]]]].
    exists i, j, m. repeat split.
    + exact (proj1 Hgrid).
    + exact (proj2 Hgrid).
    + rewrite burnt_item by exact Hgrid. rewrite Hm. reflexivity.
    + symmetry. exact Hd.
    + rewrite Hst. exact Hmax.
    + intros i' j' q Hgrid' Hb Hq. apply Hall. apply Hsel.
      exists i', j'. repeat split; try apply Hgrid'.
      * rewrite burnt_item in Hb by exact Hgrid'.
        destruct (SimMask.threshold_mask arr time_sec i' j'); [reflexivity|discriminate].
      * symmetry. exact Hq.
Qed.

End SimMaskFacts.



(** ** The agreement score *)

Section KappaFacts.

Lemma fold_max_spec (tl : list nat) (x : nat) :
  (fold_left Nat.max tl x = x \/ In (fold_left Nat.max tl x) tl)
  /\ (x <= fold_left Nat.max tl x)%nat
  /\ Forall (fun y => (y <= fold_left Nat.max tl x)%nat) tl.
Proof.
  revert x. induction tl as [|y tl IH]; intro x; simpl.
  - auto.
  - destruct (IH (Nat.max x y)) as [Hin [Hle Hall]]. repeat split.
    + destruct Hin as [Heq | Hin]; [|auto].
      rewrite Heq. destruct (Nat.max_spec x y) as [[_ ->] | [_ ->]]; auto.
    + lia.
    + constructor; [lia | exact Hall].
Qed.

Lemma fold_min_spec (tl : list nat) (x : nat) :
  (fold_left Nat.min tl x = x \/ In (fold_left Nat.min tl x) tl)
  /\ (fold_left Nat.min tl x <= x)%nat
  /\ Forall (fun y => (fold_left Nat.min tl x <= y)%nat) tl.
Proof.
  revert x. induction tl as [|y tl IH]; intro x; simpl.
  - auto.
  - destruct (IH (Nat.min x y)) as [Hin [Hle Hall]]. repeat split.
    + destruct Hin as [Heq | Hin]; [|auto].
      rewrite Heq. destruct (Nat.min_spec x y) as [[_ ->] | [_ ->]]; auto.
    + lia.
    + constructor; [lia | exact Hall].
Qed.

Lemma amax_spec (y : list nat) :
  y <> [] ->
  exists m, Kappa.amax y = Ok m /\ In m y /\ Forall (fun x => (x <= m)%nat) y.
Proof.
  destruct y as [|x tl]; [congruence|]. intros _.
  destruct (fold_max_spec tl x) as [Hin [Hle Hall]].
  exists (fold_left Nat.max tl x). simpl. repeat split.
  - destruct Hin as [-> | Hin]; auto.
  - constructor; assumption.
Qed.

Lemma amin_spec (y : list nat) :
  y <> [] ->
  exists m, Kappa.amin y = Ok m /\ In m y /\ Forall (fun x => (m <= x)%nat) y.
Proof.
  destruct y as [|x tl]; [congruence|]. intros _.
  destruct (fold_min_spec tl x) as [Hin [Hle Hall]].
  exists (fold_left Nat.min tl x). simpl. repeat split.
  - destruct Hin as [-> | Hin]; auto.
  - constructor; assumption.
Qed.

Lemma single_class_extremes (y : list nat) :
  single_class y -> exists c, Kappa.amax y = Ok c /\ Kappa.amin y = Ok c.
Proof.
  intros [Hne [c Hall]]. rewrite Forall_forall in Hall.
  destruct (amax_spec y Hne) as [m [Hmax [Hin _]]].
  destruct (amin_spec y Hne) as [n [Hmin [Hin' _]]].
  exists c. rewrite Hmax, Hmin.
  rewrite <- (Hall m Hin), <- (Hall n Hin'). auto.
Qed.

(** Single-class labels on both sides: the guard holds and the score is
    left undefined. *)
Lemma recorded_kappa_single_class (y_sim y_obs : list nat) :
  single_class y_sim -> single_class y_obs ->
  Kappa.recorded_kappa y_sim y_obs = Ok Float.nan.
Proof.
  intros Hs Ho.
  destruct (single_class_extremes y_sim Hs) as [c [Hmax Hmin]].
  destruct (single_class_extremes y_obs Ho) as [d [Hmax' Hmin']].
  unfold Kappa.recorded_kappa, Kappa.both_single_class.
  rewrite Hmax, Hmin. simpl. rewrite Nat.eqb_refl.
  rewrite Hmax', Hmin'. simpl. rewrite Nat.eqb_refl. reflexivity.
Qed.









End KappaFacts.

(** ** The skill scorer *)

Section ScorerFacts.

Context {geometry : Type} {R : Geo.Raster geometry}.


(** An exception of the guard is the empty reduction. *)
Lemma recorded_kappa_raises (y_sim y_obs : list nat) (e : exn) :
  Kappa.recorded_kappa y_sim y_obs = Raise e ->
  e = Kappa.zero_size "maximum" \/ e = Kappa.zero_size "minimum".
Proof.
  unfold Kappa.recorded_kappa, Kappa.both_single_class.
  destruct y_sim as [|x tl]; simpl.
  - intro H. inversion H. auto.
  - destruct (_ =? _)%nat; simpl.
    + destruct y_obs as [|x' tl']; simpl.
      * intro H. inversion H. auto.
      * discriminate.
    + discriminate.
Qed.

Lemma score_hull_raises arr t0 ref t (hull : geometry) (e : exn) :
  Kappa.score_hull arr t0 ref t hull = Raise e ->
  e = Kappa.zero_size "maximum" \/ e = Kappa.zero_size "minimum".
Proof.
  unfold Kappa.score_hull. cbv zeta.
  destruct (Kappa.recorded_kappa _ _) as [k|e'] eqn:E; simpl.
  - discriminate.
  - intro H. inversion H; subst. eapply recorded_kappa_raises; eauto.
Qed.

Lemma score_all_raises arr t0 ref (hulls : Dict.dict geometry) obs_times e :
  Kappa.score_all arr t0 ref hulls obs_times = Raise e ->
  e = Kappa.zero_size "maximum" \/ e = Kappa.zero_size "minimum"
  \/ e = KeyError "observation time".
Proof.
  induction obs_times as [|t tl IH]; simpl.
  - discriminate.
  - destruct (Dict.get t hulls) as [h|]; simpl.
    2:{ intro H. inversion H. auto. }
    destruct (Kappa.score_hull arr t0 ref t h) as [r|e'] eqn:E; simpl.
    2:{ intro H. inversion H; subst.
        destruct (score_hull_raises _ _ _ _ _ _ E); auto. }
    destruct (Kappa.score_all arr t0 ref hulls tl) as [rs|e'] eqn:E'; simpl.
    + discriminate.
    + intro H. inversion H; subst. auto.
Qed.

Lemma shape_eqb_spec (a b : nat * nat) : Kappa.shape_eqb a b = true <-> a = b.
Proof.
  destruct a as [a1 a2], b as [b1 b2]. unfold Kappa.shape_eqb. simpl.
  rewrite andb_true_iff, !Nat.eqb_eq. split.
  - intros [-> ->]. reflexivity.
  - intro H. inversion H. auto.
Qed.

Lemma sim_labels_zero_or_one arr time_sec (x : nat) :
  In x (Kappa.sim_labels arr time_sec) -> x = 0%nat \/ x = 1%nat.
Proof.
  unfold Kappa.sim_labels. intro H. apply in_select in H.
  destruct H as [i [j [_ [_ [_ ->]]]]]. apply burnt_zero_or_one.
Qed.

Lemma sim_labels_nonempty arr time_sec :
  (exists i j, in_grid arr i j /\ valid_mask arr i j = true) ->
  Kappa.sim_labels arr time_sec <> [].
Proof.
  intros [i [j [[Hi Hj] Hv]]] Hnil.
  assert (H : In (item (SimMask.burnt arr time_sec) i j)
                (Kappa.sim_labels arr time_sec)).
  { unfold Kappa.sim_labels. apply in_select. exists i, j.
    unfold height, width. rewrite burnt_shape. auto. }
  rewrite Hnil in H. exact H.
Qed.

Lemma obs_labels_nonempty arr ref (hull : geometry) :
  shape arr = (Geo.ref_height ref, Geo.ref_width ref) ->
  (exists i j, in_grid arr i j /\ valid_mask arr i j = true) ->
  Kappa.obs_labels arr ref hull <> [].
Proof.
  intros Hshape [i [j [[Hi Hj] Hv]]] Hnil.
  unfold Kappa.obs_labels in Hnil. cbv zeta in Hnil.
  set (viirs_bin := Kappa.rasterize_polygon_to_ref _ ref 1) in Hnil.
  assert (Hs : shape viirs_bin = shape arr).
  { unfold viirs_bin, Kappa.rasterize_polygon_to_ref. rewrite Hshape.
    destruct (Geo.is_empty _); reflexivity. }
  assert (H : In (item viirs_bin i j) (select (valid_mask arr) viirs_bin)).
  { apply in_select. exists i, j. unfold height, width. rewrite Hs. auto. }
  rewrite Hnil in H. exact H.
Qed.

End ScorerFacts.



(** C7. Once the start time is parsed, the scorer raises the grid-mismatch
    error exactly when the shape of the simulated grid differs from the
    shape of the reference raster; the message is built from both shapes,
    and the error is the whole outcome, whatever the hulls are. *)
Theorem grid_mismatch_iff_shapes_differ
  {geometry : Type} {R : Geo.Raster geometry}
  (to_datetime : list ascii -> result Calendar.Timestamp)
  (toa_field : MaskedArray) (hulls : Dict.dict geometry)
  (start : StartTime.start_time) (ref : Geo.RefRaster)
  (t0 : Calendar.Timestamp) :
  StartTime._parse_start_to_utc to_datetime start = Ok t0 ->
  (shape toa_field <> (Geo.ref_height ref, Geo.ref_width ref) <->
   Kappa.calc_cohen_kappa_for_case to_datetime toa_field hulls start ref
   = Raise (ValueError
              ("Grid mismatch: TOA shape "
               ++ Kappa.str_of_shape (shape toa_field)
               ++ " != ref raster shape "
               ++ Kappa.str_of_shape (Geo.ref_height ref, Geo.ref_width ref)))).
Proof.
  intro Hparse. unfold Kappa.calc_cohen_kappa_for_case.
  rewrite Hparse. simpl bind.
  destruct (Kappa.shape_eqb (shape toa_field)
              (Geo.ref_height ref, Geo.ref_width ref)) eqn:E; simpl negb; cbv iota.
  - apply shape_eqb_spec in E. split; [congruence|].
    destruct (Kappa.score_all _ _ _ _ _) as [rs|e] eqn:Hall; simpl.
    + discriminate.
    + intro H. exfalso. inversion H as [He]. clear H.
      apply score_all_raises in Hall.
      destruct Hall as [-> | [-> | ->]]; discriminate He.
  - split; [intros _; reflexivity|].
    intros _ Heq. apply shape_eqb_spec in Heq. congruence.
Qed.



(** The statement of C7 for the Tubbs start time, the 4x4 scenario grid and
    a 3x5 reference raster. *)
Lemma grid_mismatch_iff_shapes_differ_witness :
  StartTime._parse_start_to_utc StartTime.to_datetime_iso tubbs_start
  = Ok 1507524300%Z
  /\ (shape scenario_grid <> (3, 5)%nat <->
      Kappa.calc_cohen_kappa_for_case (R := Cells.raster)
        StartTime.to_datetime_iso scenario_grid [(1507600000%Z, scenario_hull)]
        tubbs_start other_ref
      = Raise (ValueError
                 "Grid mismatch: TOA shape (4, 4) != ref raster shape (3, 5)")).
Proof.
  assert (Hparse : StartTime._parse_start_to_utc StartTime.to_datetime_iso
                     tubbs_start = Ok 1507524300%Z) by reflexivity.
  split; [exact Hparse|].
  exact (grid_mismatch_iff_shapes_differ (R := Cells.raster)
           StartTime.to_datetime_iso scenario_grid
           [(1507600000%Z, scenario_hull)] tubbs_start other_ref
           1507524300%Z Hparse).
Defined.

(** ** The burn-history curve *)

Section BurnHistoryFacts.

Import BurnHistory.

Lemma Qle_bool_false (x y : Q) : Qle_bool x y = false -> y < x.
Proof.
  intro H. apply Qnot_le_lt. intro Hle. apply Qle_bool_iff in Hle. congruence.
Qed.

Lemma insert_In (x y : Q) (l : list Q) : In y (insert x l) <-> y = x \/ In y l.
Proof.
  induction l as [|z l IH]; simpl.
  - intuition.
  - destruct (Qle_bool x z); simpl; [intuition|]. rewrite IH. intuition.
Qed.

Lemma insert_sorted (x : Q) (l : list Q) :
  StronglySorted Qle l -> StronglySorted Qle (insert x l).
Proof.
  induction 1 as [|z l Hs IH Hall]; simpl.
  - constructor; constructor.
  - destruct (Qle_bool x z) eqn:E.
    + apply Qle_bool_iff in E. constructor.
      * constructor; assumption.
      * constructor; [exact E|].
        eapply Forall_impl; [|exact Hall]. intros a Ha.
        eapply Qle_trans; eauto.
    + apply Qle_bool_false in E. constructor; [exact IH|].
      apply Forall_forall. intros a Ha. apply insert_In in Ha.
      destruct Ha as [-> | Ha].
      * apply Qlt_le_weak. exact E.
      * rewrite Forall_forall in Hall. auto.
Qed.

Lemma sort_sorted (l : list Q) : StronglySorted Qle (sort l).
Proof.
  induction l as [|x l IH]; simpl; [constructor | apply insert_sorted, IH].
Qed.

Lemma sort_In (x : Q) (l : list Q) : In x (sort l) <-> In x l.
Proof.
  induction l as [|y l IH]; simpl; [tauto|].
  rewrite insert_In, IH. intuition.
Qed.

Lemma filter_length_insert (f : Q -> bool) (x : Q) (l : list Q) :
  length (filter f (insert x l)) = length (filter f (x :: l)).
Proof.
  induction l as [|y l IH]; [reflexivity|]. simpl insert.
  destruct (Qle_bool x y); [reflexivity|].
  simpl in *. destruct (f y), (f x); simpl in *; lia.
Qed.

Lemma filter_length_sort (f : Q -> bool) (l : list Q) :
  length (filter f (sort l)) = length (filter f l).
Proof.
  induction l as [|x l IH]; [reflexivity|]. simpl sort.
  rewrite filter_length_insert. simpl. destruct (f x); simpl; lia.
Qed.

Lemma length_sort (l : list Q) : length (sort l) = length l.
Proof.
  assert (Hf : forall l' : list Q, filter (fun _ => true) l' = l')
    by (induction l'; simpl; congruence).
  pose proof (filter_length_sort (fun _ => true) l) as H.
  rewrite !Hf in H. exact H.
Qed.

Lemma runs_head (x : Q) (tl : list Q) :
  exists n rest, runs (x :: tl) = (x, S n) :: rest.
Proof.
  simpl. destruct (runs tl) as [|[y n] rest]; [eauto|].
  destruct (Qeq_bool x y); eauto.
Qed.

Lemma runs_fst_In (q : Q) (l : list Q) :
  In q (List.map fst (runs l)) -> In q l.
Proof.
  revert q. induction l as [|x l IH]; intros q; simpl; [tauto|].
  destruct (runs l) as [|[y n] rest]; simpl.
  - intuition.
  - destruct (Qeq_bool x y); simpl; simpl in IH; intuition.
Qed.

(** The knots of a sorted list are strictly increasing. *)
Lemma runs_sorted (l : list Q) :
  StronglySorted Qle l -> StronglySorted Qlt (List.map fst (runs l)).
Proof.
  induction 1 as [|x l Hs IH Hall]; [constructor|].
  destruct l as [|y l].
  - simpl. constructor; constructor.
  - destruct (runs_head y l) as [n [rest Hr]].
    simpl runs at 1.
    replace (match runs l with
             | [] => [(y, 1%nat)]
             | (y0, n0) :: rest0 =>
                 if Qeq_bool y y0 then (y, S n0) :: rest0
                 else (y, 1%nat) :: (y0, n0) :: rest0
             end) with (runs (y :: l)) by reflexivity.
    rewrite Hr in *. simpl in IH. inversion IH as [|? ? Hrest Hlt]; subst.
    assert (Hxy : x <= y) by (inversion Hall; assumption).
    destruct (Qeq_bool x y) eqn:E; simpl.
    + apply Qeq_bool_eq in E. constructor; [exact Hrest|].
      eapply Forall_impl; [|exact Hlt]. intros a Ha.
      eapply Qle_lt_trans; [|exact Ha]. rewrite E. apply Qle_refl.
    + assert (Hlt' : x < y).
      { apply Qle_lteq in Hxy. destruct Hxy as [Hxy | Hxy]; [exact Hxy|].
        apply Qeq_eq_bool in Hxy. congruence. }
      constructor; [exact IH|]. constructor; [exact Hlt'|].
      eapply Forall_impl; [|exact Hlt]. intros a Ha.
      eapply Qlt_trans; eauto.
Qed.

Lemma runs_sum (l : list Q) : list_sum (List.map snd (runs l)) = length l.
Proof.
  induction l as [|x l IH]; [reflexivity|]. simpl.
  destruct (runs l) as [|[y n] rest]; simpl in *.
  - lia.
  - destruct (Qeq_bool x y); simpl; lia.
Qed.

Lemma cumsum_from_sorted (acc : nat) (l : list nat) :
  StronglySorted le (cumsum_from acc l)
  /\ Forall (fun n => (acc <= n)%nat) (cumsum_from acc l).
Proof.
  revert acc. induction l as [|n l IH]; intro acc; simpl.
  - split; constructor.
  - destruct (IH (acc + n)%nat) as [Hs Hall]. split.
    + constructor; [exact Hs|]. exact Hall.
    + constructor; [lia|]. eapply Forall_impl; [|exact Hall].
      simpl. intros. lia.
Qed.

Lemma cumsum_from_last (acc d : nat) (l : list nat) :
  l <> [] -> last (cumsum_from acc l) d = (acc + list_sum l)%nat.
Proof.
  revert acc. induction l as [|n l IH]; intros acc Hne; [congruence|].
  destruct l as [|m l].
  - simpl. lia.
  - change (cumsum_from acc (n :: m :: l))
      with ((acc + n)%nat :: cumsum_from (acc + n) (m :: l)).
    change (list_sum (n :: m :: l)) with (n + list_sum (m :: l))%nat.
    rewrite Nat.add_assoc, <- (IH (acc + n)%nat) by discriminate.
    reflexivity.
Qed.

Lemma cumsum_last (l : list nat) : last (cumsum l) 0%nat = list_sum l.
Proof.
  destruct l as [|n l]; [reflexivity|].
  unfold cumsum. rewrite cumsum_from_last by discriminate. reflexivity.
Qed.

Lemma sorted_map {A B} (RA : A -> A -> Prop) (RB : B -> B -> Prop)
  (f : A -> B) (l : list A) :
  (forall a b, RA a b -> RB (f a) (f b)) ->
  StronglySorted RA l -> StronglySorted RB (List.map f l).
Proof.
  intros Hf. induction 1 as [|x l Hs IH Hall]; simpl; constructor.
  - exact IH.
  - apply Forall_forall. intros b Hb. apply in_map_iff in Hb.
    destruct Hb as [a [<- Ha]]. apply Hf.
    rewrite Forall_forall in Hall. auto.
Qed.

Lemma scaled_monotone (scale : Q) (n m : nat) :
  0 <= scale -> (n <= m)%nat -> scaled scale n <= scaled scale m.
Proof.
  intros Hs Hnm. unfold scaled. apply Qmult_le_compat_r; [|exact Hs].
  rewrite <- Zle_Qle. lia.
Qed.

End BurnHistoryFacts.

Section BurnHistoryCurve.

Import BurnHistory.

Lemma select_valid_ravel (a : MaskedArray) :
  select (valid_mask a) a = filter cell_valid (ravel a).
Proof.
  unfold select, ravel, valid_mask.
  induction (indices (shape a)) as [|ij l IH]; [reflexivity|]. simpl.
  destruct (cell_valid (item a (fst ij) (snd ij))); simpl; congruence.
Qed.

Lemma finite_values_count (a : MaskedArray) :
  length (filter positive (finite_values a)) = finite_positive_cells a.
Proof.
  unfold finite_values, finite_positive_cells. rewrite select_valid_ravel.
  induction (ravel a) as [|c l IH]; [reflexivity|]. simpl.
  unfold arrived at 1. destruct (cell_valid c) eqn:Ev; simpl; [|exact IH].
  unfold cell_valid in Ev. apply andb_true_iff in Ev. destruct Ev as [Hf _].
  destruct (data c) as [| | |q]; try discriminate. simpl.
  unfold positive at 1, Float.gtb. simpl.
  destruct (negb (Qle_bool q 0)); simpl; congruence.
Qed.

(** The three lists of the exact curve, from the runs of the sorted
    positive values; the two early returns fit the same equations. *)
Lemma exact_mode (a : MaskedArray) (pixel_area_m2 : option Q) :
  let r := runs (sort (filter positive (sort (finite_values a)))) in
  let h := burn_area_history_from_toa a pixel_area_m2 None in
  times_of h = List.map fst r
  /\ counts_of h = cumsum (List.map snd r)
  /\ areas_of h = List.map (scaled (scale_of pixel_area_m2))
                    (cumsum (List.map snd r)).
Proof.
  unfold burn_area_history_from_toa.
  destruct (finite_values a) as [|v vs] eqn:Ev.
  - simpl. auto.
  - rewrite <- Ev.
    destruct (filter positive (sort (finite_values a))) as [|w ws] eqn:Ew.
    + simpl. auto.
    + rewrite <- Ew. unfold unique. simpl. auto.
Qed.

Lemma sorted_weaken (l : list Q) : StronglySorted Qlt l -> StronglySorted Qle l.
Proof.
  intro H. rewrite <- (map_id l).
  apply (sorted_map Qlt Qle (fun x => x)); [|exact H].
  intros a b. apply Qlt_le_weak.
Qed.

End BurnHistoryCurve.

(** C9. In exact mode the burn-history curve has non-decreasing (indeed
    strictly increasing) and strictly positive times, non-decreasing
    cumulative counts, non-decreasing areas for a pixel area that is not
    negative, and a final count equal to the number of finite, strictly
    positive cells; a grid without such a cell gives an empty curve. *)
Theorem exact_curve_monotone_and_complete
  (toa_array : MaskedArray) (pixel_area_m2 : option Q) :
  let h := BurnHistory.burn_area_history_from_toa toa_array pixel_area_m2 None in
  StronglySorted Qle (BurnHistory.times_of h)
  /\ StronglySorted Qlt (BurnHistory.times_of h)
  /\ Forall (fun t => 0 < t) (BurnHistory.times_of h)
  /\ StronglySorted le (BurnHistory.counts_of h)
  /\ ((forall a, pixel_area_m2 = Some a -> 0 <= a) ->
      StronglySorted Qle (BurnHistory.areas_of h))
  /\ last (BurnHistory.counts_of h) 0%nat = finite_positive_cells toa_array
  /\ (finite_positive_cells toa_array = 0%nat ->
      h = BurnHistory.Pair [] [] \/ h = BurnHistory.Triple [] [] []).
Proof.
  intro h.
  destruct (exact_mode toa_array pixel_area_m2) as [Ht [Hc Ha]].
  fold h in Ht, Hc, Ha.
  set (vals := filter BurnHistory.positive
                 (BurnHistory.sort (BurnHistory.finite_values toa_array))) in *.
  assert (Hsorted : StronglySorted Qlt (BurnHistory.times_of h)).
  { rewrite Ht. apply runs_sorted, sort_sorted. }
  split; [apply sorted_weaken; exact Hsorted|].
  split; [exact Hsorted|].
  split.
  { rewrite Ht. apply Forall_forall. intros t Hin.
    apply runs_fst_In in Hin. apply (proj1 (sort_In _ _)) in Hin.
    unfold vals in Hin.
    apply filter_In in Hin. destruct Hin as [_ Hpos].
    unfold BurnHistory.positive in Hpos. apply negb_true_iff in Hpos.
    apply Qle_bool_false. exact Hpos. }
  split.
  { rewrite Hc. apply cumsum_from_sorted. }
  split.
  { intro Harea. rewrite Ha.
    apply (sorted_map le Qle); [|apply cumsum_from_sorted].
    intros n m. apply scaled_monotone.
    unfold BurnHistory.scale_of. destruct pixel_area_m2 as [a|].
    - destruct (Qeq_bool a 0); [discriminate | apply Harea; reflexivity].
    - discriminate. }
  split.
  { rewrite Hc, cumsum_last, runs_sum, length_sort. unfold vals.
    rewrite filter_length_sort. apply finite_values_count. }
  intro Hzero. rewrite <- finite_values_count in Hzero.
  unfold h, BurnHistory.burn_area_history_from_toa.
  destruct (BurnHistory.finite_values toa_array) as [|v vs] eqn:Ev; [auto|].
  rewrite <- Ev in *. rewrite <- filter_length_sort in Hzero.
  destruct (filter BurnHistory.positive
              (BurnHistory.sort (BurnHistory.finite_values toa_array)));
    [auto | discriminate].
Qed.

(** The statement of C9 on grids of the scenario: areas for a pixel of
    900 m2, and the empty curves of a blank and of an unburned grid. *)
Lemma exact_curve_monotone_and_complete_witness :
  StronglySorted Qle
    (BurnHistory.areas_of
       (BurnHistory.burn_area_history_from_toa repeated_grid (Some 900) None))
  /\ BurnHistory.burn_area_history_from_toa repeated_grid (Some 900) None
     = BurnHistory.Triple [2; 7] [2; 5]%nat [1800; 4500]
  /\ (BurnHistory.burn_area_history_from_toa blank_grid None None
      = BurnHistory.Pair [] []
      \/ BurnHistory.burn_area_history_from_toa blank_grid None None
         = BurnHistory.Triple [] [] [])
  /\ (BurnHistory.burn_area_history_from_toa unburned_grid None None
      = BurnHistory.Pair [] []
      \/ BurnHistory.burn_area_history_from_toa unburned_grid None None
         = BurnHistory.Triple [] [] []).
Proof.
  split; [|split; [|split]].
  - apply (proj1 (proj2 (proj2 (proj2 (proj2
             (exact_curve_monotone_and_complete repeated_grid (Some 900))))))).
    intros a Ha. inversion Ha; subst. discriminate.
  - reflexivity.
  - apply (proj2 (proj2 (proj2 (proj2 (proj2 (proj2
             (exact_curve_monotone_and_complete blank_grid None))))))).
    reflexivity.
  - apply (proj2 (proj2 (proj2 (proj2 (proj2 (proj2
             (exact_curve_monotone_and_complete unburned_grid None))))))).
    reflexivity.
Defined.

(** ** The detection loader *)

Section LoaderFacts.

Context {P : Geo.Projection}.

Lemma reproject_row_geometry (src dst : nat) (r : Viirs.row) :
  Viirs.has_geometry (Viirs.geom (Viirs.reproject_row src dst r))
  = Viirs.has_geometry (Viirs.geom r).
Proof. destruct r as [d t [| |p]]; reflexivity. Qed.


Lemma concat_rows (gdfs : list (Viirs.frame Viirs.row)) (gdf : Viirs.frame Viirs.row) :
  Viirs.concat gdfs = Ok gdf ->
  Viirs.rows gdf = flat_map (@Viirs.rows Viirs.row) gdfs.
Proof.
  unfold Viirs.concat.
  destruct (Viirs.distinct_crs _) as [|c [|c' l]]; intro H; inversion H;
    reflexivity.
Qed.


End LoaderFacts.




(** ** The cumulative hulls *)

Section SortedUnique.

Lemma insert_unique_In (x z : Z) (l : list Z) :
  In x (Dict.insert_unique z l) <-> x = z \/ In x l.
Proof.
  induction l as [|y l IH]; simpl.
  - intuition.
  - destruct (z <? y)%Z; [simpl; intuition|].
    destruct (z =? y)%Z eqn:E.
    + apply Z.eqb_eq in E. subst. simpl. intuition.
    + simpl. rewrite IH. intuition.
Qed.

Lemma insert_unique_sorted (z : Z) (l : list Z) :
  StronglySorted Z.lt l -> StronglySorted Z.lt (Dict.insert_unique z l).
Proof.
  induction 1 as [|y l Hs IH Hall]; simpl.
  - constructor; constructor.
  - destruct (z <? y)%Z eqn:Elt.
    + apply Z.ltb_lt in Elt. constructor.
      * constructor; assumption.
      * constructor; [exact Elt|].
        eapply Forall_impl; [|exact Hall]. simpl. intros. lia.
    + apply Z.ltb_ge in Elt. destruct (z =? y)%Z eqn:Eeq.
      * constructor; assumption.
      * apply Z.eqb_neq in Eeq. constructor; [exact IH|].
        apply Forall_forall. intros a Ha. apply insert_unique_In in Ha.
        destruct Ha as [-> | Ha]; [lia|].
        rewrite Forall_forall in Hall. auto.
Qed.

Lemma sorted_unique_sorted (l : list Z) :
  StronglySorted Z.lt (Dict.sorted_unique l).
Proof.
  induction l as [|x l IH]; simpl; [constructor|].
  apply insert_unique_sorted, IH.
Qed.

Lemma sorted_unique_In (x : Z) (l : list Z) :
  In x (Dict.sorted_unique l) <-> In x l.
Proof.
  induction l as [|y l IH]; simpl; [tauto|].
  rewrite insert_unique_In, IH. intuition.
Qed.

Lemma sorted_consecutive (a b : list Z) (x y : Z) :
  StronglySorted Z.lt (a ++ x :: y :: b) -> (x < y)%Z.
Proof.
  induction a as [|z a IH]; simpl; intro H; inversion H as [|? ? Hs Hall]; subst.
  - inversion Hall; assumption.
  - auto.
Qed.

End SortedUnique.

Section HullFacts.

Context {P : Geo.Projection} {H : Geo.Hulls}.

Variable ratio : Q.
Variable allow_holes : bool.
Variable eps : Q.

Let steps := Viirs.steps ratio allow_holes eps.
Let hull_of := Viirs.hull_of ratio allow_holes eps.

Lemma steps_hull (g : list Viirs.located) (hds : list Z) (acc : list Geo.point)
  (s : Viirs.step) :
  In s (steps g hds acc) ->
  Viirs.st_hull s = hull_of (Viirs.st_cum_points s).
Proof.
  revert acc. induction hds as [|hd tl IH]; intros acc; simpl; [tauto|].
  intros [<- | Hin]; [reflexivity | eauto].
Qed.

(** Two turns of the loop in a row: their half-days are neighbours in the
    list iterated, and the second accumulator is the first followed by the
    points of the second cohort. *)
Lemma steps_consecutive (g : list Viirs.located) (hds : list Z)
  (acc : list Geo.point) (pre post : list Viirs.step) (s1 s2 : Viirs.step) :
  steps g hds acc = pre ++ s1 :: s2 :: post ->
  (exists a b, hds = a ++ Viirs.st_half_day s1 :: Viirs.st_half_day s2 :: b)
  /\ Viirs.st_cum_points s2
     = Viirs.st_cum_points s1
       ++ List.map Viirs.loc_point
            (filter (fun r => (Viirs.loc_half_day r =? Viirs.st_half_day s2)%Z) g).
Proof.
  revert acc pre. induction hds as [|hd tl IH]; intros acc pre Heq.
  - destruct pre; discriminate.
  - simpl in Heq. destruct pre as [|p pre].
    + simpl in Heq. inversion Heq as [[Hs1 Hrest]]. clear Heq.
      destruct tl as [|hd2 tl2]; [discriminate|].
      simpl in Hrest. inversion Hrest as [[Hs2 Hpost]]. clear Hrest.
      simpl. split; [exists [], tl2; reflexivity | reflexivity].
    + simpl in Heq. inversion Heq as [[Hp Hrest]]. clear Heq.
      destruct (IH _ _ Hrest) as [[a [b Hab]] Hcum].
      split; [|exact Hcum]. exists (hd :: a), b. simpl. congruence.
Qed.

End HullFacts.


(** C3, as the loop has it.  For two cohorts in a row the half-day grows,
    the accumulated list of the second is that of the first followed by at
    least one point, and each hull is built from its whole list.  The areas
    themselves need not grow. *)
Theorem accumulated_points_grow
  {P : Geo.Projection} {H : Geo.Hulls}
  (ratio : Q) (allow_holes : bool) (eps : Q)
  (gdf : Viirs.frame Viirs.obs_row)
  (pre post : list Viirs.step) (s1 s2 : Viirs.step) :
  Viirs.hull_steps ratio allow_holes eps gdf = pre ++ s1 :: s2 :: post ->
  (Viirs.st_half_day s1 < Viirs.st_half_day s2)%Z
  /\ (exists extra, extra <> []
                    /\ Viirs.st_cum_points s2 = Viirs.st_cum_points s1 ++ extra)
  /\ Viirs.st_hull s1 = Viirs.hull_of ratio allow_holes eps (Viirs.st_cum_points s1)
  /\ Viirs.st_hull s2 = Viirs.hull_of ratio allow_holes eps (Viirs.st_cum_points s2).
Proof.
  intro Heq. unfold Viirs.hull_steps in Heq.
  set (g := Viirs.prepared gdf) in *.
  destruct (steps_consecutive _ _ _ _ _ _ _ _ _ _ Heq) as [[a [b Hab]] Hcum].
  assert (Hin : forall s, In s (pre ++ s1 :: s2 :: post) ->
                  Viirs.st_hull s
                  = Viirs.hull_of ratio allow_holes eps (Viirs.st_cum_points s)).
  { intros s Hs. rewrite <- Heq in Hs. eapply steps_hull; eauto. }
  assert (H1 : Viirs.st_hull s1
               = Viirs.hull_of ratio allow_holes eps (Viirs.st_cum_points s1)).
  { apply Hin. apply in_or_app. right. left. reflexivity. }
  assert (H2 : Viirs.st_hull s2
               = Viirs.hull_of ratio allow_holes eps (Viirs.st_cum_points s2)).
  { apply Hin. apply in_or_app. right. right. left. reflexivity. }
  split; [|split; [|split; [exact H1 | exact H2]]].
  - pose proof (sorted_unique_sorted (List.map Viirs.loc_half_day g)) as Hs.
    rewrite Hab in Hs. eapply sorted_consecutive; eauto.
  - eexists. split; [|exact Hcum].
    assert (Hh : In (Viirs.st_half_day s2) (List.map Viirs.loc_half_day g)).
    { apply sorted_unique_In. rewrite Hab. apply in_or_app.
      right. right. left. reflexivity. }
    apply in_map_iff in Hh. destruct Hh as [r [Hr Hg]].
    intro Hnil. apply map_eq_nil in Hnil.
    assert (Hf : In r (filter
                         (fun r0 => (Viirs.loc_half_day r0 =? Viirs.st_half_day s2)%Z)
                         g)).
    { apply filter_In. split; [exact Hg|]. apply Z.eqb_eq. exact Hr. }
    rewrite Hnil in Hf. exact Hf.
Qed.


Lemma list_of_length_two {A : Type} (l : list A) (d : A) :
  length l = 2%nat -> l = [nth 0 l d; nth 1 l d].
Proof.
  destruct l as [|a [|b [|c l']]]; simpl; intro Hlen; try discriminate; reflexivity.
Qed.

(** C3 as stated fails.  After the morning of 9 October the hull is the
    buffered segment between the two detections, of area at least 8e-11
    square degrees; after the evening it is the triangle of the three
    detections, of area 2e-11. *)
Lemma hull_area_shrinks :
  Viirs.add_viirs_obstime thin_detections = Ok (with_obstime thin_detections)
  /\ exists s1 s2,
      planar_steps Planar.hulls 1 thin_detections = [s1; s2]
      /\ Viirs.st_half_day s1 = 18%Z /\ Viirs.st_half_day s2 = 19%Z
      /\ Viirs.st_hull s1
         = Planar.Buffered (Planar.Segment (-122.75, 38.5) (-122.71, 38.5))
             tiny_buffer_deg
      /\ Viirs.st_hull s2
         = Planar.Ring [(-122.75, 38.5); (-122.71, 38.5); (-122.73, 38.500000001)]
      /\ Geo.area (Viirs.st_hull s2) < Geo.area (Viirs.st_hull s1).
Proof.
  split; [reflexivity|].
  exists (nth 0 (planar_steps Planar.hulls 1 thin_detections)
            (Viirs.mk_step (H := Planar.hulls) 0%Z [] 0%Z Planar.Empty)),
         (nth 1 (planar_steps Planar.hulls 1 thin_detections)
            (Viirs.mk_step (H := Planar.hulls) 0%Z [] 0%Z Planar.Empty)).
  split; [apply list_of_length_two; vm_compute; reflexivity|].
  repeat (split; [vm_compute; reflexivity|]).
  vm_compute; reflexivity.
Qed.

(** The statement of the amended C3 on the same detections. *)
Lemma accumulated_points_grow_witness :
  let s1 := nth 0 (planar_steps Planar.hulls 1 thin_detections)
              (Viirs.mk_step (H := Planar.hulls) 0%Z [] 0%Z Planar.Empty) in
  let s2 := nth 1 (planar_steps Planar.hulls 1 thin_detections)
              (Viirs.mk_step (H := Planar.hulls) 0%Z [] 0%Z Planar.Empty) in
  planar_steps Planar.hulls 1 thin_detections = [] ++ s1 :: s2 :: []
  /\ (Viirs.st_half_day s1 < Viirs.st_half_day s2)%Z
  /\ (exists extra, extra <> []
                    /\ Viirs.st_cum_points s2 = Viirs.st_cum_points s1 ++ extra).
Proof.
  intros s1 s2.
  assert (Heq : planar_steps Planar.hulls 1 thin_detections = [] ++ s1 :: s2 :: [])
    by reflexivity.
  split; [exact Heq|].
  destruct (accumulated_points_grow (P := Identity.projection) (H := Planar.hulls)
              1 true tiny_buffer_deg (with_obstime thin_detections)
              [] [] s1 s2 Heq) as [Hlt [Hgrow _]].
  split; [exact Hlt | exact Hgrow].
Defined.



(** ** Calendar *)

Section CalendarFacts.

Local Open Scope Z_scope.

(** The steps of [civil_from_days], with the ranges of their results. *)
Lemma civil_from_days_steps (days : Z) :
  exists era yoe doy mp,
    0 <= yoe <= 399 /\ 0 <= doy <= 365 /\ 0 <= mp <= 11
    /\ days + 719468 = era * 146097 + (365 * yoe + yoe / 4 - yoe / 100) + doy
    /\ Calendar.civil_from_days days
       = ((yoe + era * 400)
          + (if (if mp <? 10 then mp + 3 else mp - 9) <=? 2 then 1 else 0),
          (if mp <? 10 then mp + 3 else mp - 9),
          doy - (153 * mp + 2) / 5 + 1).
Proof.
  unfold Calendar.civil_from_days. cbv zeta.
  set (era := (days + 719468) / 146097).
  set (doe := days + 719468 - era * 146097).
  assert (Hdoe : 0 <= doe < 146097)
    by (subst doe era; Z.div_mod_to_equations; lia).
  assert (Hz : days + 719468 = era * 146097 + doe) by (subst doe; lia).
  clearbody doe. clearbody era.
  set (yoe := (doe - doe / 1460 + doe / 36524 - doe / 146096) / 365).
  assert (Hyoe : 0 <= yoe <= 399) by (subst yoe; Z.div_mod_to_equations; lia).
  set (doy := doe - (365 * yoe + yoe / 4 - yoe / 100)).
  assert (Hdoy : 0 <= doy <= 365)
    by (subst doy yoe; Z.div_mod_to_equations; lia).
  set (mp := (5 * doy + 2) / 153).
  assert (Hmp : 0 <= mp <= 11) by (subst mp; Z.div_mod_to_equations; lia).
  exists era, yoe, doy, mp.
  split; [exact Hyoe|]. split; [exact Hdoy|]. split; [exact Hmp|].
  split; [subst doy; lia | reflexivity].
Qed.

(** Within one month of one year the day of the month moves with the day
    count. *)
Lemma civil_same_month (z1 z2 : Z) :
  fst (Calendar.civil_from_days z1) = fst (Calendar.civil_from_days z2) ->
  snd (Calendar.civil_from_days z1) - snd (Calendar.civil_from_days z2) = z1 - z2.
Proof.
  destruct (civil_from_days_steps z1)
    as [e1 [y1 [d1 [m1 [Hy1 [Hd1 [Hm1 [Hz1 ->]]]]]]]].
  destruct (civil_from_days_steps z2)
    as [e2 [y2 [d2 [m2 [Hy2 [Hd2 [Hm2 [Hz2 ->]]]]]]]].
  simpl fst. simpl snd. intro H. inversion H as [[Hyear Hmonth]]. clear H.
  assert (Hmp : m1 = m2).
  { destruct (m1 <? 10) eqn:E1, (m2 <? 10) eqn:E2;
      try apply Z.ltb_lt in E1; try apply Z.ltb_lt in E2;
      try apply Z.ltb_ge in E1; try apply Z.ltb_ge in E2; lia. }
  subst m2. clear Hmonth.
  destruct ((if m1 <? 10 then m1 + 3 else m1 - 9) <=? 2).
  all: assert (Hera : e1 = e2 /\ y1 = y2) by lia.
  all: destruct Hera as [-> ->]; lia.
Qed.

Lemma hour_range (t : Calendar.Timestamp) : 0 <= Calendar.hour t <= 23.
Proof. unfold Calendar.hour. Z.div_mod_to_equations. lia. Qed.

Lemma window_split (t : Calendar.Timestamp) :
  window t = 2 * (t / 86400) + Calendar.hour t / 12.
Proof. unfold window, Calendar.hour. Z.div_mod_to_equations. lia. Qed.

Lemma half_day_window_difference (t1 t2 : Calendar.Timestamp) :
  Calendar.year t1 = Calendar.year t2 ->
  Calendar.month t1 = Calendar.month t2 ->
  Viirs.half_day_of t1 - Viirs.half_day_of t2 = window t1 - window t2.
Proof.
  unfold Calendar.year, Calendar.month, Calendar.date_of. intros Hy Hm.
  assert (Hfst : fst (Calendar.civil_from_days (t1 / 86400))
                 = fst (Calendar.civil_from_days (t2 / 86400))).
  { destruct (fst (Calendar.civil_from_days (t1 / 86400))),
             (fst (Calendar.civil_from_days (t2 / 86400)));
      simpl in *; congruence. }
  pose proof (civil_same_month _ _ Hfst) as Hd.
  rewrite !window_split. unfold Viirs.half_day_of, Calendar.day, Calendar.date_of.
  lia.
Qed.

End CalendarFacts.

(** C5, as the index has it.  Every detection carries the index
    2 x day-of-month + (1 if hour >= 12 else 0) of its observation time.
    For two observation times in the same month of the same year, the index
    is smaller exactly when the half-day window is earlier, and equal
    exactly when the window is the same. *)
Theorem half_day_orders_within_a_month (t1 t2 : Calendar.Timestamp) :
  Calendar.year t1 = Calendar.year t2 ->
  Calendar.month t1 = Calendar.month t2 ->
  (forall gdf g r,
      Viirs.add_viirs_obstime gdf = Ok g -> In r (Viirs.rows g) ->
      Viirs.half_day r = Viirs.half_day_of (Viirs.observation_time r))
  /\ Viirs.half_day_of t1
     = (2 * Calendar.day t1 + (if 12 <=? Calendar.hour t1 then 1 else 0))%Z
  /\ ((Viirs.half_day_of t1 < Viirs.half_day_of t2)%Z <-> (window t1 < window t2)%Z)
  /\ (Viirs.half_day_of t1 = Viirs.half_day_of t2 <-> window t1 = window t2).
Proof.
  intros Hy Hm.
  pose proof (half_day_window_difference t1 t2 Hy Hm) as Hd.
  split; [|split; [|split]].
  - intros gdf g r Hadd Hr. unfold Viirs.add_viirs_obstime in Hadd.
    destruct (Viirs.apply_combine (Viirs.rows gdf)) as [timed|e];
      simpl in Hadd; [|discriminate].
    inversion Hadd; subst. simpl in Hr. apply in_map_iff in Hr.
    destruct Hr as [rt [<- _]]. reflexivity.
  - unfold Viirs.half_day_of. pose proof (hour_range t1) as Hh.
    destruct (12 <=? Calendar.hour t1)%Z eqn:E.
    + apply Z.leb_le in E.
      assert (Calendar.hour t1 / 12 = 1)%Z by (Z.div_mod_to_equations; lia).
      lia.
    + apply Z.leb_gt in E.
      assert (Calendar.hour t1 / 12 = 0)%Z by (Z.div_mod_to_equations; lia).
      lia.
  - lia.
  - lia.
Qed.

(** The statement of the amended C5 for the morning and the evening of
    9 October 2017. *)
Lemma half_day_orders_within_a_month_witness :
  Calendar.year oct09_0954 = Calendar.year oct09_2106
  /\ Calendar.month oct09_0954 = Calendar.month oct09_2106
  /\ ((Viirs.half_day_of oct09_0954 < Viirs.half_day_of oct09_2106)%Z
      <-> (window oct09_0954 < window oct09_2106)%Z)
  /\ Viirs.half_day_of oct09_0954 = 18%Z
  /\ Viirs.half_day_of oct09_2106 = 19%Z.
Proof.
  assert (Hy : Calendar.year oct09_0954 = Calendar.year oct09_2106) by reflexivity.
  assert (Hm : Calendar.month oct09_0954 = Calendar.month oct09_2106)
    by reflexivity.
  split; [exact Hy|]. split; [exact Hm|].
  split; [|split; reflexivity].
  exact (proj1 (proj2 (proj2
           (half_day_orders_within_a_month oct09_0954 oct09_2106 Hy Hm)))).
Defined.

(** C5 as stated fails across the end of a month.  The early hours of
    1 November have index 2, below the index 63 of the afternoon of
    31 October, yet their window is the later one; and the mornings of
    9 October and 9 November share the index 18. *)
Lemma half_day_wraps_at_month_end :
  Viirs.half_day_of nov01_0100 = 2%Z
  /\ Viirs.half_day_of oct31_1300 = 63%Z
  /\ (Viirs.half_day_of nov01_0100 < Viirs.half_day_of oct31_1300)%Z
  /\ (window oct31_1300 < window nov01_0100)%Z
  /\ Viirs.half_day_of oct09_0954 = Viirs.half_day_of nov09_0954
  /\ window oct09_0954 <> window nov09_0954.
Proof.
  repeat split; vm_compute; congruence.
Qed.

(** ** The start time *)

Section StartTimeFacts.

Import Text.

(** Where the search reports a match, a zone token stands at that
    position, not preceded by a word character, and only white space
    follows it. *)
Lemma search_from_sound (l : list ascii) (prev_word : bool) (pos i : nat)
  (tok : tz_token) :
  search_from prev_word pos l = Some (i, tok) ->
  exists pre rest,
    i = (pos + length pre)%nat
    /\ firstn (i - pos) l = pre
    /\ token_at (skipn (i - pos) l) = Some (tok, rest)
    /\ forallb isspace rest = true.
Proof.
  revert prev_word pos. induction l as [|c l IH]; intros prev_word pos.
  - unfold search_from, match_here. simpl token_at.
    destruct prev_word; discriminate.
  - simpl search_from. destruct (match_here prev_word (c :: l)) as [tok'|] eqn:Em.
    + intro Heq. inversion Heq; subst. exists [].
      unfold match_here in Em. destruct prev_word; [discriminate|].
      destruct (token_at (c :: l)) as [[tok'' rest]|] eqn:Et; [|discriminate].
      destruct (forallb isspace rest) eqn:Es; [|discriminate].
      inversion Em; subst. exists rest.
      rewrite Nat.sub_diag. simpl firstn. simpl skipn.
      repeat split; auto; simpl; lia.
    + intro Heq. apply IH in Heq.
      destruct Heq as [pre [rest [Hi [Hpre [Htok Hsp]]]]].
      exists (c :: pre), rest.
      assert (Hsub : (i - pos = S (i - S pos))%nat) by lia.
      rewrite Hsub. simpl firstn. simpl skipn. rewrite Hpre.
      repeat split; auto; simpl; lia.
Qed.

End StartTimeFacts.

(** C4, as the parser has it.  The scenario string
    "2020-01-01, 09:00 PDT" gives 2020-01-01T17:00:00Z: the token PDT
    selects the zone America/Los_Angeles, which is eight hours behind UTC
    on that date.  In general, when the cleaned string ends in a zone token
    (only white space after it, no word character before it), the text
    before the token is parsed as a naive time, read in the zone the token
    maps to, and moved to UTC by the offset that zone has at that time. *)
Theorem start_time_localized_in_token_zone :
  StartTime._parse_start_to_utc StartTime.to_datetime_iso scenario_start
  = Ok (Calendar.of_fields 2020 1 1 17 0 0)
  /\ forall (to_datetime : list ascii -> result Calendar.Timestamp)
            (str : string) (i : nat) (tok : Text.tz_token)
            (naive : Calendar.Timestamp) (off : Z),
      let s := Text.strip (Text.replace_comma (list_ascii_of_string str)) in
      Text.search_tz s = Some (i, tok) ->
      to_datetime (Text.strip (firstn i s)) = Ok naive ->
      Zone.classify (StartTime.tz_map tok) naive = Zone.Unique off ->
      (exists rest, Text.token_at (skipn i s) = Some (tok, rest)
                    /\ forallb Text.isspace rest = true)
      /\ StartTime._parse_start_to_utc to_datetime (StartTime.Str str)
         = Ok (naive - off)%Z.
Proof.
  split; [reflexivity|].
  intros to_datetime str i tok naive off s Hsearch Hparse Hzone. split.
  - unfold Text.search_tz in Hsearch. apply search_from_sound in Hsearch.
    destruct Hsearch as [pre [rest [_ [_ [Htok Hsp]]]]].
    rewrite Nat.sub_0_r in Htok. eauto.
  - unfold StartTime._parse_start_to_utc. fold s. rewrite Hsearch.
    rewrite Hparse. simpl bind. unfold Zone.localize_to_utc.
    rewrite Hzone. reflexivity.
Qed.

(** The general half of the amended C4 on the start time of the Tubbs
    case, "2017-10-08, 21:45 PST": the zone is on daylight time that day,
    seven hours behind UTC, whatever the token says. *)
Lemma start_time_localized_in_token_zone_witness :
  let s := Text.strip (Text.replace_comma
                         (list_ascii_of_string "2017-10-08, 21:45 PST"%string)) in
  Text.search_tz s = Some (18%nat, Text.PST)
  /\ StartTime.to_datetime_iso (Text.strip (firstn 18 s))
     = Ok (Calendar.of_fields 2017 10 8 21 45 0)
  /\ Zone.classify (StartTime.tz_map Text.PST)
       (Calendar.of_fields 2017 10 8 21 45 0) = Zone.Unique (-7 * 3600)
  /\ StartTime._parse_start_to_utc StartTime.to_datetime_iso tubbs_start
     = Ok (Calendar.of_fields 2017 10 8 21 45 0 - -7 * 3600)%Z.
Proof.
  intro s.
  assert (H1 : Text.search_tz s = Some (18%nat, Text.PST)) by reflexivity.
  assert (H2 : StartTime.to_datetime_iso (Text.strip (firstn 18 s))
               = Ok (Calendar.of_fields 2017 10 8 21 45 0)) by reflexivity.
  assert (H3 : Zone.classify (StartTime.tz_map Text.PST)
                 (Calendar.of_fields 2017 10 8 21 45 0)
               = Zone.Unique (-7 * 3600)) by reflexivity.
  split; [exact H1|]. split; [exact H2|]. split; [exact H3|].
  exact (proj2 (proj2 start_time_localized_in_token_zone
                  StartTime.to_datetime_iso "2017-10-08, 21:45 PST"%string
                  18%nat Text.PST (Calendar.of_fields 2017 10 8 21 45 0)
                  (-7 * 3600)%Z H1 H2 H3)).
Defined.

(** C4 as stated fails: the scenario string does not give
    2020-01-01T16:00:00Z; the result is one hour later. *)
Lemma scenario_start_is_not_1600Z :
  StartTime._parse_start_to_utc StartTime.to_datetime_iso scenario_start
  <> Ok (Calendar.of_fields 2020 1 1 16 0 0)
  /\ StartTime._parse_start_to_utc StartTime.to_datetime_iso scenario_start
     = Ok (Calendar.of_fields 2020 1 1 16 0 0 + 3600)%Z.
Proof.
  split; [|reflexivity]. vm_compute. discriminate.
Qed.

(* ================================================================== *)
(** * Further properties of the helpers *)

(** ** The loop over the half-days *)

Section SortFacts.

Variable A : Type.
Variable leb : A -> A -> bool.

Lemma insert_by_In (x y : A) (l : list A) :
  In y (Viirs.insert_by leb x l) <-> y = x \/ In y l.
Proof.
  induction l as [|z l IH]; simpl.
  - intuition.
  - destruct (leb x z); simpl; [intuition|]. rewrite IH. intuition.
Qed.

Lemma sort_by_In (y : A) (l : list A) : In y (Viirs.sort_by leb l) <-> In y l.
Proof.
  induction l as [|x l IH]; simpl; [tauto|].
  rewrite insert_by_In, IH. intuition.
Qed.

Lemma insert_by_length (x : A) (l : list A) :
  length (Viirs.insert_by leb x l) = S (length l).
Proof.
  induction l as [|z l IH]; simpl; [reflexivity|].
  destruct (leb x z); simpl; congruence.
Qed.

Lemma sort_by_length (l : list A) : length (Viirs.sort_by leb l) = length l.
Proof.
  induction l as [|x l IH]; simpl; [reflexivity|].
  rewrite insert_by_length. congruence.
Qed.

Lemma insert_by_perm (x : A) (l : list A) :
  Permutation (x :: l) (Viirs.insert_by leb x l).
Proof.
  induction l as [|z l IH]; simpl; [apply Permutation_refl|].
  destruct (leb x z); [apply Permutation_refl|].
  eapply Permutation_trans; [apply perm_swap|]. apply perm_skip. exact IH.
Qed.

Lemma sort_by_perm (l : list A) : Permutation l (Viirs.sort_by leb l).
Proof.
  induction l as [|x l IH]; simpl; [constructor|].
  eapply Permutation_trans; [apply perm_skip; exact IH|]. apply insert_by_perm.
Qed.

(** With a total and transitive comparison the result is sorted. *)
Hypothesis leb_total : forall a b, leb a b = true \/ leb b a = true.
Hypothesis leb_trans : forall a b c, leb a b = true -> leb b c = true -> leb a c = true.

Lemma insert_by_sorted (x : A) (l : list A) :
  StronglySorted (fun a b => leb a b = true) l ->
  StronglySorted (fun a b => leb a b = true) (Viirs.insert_by leb x l).
Proof.
  induction 1 as [|z l Hs IH Hall]; simpl.
  - constructor; constructor.
  - destruct (leb x z) eqn:E.
    + constructor; [constructor; assumption|].
      constructor; [exact E|].
      eapply Forall_impl; [|exact Hall]. intros a Ha. eapply leb_trans; eauto.
    + constructor; [exact IH|]. apply Forall_forall. intros a Ha.
      apply insert_by_In in Ha. destruct Ha as [-> | Ha].
      * destruct (leb_total x z) as [Hx | Hz]; congruence.
      * rewrite Forall_forall in Hall. auto.
Qed.

Lemma sort_by_sorted (l : list A) :
  StronglySorted (fun a b => leb a b = true) (Viirs.sort_by leb l).
Proof.
  induction l as [|x l IH]; simpl; [constructor|].
  apply insert_by_sorted. exact IH.
Qed.

End SortFacts.

Section HullLoop.

Context {P : Geo.Projection} {H : Geo.Hulls}.

Variable ratio : Q.
Variable allow_holes : bool.
Variable eps : Q.

Let steps := Viirs.steps ratio allow_holes eps.

Lemma steps_half_days (g : list Viirs.located) (hds : list Z)
  (acc : list Geo.point) :
  List.map Viirs.st_half_day (steps g hds acc) = hds.
Proof.
  revert acc. induction hds as [|hd tl IH]; intro acc; simpl; [reflexivity|].
  f_equal. apply IH.
Qed.

Lemma steps_In_half_day (g : list Viirs.located) (hds : list Z)
  (acc : list Geo.point) (s : Viirs.step) :
  In s (steps g hds acc) -> In (Viirs.st_half_day s) hds.
Proof.
  intro Hin. rewrite <- (steps_half_days g hds acc).
  apply in_map. exact Hin.
Qed.

(** What a turn of the loop has accumulated: what was there before the
    loop, and the points of the cohorts up to its own. *)
Lemma steps_points (g : list Viirs.located) (hds : list Z)
  (acc : list Geo.point) (s : Viirs.step) (p : Geo.point) :
  StronglySorted Z.lt hds ->
  In s (steps g hds acc) ->
  (In p (Viirs.st_cum_points s) <->
   In p acc
   \/ exists r, In r g /\ Viirs.loc_point r = p
                /\ In (Viirs.loc_half_day r) hds
                /\ (Viirs.loc_half_day r <= Viirs.st_half_day s)%Z).
Proof.
  revert acc. induction hds as [|hd tl IH]; intros acc Hs Hin; [contradiction|].
  inversion Hs as [|? ? Hs' Hall]; subst. rewrite Forall_forall in Hall.
  assert (Hcohort : forall q,
             In q (List.map Viirs.loc_point
                     (filter (fun r => (Viirs.loc_half_day r =? hd)%Z) g))
             <-> exists r, In r g /\ Viirs.loc_point r = q
                           /\ Viirs.loc_half_day r = hd).
  { intro q. rewrite in_map_iff. split.
    - intros [r [Hq Hr]]. apply filter_In in Hr. destruct Hr as [Hr Hh].
      apply Z.eqb_eq in Hh. eauto.
    - intros [r [Hr [Hq Hh]]]. exists r. split; [exact Hq|].
      apply filter_In. split; [exact Hr | apply Z.eqb_eq; exact Hh]. }
  simpl in Hin. destruct Hin as [<- | Hin].
  - simpl. rewrite in_app_iff, Hcohort. split.
    + intros [Ha | [r [Hr [Hq Hh]]]]; [left; exact Ha|].
      right. exists r. repeat split; auto; try solve [left; congruence]; try lia.
    + intros [Ha | [r [Hr [Hq [[Hh | Hh] Hle]]]]]; [left; exact Ha | |].
      * right. exists r. auto.
      * specialize (Hall _ Hh). lia.
  - pose proof (steps_In_half_day _ _ _ _ Hin) as Hmem.
    specialize (Hall _ Hmem).
    rewrite (IH _ Hs' Hin), in_app_iff, Hcohort. split.
    + intros [[Ha | [r [Hr [Hq Hh]]]] | [r [Hr [Hq [Hh Hle]]]]].
      * left. exact Ha.
      * right. exists r. repeat split; auto; try solve [left; congruence]; try lia.
      * right. exists r. repeat split; auto. right. exact Hh.
    + intros [Ha | [r [Hr [Hq [[Hh | Hh] Hle]]]]].
      * left. left. exact Ha.
      * left. right. exists r. auto.
      * right. exists r. auto.
Qed.

(** The key of a turn is the latest observation time of its cohort. *)
Lemma series_max_spec (l : list Z) :
  l <> [] ->
  In (Viirs.series_max l) l /\ Forall (fun t => (t <= Viirs.series_max l)%Z) l.
Proof.
  destruct l as [|x tl]; [congruence|]. intros _. simpl.
  assert (Hgen : forall tl x,
             (fold_left Z.max tl x = x \/ In (fold_left Z.max tl x) tl)
             /\ (x <= fold_left Z.max tl x)%Z
             /\ Forall (fun t => (t <= fold_left Z.max tl x)%Z) tl).
  { clear. induction tl as [|y tl IH]; intro x; simpl.
    - repeat split; auto. lia.
    - destruct (IH (Z.max x y)) as [Hin [Hle Hall]]. repeat split.
      + destruct Hin as [Heq | Hin]; [|auto]. rewrite Heq.
        destruct (Z.max_spec x y) as [[_ ->] | [_ ->]]; auto.
      + lia.
      + constructor; [lia | exact Hall]. }
  destruct (Hgen tl x) as [Hin [Hle Hall]]. split.
  - destruct Hin as [-> | Hin]; auto.
  - constructor; assumption.
Qed.

Lemma steps_key (g : list Viirs.located) (hds : list Z)
  (acc : list Geo.point) (s : Viirs.step) :
  (forall hd, In hd hds -> exists r, In r g /\ Viirs.loc_half_day r = hd) ->
  In s (steps g hds acc) ->
  (exists r, In r g /\ Viirs.loc_half_day r = Viirs.st_half_day s
             /\ Viirs.loc_time r = Viirs.st_key s)
  /\ (forall r, In r g -> Viirs.loc_half_day r = Viirs.st_half_day s ->
                (Viirs.loc_time r <= Viirs.st_key s)%Z).
Proof.
  revert acc. induction hds as [|hd tl IH]; intros acc Hocc Hin; [contradiction|].
  simpl in Hin. destruct Hin as [<- | Hin].
  - simpl.
    set (cohort := filter (fun r => (Viirs.loc_half_day r =? hd)%Z) g).
    assert (Hne : List.map Viirs.loc_time cohort <> []).
    { destruct (Hocc hd (or_introl eq_refl)) as [r [Hr Hh]].
      intro Hnil. apply map_eq_nil in Hnil.
      assert (Hc : In r cohort).
      { apply filter_In. split; [exact Hr | apply Z.eqb_eq; exact Hh]. }
      rewrite Hnil in Hc. exact Hc. }
    destruct (series_max_spec _ Hne) as [Hmem Hmax]. split.
    + apply in_map_iff in Hmem. destruct Hmem as [r [Ht Hr]].
      apply filter_In in Hr. destruct Hr as [Hr Hh]. apply Z.eqb_eq in Hh.
      exists r. auto.
    + intros r Hr Hh. rewrite Forall_forall in Hmax. apply Hmax.
      apply in_map. apply filter_In. split; [exact Hr | apply Z.eqb_eq; exact Hh].
  - apply (IH (acc ++ List.map Viirs.loc_point
                        (filter (fun r => (Viirs.loc_half_day r =? hd)%Z) g))).
    + intros hd' Hhd'. apply Hocc. right. exact Hhd'.
    + exact Hin.
Qed.

End HullLoop.

Section PreparedRows.

Context {P : Geo.Projection}.

Lemma dropna_In (l : list Viirs.obs_row) (r : Viirs.located) :
  In r (Viirs.dropna l) <->
  exists row p, In row l /\ Viirs.geom (Viirs.base row) = Viirs.At p
                /\ r = Viirs.mk_located (Viirs.observation_time row)
                         (Viirs.half_day row) p.
Proof.
  unfold Viirs.dropna. rewrite in_flat_map. split.
  - intros [row [Hrow Hr]].
    destruct (Viirs.geom (Viirs.base row)) as [| |p] eqn:Eg; try contradiction.
    destruct Hr as [<- | []]. exists row, p. auto.
  - intros [row [p [Hrow [Hg ->]]]]. exists row. split; [exact Hrow|].
    rewrite Hg. left. reflexivity.
Qed.

(** The rows the loop runs over are the detections that have a point, with
    their observation time and half-day unchanged. *)
Lemma prepared_In_row (gdf : Viirs.frame Viirs.obs_row) (r : Viirs.located) :
  In r (Viirs.prepared gdf) ->
  exists row, In row (Viirs.rows gdf)
              /\ Viirs.has_geometry (Viirs.geom (Viirs.base row)) = true
              /\ Viirs.loc_time r = Viirs.observation_time row
              /\ Viirs.loc_half_day r = Viirs.half_day row.
Proof.
  unfold Viirs.prepared. intro Hin. apply sort_by_In in Hin.
  assert (Hdrop : forall r0, In r0 (Viirs.dropna (Viirs.rows gdf)) ->
            exists row, In row (Viirs.rows gdf)
                        /\ Viirs.has_geometry (Viirs.geom (Viirs.base row)) = true
                        /\ Viirs.loc_time r0 = Viirs.observation_time row
                        /\ Viirs.loc_half_day r0 = Viirs.half_day row).
  { intros r0 Hr0. apply dropna_In in Hr0.
    destruct Hr0 as [row [p [Hrow [Hg ->]]]]. exists row.
    rewrite Hg. simpl. auto. }
  destruct (Viirs.crs gdf) as [c|]; [|auto].
  destruct (c =? 4326)%nat; [auto|].
  apply in_map_iff in Hin. destruct Hin as [r0 [<- Hr0]]. simpl. auto.
Qed.

Lemma row_In_prepared (gdf : Viirs.frame Viirs.obs_row) (row : Viirs.obs_row) :
  In row (Viirs.rows gdf) ->
  Viirs.has_geometry (Viirs.geom (Viirs.base row)) = true ->
  exists r, In r (Viirs.prepared gdf)
            /\ Viirs.loc_time r = Viirs.observation_time row
            /\ Viirs.loc_half_day r = Viirs.half_day row.
Proof.
  intros Hrow Hg.
  destruct (Viirs.geom (Viirs.base row)) as [| |p] eqn:Eg; try discriminate.
  assert (Hdrop : In (Viirs.mk_located (Viirs.observation_time row)
                        (Viirs.half_day row) p)
                    (Viirs.dropna (Viirs.rows gdf))).
  { apply dropna_In. exists row, p. auto. }
  unfold Viirs.prepared.
  destruct (Viirs.crs gdf) as [c|].
  - destruct (c =? 4326)%nat.
    + eexists. split; [apply sort_by_In; exact Hdrop|]. simpl. auto.
    + eexists. split.
      * apply sort_by_In. apply in_map_iff. eexists. split; [reflexivity|].
        exact Hdrop.
      * simpl. auto.
  - eexists. split; [apply sort_by_In; exact Hdrop|]. simpl. auto.
Qed.

End PreparedRows.

(** X1. The loop takes one turn per half-day that occurs among the
    detections with a point geometry, in strictly increasing order of the
    half-day. *)
Theorem hull_steps_one_per_cohort
  {P : Geo.Projection} {H : Geo.Hulls}
  (ratio : Q) (allow_holes : bool) (eps : Q)
  (gdf : Viirs.frame Viirs.obs_row) :
  StronglySorted Z.lt
    (List.map Viirs.st_half_day (Viirs.hull_steps ratio allow_holes eps gdf))
  /\ forall k,
      In k (List.map Viirs.st_half_day
              (Viirs.hull_steps ratio allow_holes eps gdf))
      <-> exists row, In row (Viirs.rows gdf)
                      /\ Viirs.has_geometry (Viirs.geom (Viirs.base row)) = true
                      /\ Viirs.half_day row = k.
Proof.
  unfold Viirs.hull_steps. rewrite steps_half_days. split.
  - apply sorted_unique_sorted.
  - intro k. rewrite sorted_unique_In, in_map_iff. split.
    + intros [r [Hk Hr]]. apply prepared_In_row in Hr.
      destruct Hr as [row [Hrow [Hg [_ Hh]]]]. exists row.
      repeat split; auto. congruence.
    + intros [row [Hrow [Hg Hk]]].
      destruct (row_In_prepared gdf row Hrow Hg) as [r [Hr [_ Hh]]].
      exists r. split; [congruence | exact Hr].
Qed.

(** X2. The hull of half-day k is built from exactly the points of the
    detections whose half-day is at most k. *)
Theorem hull_uses_points_up_to_cohort
  {P : Geo.Projection} {H : Geo.Hulls}
  (ratio : Q) (allow_holes : bool) (eps : Q)
  (gdf : Viirs.frame Viirs.obs_row) (s : Viirs.step) (p : Geo.point) :
  In s (Viirs.hull_steps ratio allow_holes eps gdf) ->
  Viirs.st_hull s = Viirs.hull_of ratio allow_holes eps (Viirs.st_cum_points s)
  /\ (In p (Viirs.st_cum_points s) <->
      exists r, In r (Viirs.prepared gdf)
                /\ Viirs.loc_point r = p
                /\ (Viirs.loc_half_day r <= Viirs.st_half_day s)%Z).
Proof.
  intro Hin. split; [eapply steps_hull; exact Hin|].
  unfold Viirs.hull_steps in Hin.
  rewrite (steps_points ratio allow_holes eps _ _ _ _ p
             (sorted_unique_sorted _) Hin).
  split.
  - intros [[] | [r [Hr [Hp [_ Hle]]]]]. eauto.
  - intros [r [Hr [Hp Hle]]]. right. exists r. repeat split; auto.
    apply sorted_unique_In. apply in_map. exact Hr.
Qed.

(** X3. Each hull is keyed by the latest observation time among the
    detections of its own half-day. *)
Theorem hull_key_is_latest_of_cohort
  {P : Geo.Projection} {H : Geo.Hulls}
  (ratio : Q) (allow_holes : bool) (eps : Q)
  (gdf : Viirs.frame Viirs.obs_row) (s : Viirs.step) :
  In s (Viirs.hull_steps ratio allow_holes eps gdf) ->
  (exists row, In row (Viirs.rows gdf)
               /\ Viirs.has_geometry (Viirs.geom (Viirs.base row)) = true
               /\ Viirs.half_day row = Viirs.st_half_day s
               /\ Viirs.observation_time row = Viirs.st_key s)
  /\ (forall row, In row (Viirs.rows gdf) ->
                  Viirs.has_geometry (Viirs.geom (Viirs.base row)) = true ->
                  Viirs.half_day row = Viirs.st_half_day s ->
                  (Viirs.observation_time row <= Viirs.st_key s)%Z).
Proof.
  intro Hin. unfold Viirs.hull_steps in Hin.
  assert (Hocc : forall hd,
             In hd (Dict.sorted_unique
                      (List.map Viirs.loc_half_day (Viirs.prepared gdf))) ->
             exists r, In r (Viirs.prepared gdf) /\ Viirs.loc_half_day r = hd).
  { intros hd Hhd. apply (proj1 (sorted_unique_In _ _)) in Hhd.
    apply in_map_iff in Hhd. destruct Hhd as [r [Hh Hr]]. eauto. }
  destruct (steps_key ratio allow_holes eps _ _ _ s Hocc Hin)
    as [[r [Hr [Hh Ht]]] Hmax].
  split.
  - apply prepared_In_row in Hr. destruct Hr as [row [Hrow [Hg [Ht' Hh']]]].
    exists row. repeat split; auto; congruence.
  - intros row Hrow Hg Hh'.
    destruct (row_In_prepared gdf row Hrow Hg) as [r' [Hr' [Ht' Hh'']]].
    rewrite <- Ht'. apply Hmax; [exact Hr' | congruence].
Qed.

(** ** Observation times *)

Section ObstimeFacts.

Lemma apply_combine_spec (l : list Viirs.row)
  (timed : list (Viirs.row * Calendar.Timestamp)) :
  Viirs.apply_combine l = Ok timed ->
  List.map fst timed = l
  /\ Forall (fun rt => Viirs.combine (fst rt) = Ok (snd rt)) timed.
Proof.
  revert timed. induction l as [|r l IH]; intros timed; simpl.
  - intro Heq. inversion Heq. split; [reflexivity | constructor].
  - destruct (Viirs.combine r) as [t|e] eqn:Ec; simpl; [|discriminate].
    destruct (Viirs.apply_combine l) as [ts|e] eqn:Ea; simpl; [|discriminate].
    intro Heq. inversion Heq; subst. destruct (IH ts eq_refl) as [Hm Hall].
    split; [simpl; congruence | constructor; assumption].
Qed.

Lemma add_viirs_obstime_rows (gdf : Viirs.frame Viirs.row)
  (g : Viirs.frame Viirs.obs_row) :
  Viirs.add_viirs_obstime gdf = Ok g ->
  exists timed,
    Viirs.apply_combine (Viirs.rows gdf) = Ok timed
    /\ Viirs.crs g = Viirs.crs gdf
    /\ Viirs.rows g
       = List.map (fun rt => Viirs.mk_obs_row (fst rt) (snd rt)
                               (Viirs.half_day_of (snd rt)))
           (Viirs.sort_by (fun a b => (snd a <=? snd b)%Z) timed).
Proof.
  unfold Viirs.add_viirs_obstime.
  destruct (Viirs.apply_combine (Viirs.rows gdf)) as [timed|e]; simpl;
    [|discriminate].
  intro Heq. inversion Heq. exists timed. auto.
Qed.

Lemma add_viirs_obstime_half_day (gdf : Viirs.frame Viirs.row)
  (g : Viirs.frame Viirs.obs_row) (r : Viirs.obs_row) :
  Viirs.add_viirs_obstime gdf = Ok g -> In r (Viirs.rows g) ->
  Viirs.half_day r = Viirs.half_day_of (Viirs.observation_time r).
Proof.
  intros Hadd Hr. destruct (add_viirs_obstime_rows _ _ Hadd) as [timed [_ [_ Hrows]]].
  rewrite Hrows in Hr. apply in_map_iff in Hr. destruct Hr as [rt [<- _]].
  reflexivity.
Qed.

End ObstimeFacts.

(** X4. [add_viirs_obstime] keeps every detection, orders the rows by
    observation time, and gives each row the observation time that
    [combine] computes for it and the half-day index of that time. *)
Theorem obstime_sorts_and_keeps_rows
  (gdf : Viirs.frame Viirs.row) (g : Viirs.frame Viirs.obs_row) :
  Viirs.add_viirs_obstime gdf = Ok g ->
  Permutation (List.map Viirs.base (Viirs.rows g)) (Viirs.rows gdf)
  /\ StronglySorted Z.le (List.map Viirs.observation_time (Viirs.rows g))
  /\ Viirs.crs g = Viirs.crs gdf
  /\ forall r, In r (Viirs.rows g) ->
               Viirs.combine (Viirs.base r) = Ok (Viirs.observation_time r)
               /\ Viirs.half_day r
                  = Viirs.half_day_of (Viirs.observation_time r).
Proof.
  intro Hadd.
  destruct (add_viirs_obstime_rows _ _ Hadd) as [timed [Hc [Hcrs Hrows]]].
  destruct (apply_combine_spec _ _ Hc) as [Hfst Hall].
  set (leb := fun a b : Viirs.row * Calendar.Timestamp => (snd a <=? snd b)%Z) in *.
  split; [|split; [|split; [exact Hcrs|]]].
  - rewrite Hrows, map_map. simpl.
    rewrite <- Hfst. apply Permutation_map. apply Permutation_sym.
    apply sort_by_perm.
  - rewrite Hrows, map_map. simpl.
    apply (sorted_map (fun a b => leb a b = true) Z.le snd).
    + intros a b Hab. apply Z.leb_le. exact Hab.
    + apply sort_by_sorted.
      * intros a b. unfold leb.
        destruct (Z.leb_spec (snd a) (snd b)); [left; reflexivity|].
        right. apply Z.leb_le. lia.
      * intros a b c Hab Hbc. unfold leb in *.
        apply Z.leb_le in Hab, Hbc. apply Z.leb_le. lia.
  - intros r Hr. split; [|eapply add_viirs_obstime_half_day; eauto].
    rewrite Hrows in Hr. apply in_map_iff in Hr. destruct Hr as [rt [<- Hrt]].
    simpl. apply sort_by_In in Hrt. rewrite Forall_forall in Hall.
    apply Hall. exact Hrt.
Qed.

(** The statement of X4 on the detections of 9 October. *)
Lemma obstime_sorts_and_keeps_rows_witness :
  Viirs.add_viirs_obstime thin_detections = Ok (with_obstime thin_detections)
  /\ Permutation (List.map Viirs.base (Viirs.rows (with_obstime thin_detections)))
       (Viirs.rows thin_detections)
  /\ StronglySorted Z.le
       (List.map Viirs.observation_time (Viirs.rows (with_obstime thin_detections))).
Proof.
  assert (Hadd : Viirs.add_viirs_obstime thin_detections
                 = Ok (with_obstime thin_detections)) by reflexivity.
  split; [exact Hadd|].
  destruct (obstime_sorts_and_keeps_rows _ _ Hadd) as [Hperm [Hsorted _]].
  split; [exact Hperm | exact Hsorted].
Defined.

Section IntFacts.

Lemma digit_not_space (c : ascii) : Text.isdigit c = true -> Text.isspace c = false.
Proof.
  unfold Text.isdigit, Text.isspace, Text.between.
  intro H. apply andb_true_iff in H. destruct H as [H1 H2].
  apply Nat.leb_le in H1, H2.
  repeat rewrite orb_false_iff. repeat split.
  - apply andb_false_iff. right. apply Nat.leb_gt. lia.
  - apply andb_false_iff. right. apply Nat.leb_gt. lia.
  - apply Nat.eqb_neq. lia.
  - apply Nat.eqb_neq. lia.
Qed.

Lemma digit_code (c : ascii) :
  Text.isdigit c = true -> (48 <= Text.code c <= 57)%nat.
Proof.
  unfold Text.isdigit, Text.between. intro H. apply andb_true_iff in H.
  destruct H as [H1 H2]. apply Nat.leb_le in H1, H2. lia.
Qed.

(** [int] of two decimal digits. *)
Lemma int_two_digits (a b : ascii) :
  Text.isdigit a = true -> Text.isdigit b = true ->
  Text.int [a; b] = Ok (10 * digit_value a + digit_value b)%Z.
Proof.
  intros Ha Hb. pose proof (digit_code a Ha) as Hca.
  pose proof (digit_code b Hb) as Hcb.
  unfold Text.int, Text.strip. simpl.
  rewrite (digit_not_space a Ha). simpl.
  rewrite (digit_not_space b Hb). simpl.
  replace (Text.code a =? 45)%nat with false by (symmetry; apply Nat.eqb_neq; lia).
  replace (Text.code a =? 43)%nat with false by (symmetry; apply Nat.eqb_neq; lia).
  rewrite Ha.
  replace (Text.code b =? 95)%nat with false by (symmetry; apply Nat.eqb_neq; lia).
  rewrite Hb. unfold digit_value. f_equal; lia.
Qed.

Lemma int_empty : exists msg, Text.int [] = Raise (ValueError msg).
Proof. eexists. reflexivity. Qed.

End IntFacts.

(** X5. For a date at midnight and a time of day written as four digits
    HHMM with HH below 24 and MM below 60, [combine] gives the timestamp of
    that day whose hour is HH and whose minute is MM; its half-day index is
    that of the day, plus one from noon on. *)
Theorem combine_reads_hhmm
  (date : Calendar.Timestamp) (h1 h2 m1 m2 : ascii) (g : Viirs.geom_cell) :
  Text.isdigit h1 = true -> Text.isdigit h2 = true ->
  Text.isdigit m1 = true -> Text.isdigit m2 = true ->
  (10 * digit_value h1 + digit_value h2 < 24)%Z ->
  (10 * digit_value m1 + digit_value m2 < 60)%Z ->
  (date mod 86400 = 0)%Z ->
  exists t,
    Viirs.combine (Viirs.mk_row date (hhmm h1 h2 m1 m2) g) = Ok t
    /\ Calendar.hour t = (10 * digit_value h1 + digit_value h2)%Z
    /\ Calendar.minute t = (10 * digit_value m1 + digit_value m2)%Z
    /\ Calendar.date_of t = Calendar.date_of date
    /\ Viirs.half_day_of t
       = (2 * Calendar.day date
          + (if 12 <=? 10 * digit_value h1 + digit_value h2 then 1 else 0))%Z.
Proof.
  intros H1 H2 M1 M2 Hh Hm Hdate.
  set (hh := (10 * digit_value h1 + digit_value h2)%Z) in *.
  set (mm := (10 * digit_value m1 + digit_value m2)%Z) in *.
  assert (Hh0 : (0 <= hh)%Z) by (unfold hh, digit_value; lia).
  assert (Hm0 : (0 <= mm)%Z) by (unfold mm, digit_value; lia).
  exists (date + Calendar.timedelta hh mm)%Z.
  assert (Hc : Viirs.combine (Viirs.mk_row date (hhmm h1 h2 m1 m2) g)
               = Ok (date + Calendar.timedelta hh mm)%Z).
  { unfold Viirs.combine, hhmm. simpl.
    rewrite (int_two_digits h1 h2 H1 H2). simpl.
    rewrite (int_two_digits m1 m2 M1 M2). reflexivity. }
  assert (Hhour : Calendar.hour (date + Calendar.timedelta hh mm)%Z = hh).
  { unfold Calendar.hour, Calendar.timedelta. Z.div_mod_to_equations. lia. }
  assert (Hday : ((date + Calendar.timedelta hh mm) / 86400 = date / 86400)%Z).
  { unfold Calendar.timedelta. Z.div_mod_to_equations. lia. }
  split; [exact Hc|]. split; [exact Hhour|]. split; [|split].
  - unfold Calendar.minute, Calendar.timedelta. Z.div_mod_to_equations. lia.
  - unfold Calendar.date_of. rewrite Hday. reflexivity.
  - unfold Viirs.half_day_of. rewrite Hhour.
    unfold Calendar.day, Calendar.date_of. rewrite Hday.
    destruct (12 <=? hh)%Z eqn:E.
    + apply Z.leb_le in E. assert (hh / 12 = 1)%Z by (Z.div_mod_to_equations; lia).
      lia.
    + apply Z.leb_gt in E. assert (hh / 12 = 0)%Z by (Z.div_mod_to_equations; lia).
      lia.
Qed.

(** The statement of X5 for the pass of 21:06 on 9 October 2017. *)
Lemma combine_reads_hhmm_witness :
  (1507507200 mod 86400 = 0)%Z
  /\ exists t,
      Viirs.combine (Viirs.mk_row 1507507200%Z (hhmm "2" "1" "0" "6") Viirs.Missing)
      = Ok t
      /\ Calendar.hour t = 21%Z /\ Calendar.minute t = 6%Z
      /\ Calendar.date_of t = (2017, 10, 9)%Z
      /\ Viirs.half_day_of t = 19%Z.
Proof.
  assert (Hd : (1507507200 mod 86400 = 0)%Z) by reflexivity.
  split; [exact Hd|].
  destruct (combine_reads_hhmm 1507507200%Z "2" "1" "0" "6" Viirs.Missing
              eq_refl eq_refl eq_refl eq_refl eq_refl eq_refl Hd)
    as [t [Hc [Hh [Hm [Hdate Hhd]]]]].
  exists t. repeat split; assumption.
Defined.

(** X6. A detection whose time of day has at most two characters makes
    [combine] raise [ValueError] (there is nothing left to read the minutes
    from, if the hours could be read at all), and a frame holding such a
    detection makes [add_viirs_obstime] raise instead of returning rows. *)
Theorem obstime_raises_on_short_time
  (gdf : Viirs.frame Viirs.row) (r : Viirs.row) :
  In r (Viirs.rows gdf) ->
  (String.length (Viirs.ACQ_TIME r) <= 2)%nat ->
  (exists msg, Viirs.combine r = Raise (ValueError msg))
  /\ exists e, Viirs.add_viirs_obstime gdf = Raise e.
Proof.
  intros Hin Hlen.
  assert (Hc : exists msg, Viirs.combine r = Raise (ValueError msg)).
  { unfold Viirs.combine.
    assert (Hskip : skipn 2 (list_ascii_of_string (Viirs.ACQ_TIME r)) = []).
    { destruct (Viirs.ACQ_TIME r) as [|a [|b [|c tl]]]; simpl in *;
        try reflexivity. lia. }
    rewrite Hskip.
    destruct (Text.int (firstn 2 (list_ascii_of_string (Viirs.ACQ_TIME r))))
      as [hh|e] eqn:Eh; simpl.
    - eexists. reflexivity.
    - unfold Text.int in Eh.
      destruct (Text.strip _) as [|c tl]; [inversion Eh; eauto|].
      destruct (if (Text.code c =? 45)%nat then _ else _); inversion Eh; eauto. }
  split; [exact Hc|]. destruct Hc as [msg Hc].
  unfold Viirs.add_viirs_obstime.
  assert (Ha : exists e, Viirs.apply_combine (Viirs.rows gdf) = Raise e).
  { induction (Viirs.rows gdf) as [|x l IH]; [contradiction|]. simpl.
    destruct Hin as [-> | Hin].
    - rewrite Hc. simpl. eauto.
    - destruct (Viirs.combine x); simpl; [|eauto].
      destruct (IH Hin) as [e ->]. simpl. eauto. }
  destruct Ha as [e ->]. simpl. eauto.
Qed.

(** The statement of X6 on a frame whose only detection has the time
    "95". *)
Lemma obstime_raises_on_short_time_witness :
  exists e,
    Viirs.add_viirs_obstime
      (Viirs.mk_frame None [Viirs.mk_row 1507507200%Z "95" Viirs.Missing])
    = Raise e.
Proof.
  apply (proj2 (obstime_raises_on_short_time
                  (Viirs.mk_frame None
                     [Viirs.mk_row 1507507200%Z "95" Viirs.Missing])
                  (Viirs.mk_row 1507507200%Z "95" Viirs.Missing)
                  (or_introl eq_refl) (le_n 2))).
Defined.

(** ** The dictionary of hulls *)

Section DictFacts.

Variable V : Type.

Lemma dict_set_fresh (k : Z) (v : V) (d : Dict.dict V) :
  ~ In k (Dict.keys d) -> Dict.set k v d = d ++ [(k, v)].
Proof.
  induction d as [|[k' v'] d IH]; simpl; intro Hk; [reflexivity|].
  destruct (k =? k')%Z eqn:E.
  - apply Z.eqb_eq in E. exfalso. apply Hk. left. congruence.
  - f_equal. apply IH. intro Hin. apply Hk. right. exact Hin.
Qed.

Lemma dict_get_In (k : Z) (v : V) (d : Dict.dict V) :
  NoDup (Dict.keys d) -> In (k, v) d -> Dict.get k d = Some v.
Proof.
  induction d as [|[k' v'] d IH]; simpl; intros Hnd Hin; [contradiction|].
  inversion Hnd as [|? ? Hfresh Hnd']; subst.
  destruct Hin as [Heq | Hin].
  - inversion Heq; subst. rewrite Z.eqb_refl. reflexivity.
  - destruct (k =? k')%Z eqn:E.
    + apply Z.eqb_eq in E. subst. exfalso. apply Hfresh.
      unfold Dict.keys. apply in_map_iff. exists (k', v). auto.
    + apply IH; assumption.
Qed.

Lemma dict_get_None (k : Z) (d : Dict.dict V) :
  ~ In k (Dict.keys d) -> Dict.get k d = None.
Proof.
  induction d as [|[k' v'] d IH]; simpl; intro Hk; [reflexivity|].
  destruct (k =? k')%Z eqn:E.
  - apply Z.eqb_eq in E. exfalso. apply Hk. left. congruence.
  - apply IH. intro Hin. apply Hk. right. exact Hin.
Qed.

(** Writing entries with keys that are new and pairwise distinct appends
    them in order. *)
Lemma fold_set_fresh {S : Type} (key : S -> Z) (val : S -> V)
  (l : list S) (d : Dict.dict V) :
  NoDup (List.map key l) ->
  (forall s, In s l -> ~ In (key s) (Dict.keys d)) ->
  fold_left (fun hulls s => Dict.set (key s) (val s) hulls) l d
  = d ++ List.map (fun s => (key s, val s)) l.
Proof.
  revert d. induction l as [|s l IH]; intros d Hnd Hfresh; simpl.
  - rewrite app_nil_r. reflexivity.
  - inversion Hnd as [|? ? Hs Hnd']; subst.
    rewrite dict_set_fresh by (apply Hfresh; left; reflexivity).
    rewrite IH.
    + rewrite <- app_assoc. reflexivity.
    + exact Hnd'.
    + intros s' Hs' Hin. unfold Dict.keys in Hin. rewrite map_app in Hin.
      apply in_app_or in Hin. destruct Hin as [Hin | [Heq | []]].
      * apply (Hfresh s' (or_intror Hs')). exact Hin.
      * simpl in Heq. apply Hs. rewrite Heq. apply in_map. exact Hs'.
Qed.

End DictFacts.

Section SortedLists.

Lemma sorted_of_sorted (l : list Z) :
  StronglySorted Z.lt l -> Dict.sorted l = l.
Proof.
  induction 1 as [|x l Hs IH Hall]; simpl; [reflexivity|].
  rewrite IH. destruct l as [|y l]; [reflexivity|]. simpl.
  inversion Hall; subst. replace (x <=? y)%Z with true; [reflexivity|].
  symmetry. apply Z.leb_le. lia.
Qed.

Lemma sorted_lt_nodup (l : list Z) : StronglySorted Z.lt l -> NoDup l.
Proof.
  induction 1 as [|x l Hs IH Hall]; constructor; [|exact IH].
  intro Hin. rewrite Forall_forall in Hall. specialize (Hall _ Hin). lia.
Qed.

(** A sorted image under one function gives a sorted image under another
    when order passes from the first to the second. *)
Lemma sorted_transfer {S : Type} (f g : S -> Z) (l : list S) :
  (forall a b, In a l -> In b l -> (f a < f b)%Z -> (g a < g b)%Z) ->
  StronglySorted Z.lt (List.map f l) -> StronglySorted Z.lt (List.map g l).
Proof.
  induction l as [|x l IH]; intros Hfg Hs; simpl; [constructor|].
  simpl in Hs. inversion Hs as [|? ? Hs' Hall]; subst. constructor.
  - apply IH; [|exact Hs']. intros a b Ha Hb. apply Hfg; right; assumption.
  - apply Forall_forall. intros t Ht. apply in_map_iff in Ht.
    destruct Ht as [b [<- Hb]]. apply Hfg; [left; reflexivity | right; exact Hb|].
    rewrite Forall_forall in Hall. apply Hall. apply in_map. exact Hb.
Qed.

End SortedLists.

(** The key of a turn is the observation time of a detection of its
    half-day. *)
Lemma step_key_row
  {P : Geo.Projection} {H : Geo.Hulls}
  (ratio : Q) (allow_holes : bool) (eps : Q)
  (gdf : Viirs.frame Viirs.obs_row) (s : Viirs.step) :
  In s (Viirs.hull_steps ratio allow_holes eps gdf) ->
  exists row, In row (Viirs.rows gdf)
              /\ Viirs.half_day row = Viirs.st_half_day s
              /\ Viirs.observation_time row = Viirs.st_key s.
Proof.
  intro Hin. unfold Viirs.hull_steps in Hin.
  assert (Hocc : forall hd,
             In hd (Dict.sorted_unique
                      (List.map Viirs.loc_half_day (Viirs.prepared gdf))) ->
             exists r, In r (Viirs.prepared gdf) /\ Viirs.loc_half_day r = hd).
  { intros hd Hhd. apply (proj1 (sorted_unique_In _ _)) in Hhd.
    apply in_map_iff in Hhd. destruct Hhd as [r [Hh Hr]]. eauto. }
  destruct (steps_key ratio allow_holes eps _ _ _ s Hocc Hin)
    as [[r [Hr [Hh Ht]]] _].
  apply prepared_In_row in Hr. destruct Hr as [row [Hrow [_ [Ht' Hh']]]].
  exists row. repeat split; auto; congruence.
Qed.

(** The dictionary written by the loop, on a frame whose half-days are
    those of the observation times. *)
Lemma hull_dictionary_entries
  {P : Geo.Projection} {H : Geo.Hulls}
  (ratio : Q) (allow_holes : bool) (eps : Q)
  (raw : Viirs.frame Viirs.row) (gdf : Viirs.frame Viirs.obs_row) :
  Viirs.add_viirs_obstime raw = Ok gdf ->
  Viirs.viirs_concave_hulls_by_halfday ratio allow_holes eps gdf
  = List.map (fun s => (Viirs.st_key s, Viirs.st_hull s))
      (Viirs.hull_steps ratio allow_holes eps gdf)
  /\ NoDup (Dict.keys
              (Viirs.viirs_concave_hulls_by_halfday ratio allow_holes eps gdf))
  /\ forall s, In s (Viirs.hull_steps ratio allow_holes eps gdf) ->
               Dict.get (Viirs.st_key s)
                 (Viirs.viirs_concave_hulls_by_halfday ratio allow_holes eps gdf)
               = Some (Viirs.st_hull s).
Proof.
  intro Hadd.
  set (steps := Viirs.hull_steps ratio allow_holes eps gdf).
  assert (Hhd : forall s, In s steps ->
                  Viirs.st_half_day s = Viirs.half_day_of (Viirs.st_key s)).
  { intros s Hs.
    destruct (step_key_row ratio allow_holes eps gdf s Hs)
      as [row [Hrow [Hh Ht]]].
    rewrite <- Hh, <- Ht. eapply add_viirs_obstime_half_day; eauto. }
  assert (Hsorted : StronglySorted Z.lt (List.map Viirs.st_half_day steps)).
  { unfold steps, Viirs.hull_steps. rewrite steps_half_days.
    apply sorted_unique_sorted. }
  assert (Hnd : NoDup (List.map Viirs.st_key steps)).
  { clearbody steps. induction steps as [|s l IH]; simpl; [constructor|].
    simpl in Hsorted. inversion Hsorted as [|? ? Hs' Hall]; subst.
    constructor.
    - intro Hin. apply in_map_iff in Hin. destruct Hin as [s' [Hk Hs'']].
      rewrite Forall_forall in Hall.
      assert (Hlt : (Viirs.st_half_day s < Viirs.st_half_day s')%Z)
        by (apply Hall; apply in_map; exact Hs'').
      rewrite (Hhd s (or_introl eq_refl)), (Hhd s' (or_intror Hs'')), Hk in Hlt.
      lia.
    - apply IH; [|exact Hs']. intros s' Hs''. apply Hhd. right. exact Hs''. }
  assert (Heq : Viirs.viirs_concave_hulls_by_halfday ratio allow_holes eps gdf
                = List.map (fun s => (Viirs.st_key s, Viirs.st_hull s)) steps).
  { unfold Viirs.viirs_concave_hulls_by_halfday. fold steps.
    rewrite (fold_set_fresh _ Viirs.st_key Viirs.st_hull steps [] Hnd).
    - reflexivity.
    - intros s _ []. }
  assert (Hkeys : Dict.keys (List.map (fun s => (Viirs.st_key s, Viirs.st_hull s)) steps)
                  = List.map Viirs.st_key steps).
  { unfold Dict.keys. rewrite map_map. reflexivity. }
  split; [exact Heq|]. rewrite Heq, Hkeys. split; [exact Hnd|].
  intros s Hs. apply dict_get_In.
  - rewrite Hkeys. exact Hnd.
  - apply in_map_iff. exists s. auto.
Qed.

(** X7. On a frame that comes from [add_viirs_obstime] no hull overwrites
    another: the dictionary returned holds one entry per turn of the loop,
    in the order of the turns, each under the key of its turn, and looking
    up that key gives back the hull of the turn. *)
Theorem hull_dictionary_has_one_entry_per_cohort
  {P : Geo.Projection} {H : Geo.Hulls}
  (ratio : Q) (allow_holes : bool) (eps : Q)
  (raw : Viirs.frame Viirs.row) (gdf : Viirs.frame Viirs.obs_row) :
  Viirs.add_viirs_obstime raw = Ok gdf ->
  Viirs.viirs_concave_hulls_by_halfday ratio allow_holes eps gdf
  = List.map (fun s => (Viirs.st_key s, Viirs.st_hull s))
      (Viirs.hull_steps ratio allow_holes eps gdf)
  /\ NoDup (Dict.keys
              (Viirs.viirs_concave_hulls_by_halfday ratio allow_holes eps gdf))
  /\ forall s, In s (Viirs.hull_steps ratio allow_holes eps gdf) ->
               Dict.get (Viirs.st_key s)
                 (Viirs.viirs_concave_hulls_by_halfday ratio allow_holes eps gdf)
               = Some (Viirs.st_hull s).
Proof.
  intro Hadd.
  exact (hull_dictionary_entries ratio allow_holes eps raw gdf Hadd).
Qed.

(** The statements of X2, X3 and X7 on the detections of 9 October. *)
Lemma hull_uses_points_up_to_cohort_witness :
  let s := nth 0 (planar_steps Planar.hulls 1 thin_detections)
             (Viirs.mk_step (H := Planar.hulls) 0%Z [] 0%Z Planar.Empty) in
  In s (planar_steps Planar.hulls 1 thin_detections)
  /\ (In (-122.75, 38.5) (Viirs.st_cum_points s) <->
      exists r, In r (Viirs.prepared (P := Identity.projection)
                        (with_obstime thin_detections))
                /\ Viirs.loc_point r = (-122.75, 38.5)
                /\ (Viirs.loc_half_day r <= Viirs.st_half_day s)%Z).
Proof.
  intro s.
  assert (Hin : In s (planar_steps Planar.hulls 1 thin_detections))
    by (apply nth_In; vm_compute; lia).
  split; [exact Hin|].
  exact (proj2 (hull_uses_points_up_to_cohort (P := Identity.projection)
                  (H := Planar.hulls) 1 true tiny_buffer_deg
                  (with_obstime thin_detections) s (-122.75, 38.5) Hin)).
Defined.

Lemma hull_key_is_latest_of_cohort_witness :
  let s := nth 0 (planar_steps Planar.hulls 1 thin_detections)
             (Viirs.mk_step (H := Planar.hulls) 0%Z [] 0%Z Planar.Empty) in
  In s (planar_steps Planar.hulls 1 thin_detections)
  /\ exists row, In row (Viirs.rows (with_obstime thin_detections))
                 /\ Viirs.has_geometry (Viirs.geom (Viirs.base row)) = true
                 /\ Viirs.half_day row = Viirs.st_half_day s
                 /\ Viirs.observation_time row = Viirs.st_key s.
Proof.
  intro s.
  assert (Hin : In s (planar_steps Planar.hulls 1 thin_detections))
    by (apply nth_In; vm_compute; lia).
  split; [exact Hin|].
  exact (proj1 (hull_key_is_latest_of_cohort (P := Identity.projection)
                  (H := Planar.hulls) 1 true tiny_buffer_deg
                  (with_obstime thin_detections) s Hin)).
Defined.

Lemma hull_dictionary_has_one_entry_per_cohort_witness :
  Viirs.add_viirs_obstime thin_detections = Ok (with_obstime thin_detections)
  /\ Viirs.viirs_concave_hulls_by_halfday (P := Identity.projection)
       (H := Planar.hulls) 1 true tiny_buffer_deg (with_obstime thin_detections)
     = List.map (fun s => (Viirs.st_key s, Viirs.st_hull s))
         (planar_steps Planar.hulls 1 thin_detections).
Proof.
  assert (Hadd : Viirs.add_viirs_obstime thin_detections
                 = Ok (with_obstime thin_detections)) by reflexivity.
  split; [exact Hadd|].
  exact (proj1 (hull_dictionary_has_one_entry_per_cohort
                  (P := Identity.projection) (H := Planar.hulls)
                  1 true tiny_buffer_deg thin_detections
                  (with_obstime thin_detections) Hadd)).
Defined.

(** X8. When all the detections fall in one month of one year, the keys of
    the hulls grow with the cohorts: the hulls come out in chronological
    order, so the sorted keys that the history builder and the scorer walk
    through are the keys of the cohorts in cohort order. *)
Theorem hull_keys_chronological_within_a_month
  {P : Geo.Projection} {H : Geo.Hulls}
  (ratio : Q) (allow_holes : bool) (eps : Q)
  (raw : Viirs.frame Viirs.row) (gdf : Viirs.frame Viirs.obs_row)
  (y m : Z) :
  Viirs.add_viirs_obstime raw = Ok gdf ->
  (forall row, In row (Viirs.rows gdf) ->
               Calendar.year (Viirs.observation_time row) = y
               /\ Calendar.month (Viirs.observation_time row) = m) ->
  StronglySorted Z.lt
    (List.map Viirs.st_key (Viirs.hull_steps ratio allow_holes eps gdf))
  /\ Dict.sorted
       (Dict.keys (Viirs.viirs_concave_hulls_by_halfday ratio allow_holes eps gdf))
     = List.map Viirs.st_key (Viirs.hull_steps ratio allow_holes eps gdf).
Proof.
  intros Hadd Hmonth.
  set (steps := Viirs.hull_steps ratio allow_holes eps gdf).
  assert (Hrow : forall s, In s steps ->
             Viirs.st_half_day s = Viirs.half_day_of (Viirs.st_key s)
             /\ Calendar.year (Viirs.st_key s) = y
             /\ Calendar.month (Viirs.st_key s) = m).
  { intros s Hs.
    destruct (step_key_row ratio allow_holes eps gdf s Hs)
      as [row [Hrow [Hh Ht]]].
    destruct (Hmonth row Hrow) as [Hy Hm]. rewrite <- Ht, <- Hh.
    repeat split; auto. eapply add_viirs_obstime_half_day; eauto. }
  assert (Hsorted : StronglySorted Z.lt (List.map Viirs.st_half_day steps)).
  { unfold steps, Viirs.hull_steps. rewrite steps_half_days.
    apply sorted_unique_sorted. }
  assert (Hkeys : StronglySorted Z.lt (List.map Viirs.st_key steps)).
  { apply (sorted_transfer Viirs.st_half_day Viirs.st_key); [|exact Hsorted].
    intros a b Ha Hb Hlt.
    destruct (Hrow a Ha) as [Hha [Hya Hma]].
    destruct (Hrow b Hb) as [Hhb [Hyb Hmb]].
    pose proof (half_day_window_difference (Viirs.st_key a) (Viirs.st_key b)
                  ltac:(congruence) ltac:(congruence)) as Hd.
    rewrite <- Hha, <- Hhb in Hd. unfold window in Hd.
    assert (Hw : (Viirs.st_key a / 43200 < Viirs.st_key b / 43200)%Z) by lia.
    destruct (Z.lt_ge_cases (Viirs.st_key a) (Viirs.st_key b)) as [Hok | Hge];
      [exact Hok|].
    exfalso. assert (Viirs.st_key b / 43200 <= Viirs.st_key a / 43200)%Z
      by (apply Z.div_le_mono; lia). lia. }
  split; [exact Hkeys|].
  destruct (hull_dictionary_entries ratio allow_holes eps raw gdf Hadd) as [Heq _].
  fold steps in Heq. rewrite Heq. unfold Dict.keys. rewrite map_map. simpl.
  apply sorted_of_sorted. exact Hkeys.
Qed.

(** The statement of X8 on the detections of 9 October 2017. *)
Lemma hull_keys_chronological_within_a_month_witness :
  Viirs.add_viirs_obstime thin_detections = Ok (with_obstime thin_detections)
  /\ StronglySorted Z.lt
       (List.map Viirs.st_key (planar_steps Planar.hulls 1 thin_detections))
  /\ Dict.sorted
       (Dict.keys (Viirs.viirs_concave_hulls_by_halfday (P := Identity.projection)
                     (H := Planar.hulls) 1 true tiny_buffer_deg
                     (with_obstime thin_detections)))
     = List.map Viirs.st_key (planar_steps Planar.hulls 1 thin_detections).
Proof.
  assert (Hadd : Viirs.add_viirs_obstime thin_detections
                 = Ok (with_obstime thin_detections)) by reflexivity.
  split; [exact Hadd|].
  apply (hull_keys_chronological_within_a_month (P := Identity.projection)
           (H := Planar.hulls) 1 true tiny_buffer_deg thin_detections
           (with_obstime thin_detections) 2017%Z 10%Z Hadd).
  intros row Hrow. vm_compute in Hrow.
  destruct Hrow as [<- | [<- | [<- | []]]]; split; reflexivity.
Defined.

(** ** More on the skill scorer *)

Section KappaRange.

Lemma count_pairs_nonneg (a b : nat) (y1 y2 : list nat) :
  (0 <= Kappa.count_pairs a b y1 y2)%Z.
Proof. unfold Kappa.count_pairs. lia. Qed.

Lemma Qdiv_nonneg (x y : Q) : 0 <= x -> 0 < y -> 0 <= x / y.
Proof.
  intros Hx Hy. apply Qle_shift_div_l; [exact Hy|].
  rewrite Qmult_0_l. exact Hx.
Qed.

Lemma Qpos_of_nonneg_nonzero (x : Q) :
  0 <= x -> Qeq_bool x 0 = false -> 0 < x.
Proof.
  intros Hle Hne. apply Qle_lteq in Hle. destruct Hle as [Hlt | Heq]; [exact Hlt|].
  symmetry in Heq. apply Qeq_eq_bool in Heq. congruence.
Qed.

(** A quotient of two non-negative numbers is not-a-number, plus infinity
    or a non-negative number. *)
Lemma fdiv_nonneg (num den : Q) :
  0 <= num -> 0 <= den ->
  match Kappa.fdiv num den with
  | Float.fin q => 0 <= q
  | Float.ninf => False
  | _ => True
  end.
Proof.
  intros Hn Hd. unfold Kappa.fdiv.
  destruct (Qeq_bool den 0) eqn:Ed.
  - destruct (Qeq_bool num 0); [exact I|].
    apply Qle_bool_iff in Hn. rewrite Hn. exact I.
  - apply Qdiv_nonneg; [exact Hn|]. apply Qpos_of_nonneg_nonzero; assumption.
Qed.

Lemma fdiv_zero_den (num den : Q) :
  Qeq_bool den 0 = true ->
  match Kappa.fdiv num den with Float.fin _ => False | _ => True end.
Proof.
  intro Hd. unfold Kappa.fdiv. rewrite Hd.
  destruct (Qeq_bool num 0); [exact I|]. destruct (Qle_bool 0 num); exact I.
Qed.

Lemma fdiv_nonzero_den (num den : Q) :
  Qeq_bool den 0 = false -> Kappa.fdiv num den = Float.fin (num / den).
Proof. intro Hd. unfold Kappa.fdiv. rewrite Hd. reflexivity. Qed.

Lemma inject_Z_nonneg (z : Z) : (0 <= z)%Z -> 0 <= inject_Z z.
Proof. intro Hz. change 0 with (inject_Z 0). rewrite <- Zle_Qle. exact Hz. Qed.

(** The agreement of two labelings over 0 and 1, when it is a number, lies
    between minus one and one. *)
Lemma kappa_range (y1 y2 : list nat) :
  Kappa.finite_or_nan (Kappa.cohen_kappa_score y1 y2) = Float.nan
  \/ exists q, Kappa.finite_or_nan (Kappa.cohen_kappa_score y1 y2) = Float.fin q
               /\ - (1) <= q /\ q <= 1.
Proof.
  unfold Kappa.cohen_kappa_score.
  pose proof (count_pairs_nonneg 0 0 y1 y2) as H00.
  pose proof (count_pairs_nonneg 0 1 y1 y2) as H01.
  pose proof (count_pairs_nonneg 1 0 y1 y2) as H10.
  pose proof (count_pairs_nonneg 1 1 y1 y2) as H11.
  set (c00 := Kappa.count_pairs 0 0 y1 y2) in *.
  set (c01 := Kappa.count_pairs 0 1 y1 y2) in *.
  set (c10 := Kappa.count_pairs 1 0 y1 y2) in *.
  set (c11 := Kappa.count_pairs 1 1 y1 y2) in *.
  cbv zeta.
  set (n := (c00 + c10 + (c01 + c11))%Z).
  set (A := ((c00 + c10) * (c10 + c11))%Z).
  set (B := ((c01 + c11) * (c00 + c01))%Z).
  assert (Hn : (0 <= n)%Z) by (unfold n; lia).
  assert (HA : (0 <= A)%Z) by (unfold A; nia).
  assert (HB : (0 <= B)%Z) by (unfold B; nia).
  assert (HC : (0 <= c01 + c10)%Z) by lia.
  assert (Hkey : ((c01 + c10) * n <= 2 * (A + B))%Z).
  { unfold n, A, B.
    pose proof (Z.square_nonneg (c01 - c10)) as Hsq.
    pose proof (Z.mul_nonneg_nonneg _ _ H00 H10).
    pose proof (Z.mul_nonneg_nonneg _ _ H00 H11).
    pose proof (Z.mul_nonneg_nonneg _ _ H10 H11).
    pose proof (Z.mul_nonneg_nonneg _ _ H00 H01).
    pose proof (Z.mul_nonneg_nonneg _ _ H01 H11).
    lia. }
  destruct (Qeq_bool (inject_Z n) 0) eqn:En.
  { pose proof (fdiv_zero_den (inject_Z A) _ En) as Hz.
    destruct (Kappa.fdiv (inject_Z A) (inject_Z n));
      try contradiction; left; reflexivity. }
  rewrite !(fdiv_nonzero_den _ (inject_Z n) En).
  assert (Hnpos : 0 < inject_Z n).
  { apply Qpos_of_nonneg_nonzero; [apply inject_Z_nonneg; exact Hn | exact En]. }
  set (a := inject_Z A / inject_Z n).
  set (b := inject_Z B / inject_Z n).
  assert (Hsum : 0 <= a + b).
  { apply (Qplus_le_compat 0 a 0 b); apply Qdiv_nonneg;
      try exact Hnpos; apply inject_Z_nonneg; assumption. }
  destruct (Qeq_bool (a + b) 0) eqn:Es.
  { pose proof (fdiv_zero_den (inject_Z (c01 + c10)) _ Es) as Hz.
    destruct (Kappa.fdiv (inject_Z (c01 + c10)) (a + b));
      try contradiction; left; reflexivity. }
  rewrite (fdiv_nonzero_den _ (a + b) Es).
  assert (Hspos : 0 < a + b) by (apply Qpos_of_nonneg_nonzero; assumption).
  right. exists (1 - inject_Z (c01 + c10) / (a + b)). split; [reflexivity|].
  assert (Hk0 : 0 <= inject_Z (c01 + c10) / (a + b)).
  { apply Qdiv_nonneg; [apply inject_Z_nonneg; exact HC | exact Hspos]. }
  assert (Hk2 : inject_Z (c01 + c10) / (a + b) <= 2).
  { apply Qle_shift_div_r; [exact Hspos|].
    assert (Heq : 2 * (a + b) == inject_Z (2 * (A + B)) / inject_Z n).
    { unfold a, b. rewrite inject_Z_mult, inject_Z_plus.
      change (inject_Z 2) with 2. field.
      intro H0. rewrite H0 in Hnpos. exact (Qlt_irrefl 0 Hnpos). }
    rewrite Heq. apply Qle_shift_div_l; [exact Hnpos|].
    rewrite <- inject_Z_mult. rewrite <- Zle_Qle. exact Hkey. }
  set (k := inject_Z (c01 + c10) / (a + b)) in *.
  unfold Qminus. split.
  - apply Qle_trans with (1 + - (2)); [apply Qle_bool_iff; reflexivity|].
    apply Qplus_le_compat; [apply Qle_refl | apply Qopp_le_compat; exact Hk2].
  - apply Qle_trans with (1 + - 0); [|apply Qle_bool_iff; reflexivity].
    apply Qplus_le_compat; [apply Qle_refl | apply Qopp_le_compat; exact Hk0].
Qed.

End KappaRange.

Section SortedKeys.

Lemma insert_sorted_length (z : Z) (l : list Z) :
  length (Dict.insert_sorted z l) = S (length l).
Proof.
  induction l as [|x l IH]; simpl; [reflexivity|].
  destruct (z <=? x)%Z; simpl; [reflexivity | rewrite IH; reflexivity].
Qed.

Lemma dict_sorted_length (l : list Z) : length (Dict.sorted l) = length l.
Proof.
  induction l as [|x l IH]; simpl; [reflexivity|].
  rewrite insert_sorted_length, IH. reflexivity.
Qed.

Lemma insert_sorted_In (z x : Z) (l : list Z) :
  In x (Dict.insert_sorted z l) <-> x = z \/ In x l.
Proof.
  induction l as [|y l IH]; simpl.
  - intuition.
  - destruct (z <=? y)%Z; simpl; [intuition|]. rewrite IH. intuition.
Qed.

Lemma dict_sorted_In (x : Z) (l : list Z) : In x (Dict.sorted l) <-> In x l.
Proof.
  induction l as [|y l IH]; simpl; [tauto|].
  rewrite insert_sorted_In, IH. intuition.
Qed.

Lemma insert_sorted_ascending (z : Z) (l : list Z) :
  StronglySorted Z.le l -> StronglySorted Z.le (Dict.insert_sorted z l).
Proof.
  induction 1 as [|x l Hs IH Hall]; simpl.
  - constructor; constructor.
  - destruct (z <=? x)%Z eqn:E.
    + apply Z.leb_le in E. constructor; [constructor; assumption|].
      constructor; [exact E|]. rewrite Forall_forall in *.
      intros y Hy. specialize (Hall y Hy). lia.
    + apply Z.leb_gt in E. constructor; [exact IH|].
      apply Forall_forall. intros y Hy. apply insert_sorted_In in Hy.
      destruct Hy as [-> | Hy]; [lia|]. rewrite Forall_forall in Hall.
      exact (Hall y Hy).
Qed.

Lemma dict_sorted_ascending (l : list Z) : StronglySorted Z.le (Dict.sorted l).
Proof.
  induction l as [|x l IH]; simpl; [constructor|].
  apply insert_sorted_ascending. exact IH.
Qed.

End SortedKeys.

Section ScorerOutput.
Context {geometry : Type} {R : Geo.Raster geometry}.

(** What one pass of the loop records for the observation time [t]. *)
Lemma score_hull_fields (arr : MaskedArray) (t0 : Calendar.Timestamp)
  (ref : Geo.RefRaster) (t : Calendar.Timestamp) (hull : geometry)
  (r : Kappa.record) :
  Kappa.score_hull arr t0 ref t hull = Ok r ->
  Kappa.time_viirs r = Float.fin (inject_Z (t - t0))
  /\ Kappa.time_simu r = SimMask.sim_time arr (inject_Z (t - t0))
  /\ Kappa.recorded_kappa (Kappa.sim_labels arr (inject_Z (t - t0)))
       (Kappa.obs_labels arr ref hull) = Ok (Kappa.kappa r).
Proof.
  unfold Kappa.score_hull. cbv zeta.
  destruct (Kappa.recorded_kappa _ _) as [k|e]; simpl; [|discriminate].
  intro Heq. inversion Heq; subst. simpl. auto.
Qed.

Lemma recorded_kappa_range (y_sim y_obs : list nat) (k : Float.float) :
  Kappa.recorded_kappa y_sim y_obs = Ok k ->
  k = Float.nan \/ exists q, k = Float.fin q /\ - (1) <= q /\ q <= 1.
Proof.
  unfold Kappa.recorded_kappa.
  destruct (Kappa.both_single_class y_sim y_obs) as [single|e]; simpl;
    [|discriminate].
  intro Heq. inversion Heq; subst. destruct single.
  - left. reflexivity.
  - apply kappa_range.
Qed.

Lemma score_all_fields (arr : MaskedArray) (t0 : Calendar.Timestamp)
  (ref : Geo.RefRaster) (hulls : Dict.dict geometry) (obs_times : list Z)
  (rs : list Kappa.record) :
  Kappa.score_all arr t0 ref hulls obs_times = Ok rs ->
  List.map Kappa.time_viirs rs
  = List.map (fun t => Float.fin (inject_Z (t - t0))) obs_times
  /\ List.map Kappa.time_simu rs
     = List.map (fun t => SimMask.sim_time arr (inject_Z (t - t0))) obs_times
  /\ Forall (fun k => k = Float.nan
                      \/ exists q, k = Float.fin q /\ - (1) <= q /\ q <= 1)
       (List.map Kappa.kappa rs).
Proof.
  revert rs. induction obs_times as [|t tl IH]; simpl; intros rs Hall.
  - inversion Hall; subst. simpl. auto.
  - destruct (Dict.get t hulls) as [h|]; simpl in Hall; [|discriminate].
    destruct (Kappa.score_hull arr t0 ref t h) as [r|e] eqn:Hr; simpl in Hall;
      [|discriminate].
    destruct (Kappa.score_all arr t0 ref hulls tl) as [rs'|e] eqn:Hrs;
      simpl in Hall; [|discriminate].
    inversion Hall; subst. clear Hall.
    destruct (IH rs' eq_refl) as [Hv [Hs Hk]].
    destruct (score_hull_fields _ _ _ _ _ _ Hr) as [Hv1 [Hs1 Hk1]].
    simpl. rewrite Hv, Hs, Hv1, Hs1. repeat split.
    constructor; [|exact Hk]. exact (recorded_kappa_range _ _ _ Hk1).
Qed.

(** What a successful run of the scorer went through. *)
Lemma calc_cohen_kappa_ok
  (to_datetime : list ascii -> result Calendar.Timestamp)
  (toa_field : MaskedArray) (hulls : Dict.dict geometry)
  (start : StartTime.start_time) (ref : Geo.RefRaster)
  (out : list Float.float * list Float.float * list Float.float) :
  Kappa.calc_cohen_kappa_for_case to_datetime toa_field hulls start ref = Ok out ->
  exists t0 rs,
    StartTime._parse_start_to_utc to_datetime start = Ok t0
    /\ shape toa_field = (Geo.ref_height ref, Geo.ref_width ref)
    /\ Kappa.score_all toa_field t0 ref hulls (Dict.sorted (Dict.keys hulls))
       = Ok rs
    /\ out = (List.map Kappa.kappa rs, List.map Kappa.time_simu rs,
              List.map Kappa.time_viirs rs).
Proof.
  unfold Kappa.calc_cohen_kappa_for_case.
  destruct (StartTime._parse_start_to_utc to_datetime start) as [t0|e];
    simpl bind; [|discriminate].
  destruct (Kappa.shape_eqb (shape toa_field)
              (Geo.ref_height ref, Geo.ref_width ref)) eqn:E;
    simpl negb; cbv iota; [|discriminate].
  destruct (Kappa.score_all _ _ _ _ _) as [rs|e] eqn:Hall; simpl; [|discriminate].
  intro Heq. inversion Heq; subst. exists t0, rs.
  apply shape_eqb_spec in E. auto.
Qed.

End ScorerOutput.

(** X9. When the scorer returns, its three lists have one entry per key of
    the hull dictionary, in ascending order of the keys: the observation
    times are the keys minus the parsed start, in seconds, and the
    simulated times are the realized cutoffs of the grid at those elapsed
    times.  The start time was parsed and the grid has the shape of the
    reference raster. *)
Theorem scorer_lists_follow_sorted_keys
  {geometry : Type} {R : Geo.Raster geometry}
  (to_datetime : list ascii -> result Calendar.Timestamp)
  (toa_field : MaskedArray) (hulls : Dict.dict geometry)
  (start : StartTime.start_time) (ref : Geo.RefRaster)
  (kappas times_simu times_viirs : list Float.float) :
  Kappa.calc_cohen_kappa_for_case to_datetime toa_field hulls start ref
  = Ok (kappas, times_simu, times_viirs) ->
  exists t0 obs_times,
    StartTime._parse_start_to_utc to_datetime start = Ok t0
    /\ shape toa_field = (Geo.ref_height ref, Geo.ref_width ref)
    /\ StronglySorted Z.le obs_times
    /\ (forall t, In t obs_times <-> In t (Dict.keys hulls))
    /\ length obs_times = length hulls
    /\ length kappas = length hulls
    /\ times_viirs
       = List.map (fun t => Float.fin (inject_Z (t - t0))) obs_times
    /\ times_simu
       = List.map (fun t => SimMask.sim_time toa_field (inject_Z (t - t0)))
           obs_times.
Proof.
  intro Hok.
  destruct (calc_cohen_kappa_ok _ _ _ _ _ _ Hok) as [t0 [rs [Hp [Hsh [Hall Hout]]]]].
  inversion Hout; subst. clear Hout.
  destruct (score_all_fields _ _ _ _ _ _ Hall) as [Hv [Hs _]].
  exists t0, (Dict.sorted (Dict.keys hulls)).
  assert (Hlen : length (Dict.sorted (Dict.keys hulls)) = length hulls).
  { rewrite dict_sorted_length. unfold Dict.keys. apply length_map. }
  repeat split; try assumption.
  - apply dict_sorted_ascending.
  - apply dict_sorted_In.
  - apply dict_sorted_In.
  - rewrite length_map. rewrite <- Hlen.
    rewrite <- (length_map (fun t => Float.fin (inject_Z (t - t0)))
                  (Dict.sorted (Dict.keys hulls))).
    rewrite <- Hv. rewrite length_map. reflexivity.
Qed.

(** X10. Every score the scorer returns is not-a-number or a number
    between minus one and one. *)
Theorem scorer_kappas_in_range
  {geometry : Type} {R : Geo.Raster geometry}
  (to_datetime : list ascii -> result Calendar.Timestamp)
  (toa_field : MaskedArray) (hulls : Dict.dict geometry)
  (start : StartTime.start_time) (ref : Geo.RefRaster)
  (kappas times_simu times_viirs : list Float.float) :
  Kappa.calc_cohen_kappa_for_case to_datetime toa_field hulls start ref
  = Ok (kappas, times_simu, times_viirs) ->
  Forall (fun k => k = Float.nan
                   \/ exists q, k = Float.fin q /\ - (1) <= q /\ q <= 1) kappas.
Proof.
  intro Hok.
  destruct (calc_cohen_kappa_ok _ _ _ _ _ _ Hok) as [t0 [rs [_ [_ [Hall Hout]]]]].
  inversion Hout; subst. clear Hout.
  exact (proj2 (proj2 (score_all_fields _ _ _ _ _ _ Hall))).
Qed.

(** The statements of X9 and X10 on the scenario grid with three hulls. *)
Lemma scorer_lists_follow_sorted_keys_witness :
  Kappa.calc_cohen_kappa_for_case (R := Cells.raster)
    StartTime.to_datetime_iso scenario_grid three_hulls tubbs_start scenario_ref
  = Ok ([Float.fin (0 # 48); Float.fin (0 # 32); Float.fin (24 # 24)],
        [Float.nan; Float.fin 2; Float.fin 3],
        [Float.fin (-300); Float.fin 2; Float.fin 3])
  /\ exists t0 obs_times,
      StartTime._parse_start_to_utc StartTime.to_datetime_iso tubbs_start = Ok t0
      /\ shape scenario_grid
         = (Geo.ref_height scenario_ref, Geo.ref_width scenario_ref)
      /\ StronglySorted Z.le obs_times
      /\ (forall t, In t obs_times <-> In t (Dict.keys three_hulls))
      /\ length obs_times = length three_hulls
      /\ length [Float.fin (0 # 48); Float.fin (0 # 32); Float.fin (24 # 24)]
         = length three_hulls
      /\ [Float.fin (-300); Float.fin 2; Float.fin 3]
         = List.map (fun t => Float.fin (inject_Z (t - t0))) obs_times
      /\ [Float.nan; Float.fin 2; Float.fin 3]
         = List.map (fun t => SimMask.sim_time scenario_grid (inject_Z (t - t0)))
             obs_times.
Proof.
  assert (Hok : Kappa.calc_cohen_kappa_for_case (R := Cells.raster)
                  StartTime.to_datetime_iso scenario_grid three_hulls
                  tubbs_start scenario_ref
                = Ok ([Float.fin (0 # 48); Float.fin (0 # 32); Float.fin (24 # 24)],
                      [Float.nan; Float.fin 2; Float.fin 3],
                      [Float.fin (-300); Float.fin 2; Float.fin 3]))
    by (vm_compute; reflexivity).
  split; [exact Hok|].
  exact (scorer_lists_follow_sorted_keys (R := Cells.raster)
           StartTime.to_datetime_iso scenario_grid three_hulls tubbs_start
           scenario_ref _ _ _ Hok).
Defined.

Lemma scorer_kappas_in_range_witness :
  Kappa.calc_cohen_kappa_for_case (R := Cells.raster)
    StartTime.to_datetime_iso scenario_grid three_hulls tubbs_start scenario_ref
  = Ok ([Float.fin (0 # 48); Float.fin (0 # 32); Float.fin (24 # 24)],
        [Float.nan; Float.fin 2; Float.fin 3],
        [Float.fin (-300); Float.fin 2; Float.fin 3])
  /\ Forall (fun k => k = Float.nan
                      \/ exists q, k = Float.fin q /\ - (1) <= q /\ q <= 1)
       [Float.fin (0 # 48); Float.fin (0 # 32); Float.fin (24 # 24)].
Proof.
  assert (Hok : Kappa.calc_cohen_kappa_for_case (R := Cells.raster)
                  StartTime.to_datetime_iso scenario_grid three_hulls
                  tubbs_start scenario_ref
                = Ok ([Float.fin (0 # 48); Float.fin (0 # 32); Float.fin (24 # 24)],
                      [Float.nan; Float.fin 2; Float.fin 3],
                      [Float.fin (-300); Float.fin 2; Float.fin 3]))
    by (vm_compute; reflexivity).
  split; [exact Hok|].
  exact (scorer_kappas_in_range (R := Cells.raster)
           StartTime.to_datetime_iso scenario_grid three_hulls tubbs_start
           scenario_ref _ _ _ Hok).
Defined.

(** ** Scores of hulls observed before the start *)

Section AgainstZeros.

Lemma filter_nil_of_false {A : Type} (f : A -> bool) (l : list A) :
  (forall x, In x l -> f x = false) -> filter f l = [].
Proof.
  induction l as [|x l IH]; simpl; intro Hf; [reflexivity|].
  rewrite (Hf x (or_introl eq_refl)). apply IH. intros y Hy. apply Hf. auto.
Qed.

Lemma in_combine_of_left {A B : Type} (a : A) (l1 : list A) (l2 : list B) :
  length l1 = length l2 -> In a l1 -> exists b, In (a, b) (combine l1 l2).
Proof.
  revert l2. induction l1 as [|x l1 IH]; intros [|y l2] Hlen Hin;
    simpl in *; try contradiction; try discriminate.
  destruct Hin as [-> | Hin].
  - exists y. left. reflexivity.
  - destruct (IH l2 (eq_add_S _ _ Hlen) Hin) as [b Hb]. exists b. right. exact Hb.
Qed.

Lemma Qeq_bool_false_of_pos (x : Q) : 0 < x -> Qeq_bool x 0 = false.
Proof.
  intro Hx. destruct (Qeq_bool x 0) eqn:E; [|reflexivity].
  apply Qeq_bool_eq in E. rewrite E in Hx. destruct (Qlt_irrefl 0 Hx).
Qed.

Variables y1 y2 : list nat.
Hypothesis same_length : length y1 = length y2.
Hypothesis all_zero : Forall (eq 0%nat) y2.

Lemma count_pairs_second_one (a : nat) : Kappa.count_pairs a 1 y1 y2 = 0%Z.
Proof.
  unfold Kappa.count_pairs. rewrite filter_nil_of_false; [reflexivity|].
  intros [x y] Hin. apply in_combine_r in Hin.
  rewrite Forall_forall in all_zero. rewrite <- (all_zero y Hin). simpl.
  apply andb_false_r.
Qed.

Lemma count_pairs_second_zero_pos (a : nat) :
  In a y1 -> (0 < Kappa.count_pairs a 0 y1 y2)%Z.
Proof.
  intro Hin. destruct (in_combine_of_left a y1 y2 same_length Hin) as [b Hb].
  assert (Hb0 : b = 0%nat).
  { rewrite Forall_forall in all_zero. symmetry. apply all_zero.
    exact (in_combine_r _ _ _ _ Hb). }
  subst b. unfold Kappa.count_pairs.
  assert (Hf : In (a, 0%nat)
                 (filter (fun p => (fst p =? a)%nat && (snd p =? 0)%nat)
                    (combine y1 y2))).
  { apply filter_In. split; [exact Hb|]. simpl. rewrite Nat.eqb_refl. reflexivity. }
  destruct (filter _ _); [contradiction | simpl; lia].
Qed.

(** Against labels that are all zero, labels holding both classes agree no
    better than chance: the score is zero. *)
Lemma cohen_kappa_against_zeros :
  In 0%nat y1 -> In 1%nat y1 ->
  exists q, Kappa.cohen_kappa_score y1 y2 = Float.fin q /\ q == 0.
Proof.
  intros H0 H1. unfold Kappa.cohen_kappa_score.
  rewrite (count_pairs_second_one 0), (count_pairs_second_one 1).
  pose proof (count_pairs_second_zero_pos 0 H0) as Hp0.
  pose proof (count_pairs_second_zero_pos 1 H1) as Hp1.
  set (c00 := Kappa.count_pairs 0 0 y1 y2) in *.
  set (c10 := Kappa.count_pairs 1 0 y1 y2) in *.
  cbv zeta.
  replace (c00 + c10 + (0 + 0))%Z with (c00 + c10)%Z by lia.
  replace (c10 + 0)%Z with c10 by lia.
  replace (0 + c10)%Z with c10 by lia.
  replace ((0 + 0) * (c00 + 0))%Z with 0%Z by lia.
  assert (Hn : 0 < inject_Z (c00 + c10)).
  { change 0 with (inject_Z 0). rewrite <- Zlt_Qlt. lia. }
  assert (Hc : 0 < inject_Z c10).
  { change 0 with (inject_Z 0). rewrite <- Zlt_Qlt. lia. }
  pose proof (Qeq_bool_false_of_pos _ Hn) as En.
  rewrite !(fdiv_nonzero_den _ _ En).
  assert (Hsum : inject_Z ((c00 + c10) * c10) / inject_Z (c00 + c10)
                 + inject_Z 0 / inject_Z (c00 + c10) == inject_Z c10).
  { rewrite inject_Z_mult. change (inject_Z 0) with 0. field.
    intro E. rewrite E in Hn. exact (Qlt_irrefl 0 Hn). }
  assert (Es : Qeq_bool (inject_Z ((c00 + c10) * c10) / inject_Z (c00 + c10)
                         + inject_Z 0 / inject_Z (c00 + c10)) 0 = false).
  { apply Qeq_bool_false_of_pos. rewrite Hsum. exact Hc. }
  rewrite (fdiv_nonzero_den _ _ Es). simpl Kappa.one_minus.
  eexists. split; [reflexivity|]. rewrite Hsum. field.
  intro E. rewrite E in Hc. exact (Qlt_irrefl 0 Hc).
Qed.

End AgainstZeros.

Section BeforeStart.
Context {geometry : Type} {R : Geo.Raster geometry}.
Variables (arr : MaskedArray) (ref : Geo.RefRaster) (hull : geometry).
Hypothesis same_shape : shape arr = (Geo.ref_height ref, Geo.ref_width ref).

Lemma obs_grid_shape :
  shape (Kappa.rasterize_polygon_to_ref
           (Geo.to_crs 4326 (Geo.ref_crs ref) hull) ref 1) = shape arr.
Proof.
  unfold Kappa.rasterize_polygon_to_ref. rewrite same_shape.
  destruct (Geo.is_empty _); reflexivity.
Qed.

Lemma obs_labels_zero_or_one (x : nat) :
  In x (Kappa.obs_labels arr ref hull) -> x = 0%nat \/ x = 1%nat.
Proof.
  unfold Kappa.obs_labels. cbv zeta. intro Hin. apply in_select in Hin.
  destruct Hin as [i [j [_ [_ [_ ->]]]]].
  unfold Kappa.rasterize_polygon_to_ref.
  destruct (Geo.is_empty _); simpl; [left; reflexivity|].
  destruct (Geo.rasterize _ ref i j); auto.
Qed.

Lemma labels_same_length (time_sec : Q) :
  length (Kappa.obs_labels arr ref hull)
  = length (Kappa.sim_labels arr time_sec).
Proof.
  unfold Kappa.obs_labels, Kappa.sim_labels, select. cbv zeta.
  rewrite !length_map. rewrite obs_grid_shape, burnt_shape. reflexivity.
Qed.

Lemma sim_labels_unburned (time_sec : Q) :
  time_sec <= 0 -> Forall (eq 0%nat) (Kappa.sim_labels arr time_sec).
Proof.
  intro Hneg. apply Forall_forall. intros x Hx. unfold Kappa.sim_labels in Hx.
  apply in_select in Hx. destruct Hx as [i [j [_ [_ [_ ->]]]]].
  symmetry. apply burnt_unburned. exact Hneg.
Qed.

End BeforeStart.

(** The guard does not hold when the observed labels hold both classes. *)
Lemma observed_classes_guard (y_sim y_obs : list nat) :
  y_sim <> [] -> In 0%nat y_obs -> In 1%nat y_obs ->
  Kappa.both_single_class y_sim y_obs = Ok false.
Proof.
  intros Hs H0 H1.
  assert (Hne : y_obs <> []) by (intro E; rewrite E in H0; exact H0).
  destruct (amax_spec y_sim Hs) as [a [Ha _]].
  destruct (amin_spec y_sim Hs) as [b [Hb _]].
  destruct (amax_spec y_obs Hne) as [m [Hmax [_ Hle]]].
  destruct (amin_spec y_obs Hne) as [n [Hmin [_ Hge]]].
  rewrite Forall_forall in Hle, Hge.
  specialize (Hle _ H1). specialize (Hge _ H0).
  unfold Kappa.both_single_class. rewrite Ha, Hb. simpl.
  destruct (a =? b)%nat; [|reflexivity].
  rewrite Hmax, Hmin. simpl.
  replace (m =? n)%nat with false; [reflexivity|].
  symmetry. apply Nat.eqb_neq. lia.
Qed.

(** Labels over 0 and 1 that do not hold both are of one class. *)
Lemma one_class_of_binary (y : list nat) :
  (forall x, In x y -> x = 0%nat \/ x = 1%nat) ->
  (In 0%nat y /\ In 1%nat y) \/ exists c, Forall (eq c) y.
Proof.
  intro Hbin.
  destruct (in_dec Nat.eq_dec 0%nat y) as [H0|H0];
    destruct (in_dec Nat.eq_dec 1%nat y) as [H1|H1].
  - left. auto.
  - right. exists 0%nat. apply Forall_forall. intros x Hx.
    destruct (Hbin x Hx) as [-> | ->]; [reflexivity | contradiction].
  - right. exists 1%nat. apply Forall_forall. intros x Hx.
    destruct (Hbin x Hx) as [-> | ->]; [contradiction | reflexivity].
  - right. exists 0%nat. apply Forall_forall. intros x Hx.
    destruct (Hbin x Hx) as [-> | ->]; contradiction.
Qed.

(** X11. A hull observed at or before the start is scored against a mask
    with no burned cell.  When the hull covers some valid cells and leaves
    out others, the recorded kappa is a number equal to zero; when it covers
    none or all of them, it is not-a-number.  The simulated time is
    not-a-number in both cases. *)
Theorem hull_before_start_scores_zero_or_nan
  {geometry : Type} {R : Geo.Raster geometry}
  (arr : MaskedArray) (t0 : Calendar.Timestamp) (ref : Geo.RefRaster)
  (t : Calendar.Timestamp) (hull : geometry) :
  (t <= t0)%Z ->
  shape arr = (Geo.ref_height ref, Geo.ref_width ref) ->
  (exists i j, in_grid arr i j /\ valid_mask arr i j = true) ->
  (In 0%nat (Kappa.obs_labels arr ref hull)
   /\ In 1%nat (Kappa.obs_labels arr ref hull)
   /\ exists q,
       Kappa.score_hull arr t0 ref t hull
       = Ok (Kappa.mk_record (Float.fin q) Float.nan
               (Float.fin (inject_Z (t - t0))))
       /\ q == 0)
  \/ ((exists c, Forall (eq c) (Kappa.obs_labels arr ref hull))
      /\ Kappa.score_hull arr t0 ref t hull
         = Ok (Kappa.mk_record Float.nan Float.nan
                 (Float.fin (inject_Z (t - t0))))).
Proof.
  intros Hle Hshape Hvalid.
  assert (Hneg : inject_Z (t - t0) <= 0).
  { change (inject_Z (t - t0) <= inject_Z 0). rewrite <- Zle_Qle. lia. }
  pose proof (sim_labels_unburned arr (inject_Z (t - t0)) Hneg) as Hzero.
  pose proof (sim_labels_nonempty arr (inject_Z (t - t0)) Hvalid) as Hsne.
  pose proof (obs_labels_nonempty arr ref hull Hshape Hvalid) as Hone.
  pose proof (labels_same_length arr ref hull Hshape (inject_Z (t - t0))) as Hlen.
  unfold Kappa.score_hull. cbv zeta.
  rewrite (sim_time_unburned arr _ Hneg).
  destruct (one_class_of_binary (Kappa.obs_labels arr ref hull)
              (obs_labels_zero_or_one arr ref hull)) as [[H0 H1] | Hsingle].
  - left. split; [exact H0|]. split; [exact H1|].
    destruct (cohen_kappa_against_zeros _ _ Hlen Hzero H0 H1) as [q [Hq Hq0]].
    exists q. split; [|exact Hq0].
    unfold Kappa.recorded_kappa.
    rewrite (observed_classes_guard _ _ Hsne H0 H1). simpl.
    rewrite Hq. reflexivity.
  - right. split; [exact Hsingle|].
    rewrite (recorded_kappa_single_class
               (Kappa.sim_labels arr (inject_Z (t - t0)))
               (Kappa.obs_labels arr ref hull)).
    + reflexivity.
    + split; [exact Hsne|]. exists 0%nat. exact Hzero.
    + split; [exact Hone | exact Hsingle].
Qed.

(** The statement of X11 on the scenario grid: five minutes before the
    start, the hull of three of the four valid cells scores zero. *)
Lemma hull_before_start_scores_zero_or_nan_witness :
  (1507524000 <= 1507524300)%Z
  /\ shape scenario_grid = (Geo.ref_height scenario_ref, Geo.ref_width scenario_ref)
  /\ (exists i j, in_grid scenario_grid i j /\ valid_mask scenario_grid i j = true)
  /\ ((In 0%nat (Kappa.obs_labels (R := Cells.raster) scenario_grid scenario_ref
                   scenario_hull)
       /\ In 1%nat (Kappa.obs_labels (R := Cells.raster) scenario_grid
                      scenario_ref scenario_hull)
       /\ exists q,
           Kappa.score_hull (R := Cells.raster) scenario_grid 1507524300%Z
             scenario_ref 1507524000%Z scenario_hull
           = Ok (Kappa.mk_record (Float.fin q) Float.nan
                   (Float.fin (inject_Z (1507524000 - 1507524300))))
           /\ q == 0)
      \/ ((exists c, Forall (eq c)
                       (Kappa.obs_labels (R := Cells.raster) scenario_grid
                          scenario_ref scenario_hull))
          /\ Kappa.score_hull (R := Cells.raster) scenario_grid 1507524300%Z
               scenario_ref 1507524000%Z scenario_hull
             = Ok (Kappa.mk_record Float.nan Float.nan
                     (Float.fin (inject_Z (1507524000 - 1507524300)))))).
Proof.
  assert (Hle : (1507524000 <= 1507524300)%Z) by lia.
  assert (Hshape : shape scenario_grid
                   = (Geo.ref_height scenario_ref, Geo.ref_width scenario_ref))
    by reflexivity.
  assert (Hvalid : exists i j, in_grid scenario_grid i j
                               /\ valid_mask scenario_grid i j = true).
  { exists 0%nat, 0%nat. split; [split; vm_compute; lia | reflexivity]. }
  split; [exact Hle|]. split; [exact Hshape|]. split; [exact Hvalid|].
  exact (hull_before_start_scores_zero_or_nan (R := Cells.raster)
           scenario_grid 1507524300%Z scenario_ref 1507524000%Z scenario_hull
           Hle Hshape Hvalid).
Defined.

(** ** What the burn-history curve counts *)

Section CurveCounts.

Import BurnHistory.

Lemma filter_twice {A : Type} (f g : A -> bool) (l : list A) :
  filter g (filter f l) = filter (fun x => f x && g x) l.
Proof.
  induction l as [|x l IH]; simpl; [reflexivity|].
  destruct (f x); simpl; [destruct (g x); rewrite IH; reflexivity | exact IH].
Qed.

Lemma count_up_to_eq (l : list Q) (x y : Q) :
  x == y ->
  filter (fun v => Qle_bool v x) l = filter (fun v => Qle_bool v y) l.
Proof.
  intro Hxy. apply filter_ext. intro v. apply Qleb_comp; [reflexivity | exact Hxy].
Qed.

Lemma length_cumsum_from (acc : nat) (l : list nat) :
  length (cumsum_from acc l) = length l.
Proof.
  revert acc. induction l as [|n l IH]; intro acc; simpl; [reflexivity|].
  rewrite IH. reflexivity.
Qed.

Lemma filter_cons_true {A : Type} (f : A -> bool) (x : A) (l : list A) :
  f x = true -> filter f (x :: l) = x :: filter f l.
Proof. intro H. simpl. rewrite H. reflexivity. Qed.

(** The runs of a list with one more value in front. *)
Lemma runs_cons (x y : Q) (l : list Q) (n : nat) (rest : list (Q * nat)) :
  runs (y :: l) = (y, n) :: rest ->
  runs (x :: y :: l)
  = if Qeq_bool x y then (x, S n) :: rest else (x, 1%nat) :: (y, n) :: rest.
Proof.
  intro Hr.
  change (runs (x :: y :: l))
    with (match runs (y :: l) with
          | (z, k) :: rest0 => if Qeq_bool x z then (x, S k) :: rest0
                               else (x, 1%nat) :: (z, k) :: rest0
          | [] => [(x, 1%nat)]
          end).
  rewrite Hr. reflexivity.
Qed.

(** Along the runs of an ascending list, the running sum of the run lengths
    is the number of values up to the value of the run. *)
Lemma runs_cumsum_counts (l : list Q) (acc : nat) :
  StronglySorted Qle l ->
  Forall (fun tc => snd tc
                    = (acc + length (filter (fun v => Qle_bool v (fst tc)) l))%nat)
    (combine (List.map fst (runs l)) (cumsum_from acc (List.map snd (runs l)))).
Proof.
  intro Hs. revert acc. induction Hs as [|x l Hs IH Hall]; intro acc.
  - constructor.
  - assert (Hxx : Qle_bool x x = true) by (apply Qle_bool_iff, Qle_refl).
    assert (Hrest : forall t, In t (List.map fst (runs l)) ->
                              Qle_bool x t = true).
    { intros t Ht. apply runs_fst_In in Ht. rewrite Forall_forall in Hall.
      apply Qle_bool_iff. exact (Hall t Ht). }
    destruct l as [|y l].
    + simpl. constructor; [simpl; rewrite Hxx; simpl; lia | constructor].
    + destruct (runs_head y l) as [n [rest Hr]].
      assert (Hxy : x <= y) by (inversion Hall; assumption).
      assert (Hyy : Qle_bool y y = true) by (apply Qle_bool_iff, Qle_refl).
      specialize (IH (S acc)).
      rewrite (runs_cons x y l _ _ Hr).
      rewrite Hr in IH, Hrest.
      cbn [List.map combine cumsum_from fst snd] in IH.
      inversion IH as [|? ? Hhead Htail]; subst. cbn [fst snd] in Hhead.
      rewrite (filter_cons_true (fun v => Qle_bool v y) y l Hyy) in Hhead. cbn [length] in Hhead.
      assert (Htl : Forall (fun tc => snd tc
                      = (acc + length (filter (fun v => Qle_bool v (fst tc))
                                         (x :: y :: l)))%nat)
                      (combine (List.map fst rest)
                         (cumsum_from (S acc + S n) (List.map snd rest)))).
      { apply Forall_forall. intros [t c] Hin.
        rewrite Forall_forall in Htail. specialize (Htail _ Hin).
        cbn [fst snd] in *.
        assert (Ht : Qle_bool x t = true).
        { apply Hrest. cbn [List.map fst]. right. exact (in_combine_l _ _ _ _ Hin). }
        rewrite (filter_cons_true (fun v => Qle_bool v t) x (y :: l) Ht). cbn [length]. lia. }
      destruct (Qeq_bool x y) eqn:E.
      * apply Qeq_bool_eq in E.
        cbn [List.map combine cumsum_from fst snd].
        replace (acc + S (S n))%nat with (S acc + S n)%nat by lia.
        constructor; [|exact Htl].
        cbn [fst snd]. rewrite (filter_cons_true (fun v => Qle_bool v x) x (y :: l) Hxx).
        rewrite (count_up_to_eq (y :: l) x y E).
        rewrite (filter_cons_true (fun v => Qle_bool v y) y l Hyy). cbn [length]. lia.
      * assert (Hlt : x < y).
        { apply Qle_lteq in Hxy. destruct Hxy as [Hxy | Hxy]; [exact Hxy|].
          apply Qeq_eq_bool in Hxy. congruence. }
        assert (Hnone : filter (fun v => Qle_bool v x) (y :: l) = []).
        { apply filter_nil_of_false. intros v Hv.
          destruct (Qle_bool v x) eqn:Ev; [|reflexivity].
          apply Qle_bool_iff in Ev. exfalso.
          assert (Hyv : y <= v).
          { destruct Hv as [<- | Hv]; [apply Qle_refl|].
            inversion Hs as [|? ? _ Hally]; subst.
            rewrite Forall_forall in Hally. exact (Hally v Hv). }
          apply (Qlt_irrefl x). eapply Qlt_le_trans; [exact Hlt|].
          eapply Qle_trans; eassumption. }
        cbn [List.map combine cumsum_from fst snd].
        constructor.
        -- cbn [fst snd]. rewrite (filter_cons_true (fun v => Qle_bool v x) x (y :: l) Hxx).
           rewrite Hnone. cbn [length]. lia.
        -- replace (acc + 1)%nat with (S acc) by lia.
           constructor.
           ++ cbn [fst snd].
              assert (Hy : Qle_bool x y = true) by (apply Qle_bool_iff; exact Hxy).
              rewrite (filter_cons_true (fun v => Qle_bool v y) x (y :: l) Hy).
              rewrite (filter_cons_true (fun v => Qle_bool v y) y l Hyy). cbn [length]. lia.
           ++ exact Htl.
Qed.

(** Every value of a list opens or joins one of its runs. *)
Lemma runs_fst_complete (v : Q) (l : list Q) :
  In v l -> exists t, In t (List.map fst (runs l)) /\ t == v.
Proof.
  induction l as [|x l IH]; simpl; [tauto|]. intros [-> | Hin].
  - exists v. split; [|reflexivity].
    destruct (runs l) as [|[y n] rest]; simpl; [auto|].
    destruct (Qeq_bool v y); simpl; auto.
  - destruct (IH Hin) as [t [Ht Htv]].
    destruct (runs l) as [|[y n] rest]; simpl in *; [contradiction|].
    destruct (Qeq_bool x y) eqn:E; simpl.
    + destruct Ht as [<- | Ht].
      * exists x. split; [auto|]. apply Qeq_bool_eq in E. rewrite E. exact Htv.
      * exists t. auto.
    + exists t. destruct Ht as [<- | Ht]; auto.
Qed.

End CurveCounts.

(** X12. In exact mode every time of the burn-history curve is a finite,
    strictly positive value of the grid, and the cumulative count recorded
    with it is the number of finite, strictly positive values of the grid
    up to that time; every such value is (equal to) one of the times; the
    areas are the counts times the scale. *)
Theorem exact_curve_counts_values_up_to_each_time
  (toa_array : MaskedArray) (pixel_area_m2 : option Q) :
  let h := BurnHistory.burn_area_history_from_toa toa_array pixel_area_m2 None in
  let vals := BurnHistory.finite_values toa_array in
  length (BurnHistory.times_of h) = length (BurnHistory.counts_of h)
  /\ BurnHistory.areas_of h
     = List.map (BurnHistory.scaled (BurnHistory.scale_of pixel_area_m2))
         (BurnHistory.counts_of h)
  /\ (forall t c,
        In (t, c) (combine (BurnHistory.times_of h) (BurnHistory.counts_of h)) ->
        In t vals /\ 0 < t
        /\ c = length (filter (fun v => BurnHistory.positive v && Qle_bool v t)
                         vals))
  /\ (forall v, In v vals -> 0 < v ->
                exists t, In t (BurnHistory.times_of h) /\ t == v).
Proof.
  intros h vals.
  destruct (exact_mode toa_array pixel_area_m2) as [Ht [Hc Ha]].
  fold h in Ht, Hc, Ha. fold vals in Ht, Hc, Ha.
  set (sorted_vals := BurnHistory.sort
                        (filter BurnHistory.positive (BurnHistory.sort vals))) in *.
  assert (Hmember : forall t, In t sorted_vals -> In t vals /\ 0 < t).
  { intros t Hin. unfold sorted_vals in Hin.
    apply (proj1 (sort_In _ _)) in Hin. apply filter_In in Hin.
    destruct Hin as [Hin Hpos]. apply (proj1 (sort_In _ _)) in Hin.
    split; [exact Hin|]. unfold BurnHistory.positive in Hpos.
    apply negb_true_iff in Hpos. apply Qle_bool_false. exact Hpos. }
  split; [|split; [|split]].
  - rewrite Ht, Hc. unfold BurnHistory.cumsum.
    rewrite length_cumsum_from, !length_map. reflexivity.
  - rewrite Ha, Hc. reflexivity.
  - intros t c Hin. rewrite Ht, Hc in Hin.
    assert (Htin : In t sorted_vals).
    { apply runs_fst_In. exact (in_combine_l _ _ _ _ Hin). }
    destruct (Hmember t Htin) as [Hv Hpos].
    split; [exact Hv|]. split; [exact Hpos|].
    pose proof (runs_cumsum_counts sorted_vals 0
                  (sort_sorted (filter BurnHistory.positive
                                  (BurnHistory.sort vals)))) as Hall.
    rewrite Forall_forall in Hall. specialize (Hall (t, c) Hin).
    simpl in Hall. rewrite Hall. unfold sorted_vals.
    rewrite filter_length_sort, filter_twice, filter_length_sort. reflexivity.
  - intros v Hin Hpos.
    assert (Hv : In v sorted_vals).
    { unfold sorted_vals. apply sort_In. apply filter_In. split.
      - apply sort_In. exact Hin.
      - unfold BurnHistory.positive. apply negb_true_iff.
        destruct (Qle_bool v 0) eqn:E; [|reflexivity].
        apply Qle_bool_iff in E. exfalso.
        exact (Qlt_irrefl 0 (Qlt_le_trans _ _ _ Hpos E)). }
    rewrite Ht. apply runs_fst_complete. exact Hv.
Qed.

(** The statement of X12 on the grid with repeated arrival times: five
    values are up to the time 7. *)
Lemma exact_curve_counts_values_up_to_each_time_witness :
  In (7, 5%nat)
    (combine
       (BurnHistory.times_of
          (BurnHistory.burn_area_history_from_toa repeated_grid (Some 900) None))
       (BurnHistory.counts_of
          (BurnHistory.burn_area_history_from_toa repeated_grid (Some 900) None)))
  /\ 5%nat = length (filter (fun v => BurnHistory.positive v && Qle_bool v 7)
                       (BurnHistory.finite_values repeated_grid)).
Proof.
  assert (Hin : In (7, 5%nat)
                  (combine
                     (BurnHistory.times_of
                        (BurnHistory.burn_area_history_from_toa repeated_grid
                           (Some 900) None))
                     (BurnHistory.counts_of
                        (BurnHistory.burn_area_history_from_toa repeated_grid
                           (Some 900) None))))
    by (right; left; reflexivity).
  split; [exact Hin|].
  exact (proj2 (proj2 (proj1 (proj2 (proj2
           (exact_curve_counts_values_up_to_each_time repeated_grid (Some 900))))
           7 5%nat Hin))).
Defined.

(** ** The coarse burn-history curve *)

Section CoarseCurve.

Import BurnHistory.













End CoarseCurve.



(** ** What the detection loader returns *)

Section LoaderResult.
Context {P : Geo.Projection}.

(** The attribute columns of a record. *)
Lemma reprojected_attributes (src dst : nat) (l : list Viirs.row) :
  List.map (fun r => (Viirs.ACQ_DATE r, Viirs.ACQ_TIME r))
    (filter (fun r => Viirs.has_geometry (Viirs.geom r))
       (List.map (Viirs.reproject_row src dst) l))
  = List.map (fun r => (Viirs.ACQ_DATE r, Viirs.ACQ_TIME r))
      (filter (fun r => Viirs.has_geometry (Viirs.geom r)) l).
Proof.
  induction l as [|r l IH]; [reflexivity|]. cbn [List.map filter].
  rewrite (reproject_row_geometry src dst r).
  destruct (Viirs.has_geometry (Viirs.geom r)); [|exact IH].
  cbn [List.map]. rewrite IH. reflexivity.
Qed.

Lemma filter_has_geometry (l : list Viirs.row) :
  Forall (fun r => Viirs.has_geometry (Viirs.geom r) = true)
    (filter (fun r => Viirs.has_geometry (Viirs.geom r)) l).
Proof.
  apply Forall_forall. intros r Hr. apply filter_In in Hr. tauto.
Qed.

End LoaderResult.

(** X14. When the loader returns, shapefiles were found and read; every
    record it returns has a point geometry; a result with records is in
    EPSG:4326; and the date and time columns of the result are those of the
    records read that have a non-empty geometry, in the order of the files
    and of their records. *)
Theorem loader_keeps_located_records_in_order
  {P : Geo.Projection} (viirs_dir : Viirs.directory)
  (gdf : Viirs.frame Viirs.row) :
  Viirs.load_viirs_points viirs_dir = Ok gdf ->
  Viirs.shps viirs_dir <> []
  /\ Forall (fun r => Viirs.has_geometry (Viirs.geom r) = true) (Viirs.rows gdf)
  /\ (Viirs.rows gdf <> [] -> Viirs.crs gdf = Some 4326%nat)
  /\ exists gdfs,
      Viirs.read_all (Viirs.shps viirs_dir) = Ok gdfs
      /\ List.map (fun r => (Viirs.ACQ_DATE r, Viirs.ACQ_TIME r)) (Viirs.rows gdf)
         = List.map (fun r => (Viirs.ACQ_DATE r, Viirs.ACQ_TIME r))
             (filter (fun r => Viirs.has_geometry (Viirs.geom r))
                (flat_map (@Viirs.rows Viirs.row) gdfs)).
Proof.
  unfold Viirs.load_viirs_points.
  destruct (Viirs.shps viirs_dir) as [|shp tl] eqn:Hs; [discriminate|].
  destruct (Viirs.read_all (shp :: tl)) as [gdfs|e] eqn:Hread; simpl bind;
    [|discriminate].
  intro Hload. split; [discriminate|].
  assert (Hcat : exists g0,
             (match gdfs with
              | [] => Ok (Viirs.mk_frame None [])
              | _ => Viirs.concat gdfs
              end) = Ok g0
             /\ Viirs.rows g0 = flat_map (@Viirs.rows Viirs.row) gdfs).
  { destruct gdfs as [|g gs].
    - eexists. split; reflexivity.
    - destruct (Viirs.concat (g :: gs)) as [g0|e] eqn:Hc; [|discriminate].
      exists g0. split; [reflexivity | apply concat_rows; exact Hc]. }
  destruct Hcat as [g0 [Hg0 Hrows]]. rewrite Hg0 in Hload. simpl bind in Hload.
  destruct (Viirs.empty g0) eqn:Hempty.
  - inversion Hload; subst gdf. clear Hload.
    unfold Viirs.empty in Hempty.
    destruct (Viirs.rows g0) as [|r rs] eqn:Hr; [|discriminate].
    split; [constructor|]. split; [congruence|].
    exists gdfs. split; [reflexivity|]. rewrite <- Hrows. reflexivity.
  - destruct (Viirs.crs g0) as [c|]; inversion Hload; subst gdf; clear Hload;
      simpl Viirs.rows; simpl Viirs.crs.
    + split; [apply filter_has_geometry|]. split; [reflexivity|].
      exists gdfs. split; [reflexivity|].
      rewrite reprojected_attributes, Hrows. reflexivity.
    + split; [apply filter_has_geometry|]. split; [reflexivity|].
      exists gdfs. split; [reflexivity|]. rewrite Hrows. reflexivity.
Qed.

(** The statement of X14 on a directory of two shapefiles: the first is
    read by the fallback reader, the second has no located record. *)
Lemma loader_keeps_located_records_in_order_witness :
  Viirs.load_viirs_points (P := Identity.projection) mixed_dir = Ok thin_detections
  /\ Viirs.shps mixed_dir <> []
  /\ Forall (fun r => Viirs.has_geometry (Viirs.geom r) = true)
       (Viirs.rows thin_detections)
  /\ (Viirs.rows thin_detections <> [] ->
      Viirs.crs thin_detections = Some 4326%nat)
  /\ exists gdfs,
      Viirs.read_all (Viirs.shps mixed_dir) = Ok gdfs
      /\ List.map (fun r => (Viirs.ACQ_DATE r, Viirs.ACQ_TIME r))
           (Viirs.rows thin_detections)
         = List.map (fun r => (Viirs.ACQ_DATE r, Viirs.ACQ_TIME r))
             (filter (fun r => Viirs.has_geometry (Viirs.geom r))
                (flat_map (@Viirs.rows Viirs.row) gdfs)).
Proof.
  assert (Hload : Viirs.load_viirs_points (P := Identity.projection) mixed_dir
                  = Ok thin_detections) by reflexivity.
  split; [exact Hload|].
  exact (loader_keeps_located_records_in_order (P := Identity.projection)
           mixed_dir thin_detections Hload).
Defined.

(** ** The last hull *)

Section LastHull.

(** Two filters that exclude each other split a list. *)
Lemma filter_disjoint_perm {A : Type} (f h : A -> bool) (l : list A) :
  (forall x, In x l -> f x = true -> h x = false) ->
  Permutation (filter f l ++ filter h l) (filter (fun x => f x || h x) l).
Proof.
  induction l as [|x l IH]; intro Hd; [constructor|]. simpl.
  assert (IH' := IH (fun y Hy => Hd y (or_intror Hy))).
  destruct (f x) eqn:Ef; simpl.
  - rewrite (Hd x (or_introl eq_refl) Ef). constructor. exact IH'.
  - destruct (h x).
    + apply Permutation_sym. apply Permutation_cons_app.
      apply Permutation_sym. exact IH'.
    + exact IH'.
Qed.

(** The cohorts of distinct half-days, one after the other, are the rows
    whose half-day is one of them. *)
Lemma cohorts_perm (g : list Viirs.located) (hds : list Z) :
  NoDup hds ->
  Permutation
    (flat_map (fun hd => filter (fun r => (Viirs.loc_half_day r =? hd)%Z) g) hds)
    (filter (fun r => existsb (Z.eqb (Viirs.loc_half_day r)) hds) g).
Proof.
  induction 1 as [|hd tl Hnot Hnd IH]; simpl.
  - induction g as [|r g IHg]; simpl; [constructor | exact IHg].
  - eapply Permutation_trans.
    + apply Permutation_app_head. exact IH.
    + apply (filter_disjoint_perm
               (fun r => (Viirs.loc_half_day r =? hd)%Z)
               (fun r => existsb (Z.eqb (Viirs.loc_half_day r)) tl)).
      intros r _ Heq. apply Z.eqb_eq in Heq.
      destruct (existsb (Z.eqb (Viirs.loc_half_day r)) tl) eqn:E; [|reflexivity].
      apply existsb_exists in E. destruct E as [z [Hz Hrz]].
      apply Z.eqb_eq in Hrz. exfalso. apply Hnot. congruence.
Qed.

Lemma filter_all {A : Type} (f : A -> bool) (l : list A) :
  (forall x, In x l -> f x = true) -> filter f l = l.
Proof.
  induction l as [|x l IH]; intro Hf; [reflexivity|]. simpl.
  rewrite (Hf x (or_introl eq_refl)). f_equal. apply IH.
  intros y Hy. apply Hf. right. exact Hy.
Qed.

Context {P : Geo.Projection} {H : Geo.Hulls}.
Variables (ratio : Q) (allow_holes : bool) (eps : Q).

(** What the last turn of the loop has accumulated. *)
Lemma steps_last_points (g : list Viirs.located) (hds : list Z)
  (acc : list Geo.point) (pre : list Viirs.step) (s : Viirs.step) :
  Viirs.steps ratio allow_holes eps g hds acc = pre ++ [s] ->
  Viirs.st_cum_points s
  = acc ++ List.map Viirs.loc_point
             (flat_map (fun hd => filter (fun r => (Viirs.loc_half_day r =? hd)%Z) g)
                hds).
Proof.
  revert acc pre. induction hds as [|hd tl IH]; intros acc pre Heq.
  - destruct pre; discriminate.
  - simpl in Heq. destruct pre as [|p pre].
    + simpl in Heq. inversion Heq as [[Hs Hrest]]. clear Heq.
      destruct tl as [|hd2 tl2]; [|discriminate].
      simpl. rewrite app_nil_r. reflexivity.
    + simpl in Heq. inversion Heq as [[Hp Hrest]]. clear Heq.
      rewrite (IH _ _ Hrest). simpl flat_map.
      rewrite map_app, app_assoc. reflexivity.
Qed.

End LastHull.

Lemma dropna_length (l : list Viirs.obs_row) :
  length (Viirs.dropna l)
  = length (filter (fun row => Viirs.has_geometry (Viirs.geom (Viirs.base row))) l).
Proof.
  unfold Viirs.dropna. induction l as [|row l IH]; [reflexivity|]. simpl.
  destruct (Viirs.geom (Viirs.base row)); simpl; congruence.
Qed.

Lemma prepared_length {P : Geo.Projection} (gdf : Viirs.frame Viirs.obs_row) :
  length (Viirs.prepared gdf)
  = length (filter (fun row => Viirs.has_geometry (Viirs.geom (Viirs.base row)))
              (Viirs.rows gdf)).
Proof.
  unfold Viirs.prepared. rewrite sort_by_length.
  destruct (Viirs.crs gdf) as [c|]; [destruct (c =? 4326)%nat|];
    rewrite ?length_map; apply dropna_length.
Qed.

(** X15. The last hull of the loop is built from every detection that has a
    point geometry, each taken once: its accumulated points are a
    permutation of the points of the rows the loop runs over, as many as the
    frame has records with a non-empty geometry. *)
Theorem last_hull_uses_every_located_detection
  {P : Geo.Projection} {H : Geo.Hulls}
  (ratio : Q) (allow_holes : bool) (eps : Q)
  (gdf : Viirs.frame Viirs.obs_row) (pre : list Viirs.step) (s : Viirs.step) :
  Viirs.hull_steps ratio allow_holes eps gdf = pre ++ [s] ->
  Permutation (Viirs.st_cum_points s)
    (List.map Viirs.loc_point (Viirs.prepared gdf))
  /\ length (Viirs.st_cum_points s)
     = length (filter (fun row => Viirs.has_geometry (Viirs.geom (Viirs.base row)))
                 (Viirs.rows gdf))
  /\ Viirs.st_hull s = Viirs.hull_of ratio allow_holes eps (Viirs.st_cum_points s).
Proof.
  intro Hlast. unfold Viirs.hull_steps in Hlast. cbv zeta in Hlast.
  set (g := Viirs.prepared gdf) in *.
  set (hds := Dict.sorted_unique (List.map Viirs.loc_half_day g)) in *.
  assert (Hperm : Permutation (Viirs.st_cum_points s) (List.map Viirs.loc_point g)).
  { rewrite (steps_last_points ratio allow_holes eps g hds [] pre s Hlast).
    simpl app. apply Permutation_map.
    eapply Permutation_trans.
    - apply cohorts_perm. apply sorted_lt_nodup. apply sorted_unique_sorted.
    - rewrite filter_all; [apply Permutation_refl|].
      intros r Hr. apply existsb_exists. exists (Viirs.loc_half_day r).
      split; [|apply Z.eqb_refl].
      apply sorted_unique_In. apply in_map. exact Hr. }
  split; [exact Hperm|]. split.
  - rewrite (Permutation_length Hperm), length_map. apply prepared_length.
  - apply (steps_hull ratio allow_holes eps g hds [] s).
    rewrite Hlast. apply in_or_app. right. left. reflexivity.
Qed.

(** The statement of X15 on the detections of 9 October: the evening hull
    is built on the three of them. *)
Lemma last_hull_uses_every_located_detection_witness :
  let d := Viirs.mk_step (H := Planar.hulls) 0%Z [] 0%Z Planar.Empty in
  let s1 := nth 0 (planar_steps Planar.hulls 1 thin_detections) d in
  let s2 := nth 1 (planar_steps Planar.hulls 1 thin_detections) d in
  planar_steps Planar.hulls 1 thin_detections = [s1] ++ [s2]
  /\ Permutation (Viirs.st_cum_points s2)
       (List.map Viirs.loc_point
          (Viirs.prepared (P := Identity.projection) (with_obstime thin_detections)))
  /\ length (Viirs.st_cum_points s2)
     = length (filter (fun row => Viirs.has_geometry (Viirs.geom (Viirs.base row)))
                 (Viirs.rows (with_obstime thin_detections)))
  /\ Viirs.st_hull s2
     = Viirs.hull_of (H := Planar.hulls) 1 true tiny_buffer_deg
         (Viirs.st_cum_points s2).
Proof.
  intros d s1 s2.
  assert (Hlast : planar_steps Planar.hulls 1 thin_detections = [s1] ++ [s2]).
  { apply (list_of_length_two (planar_steps Planar.hulls 1 thin_detections) d).
    vm_compute. reflexivity. }
  split; [exact Hlast|].
  exact (last_hull_uses_every_located_detection (P := Identity.projection)
           (H := Planar.hulls) 1 true tiny_buffer_deg
           (with_obstime thin_detections) [s1] s2 Hlast).
Defined.

(** ** The burned map drawn over the fuel map *)

Section BurntMapFacts.

Variable arr : MaskedArray.
Variable time_now : Q.

Lemma burned_selection (x : Float.float) :
  In x (select (SimMask.threshold_mask arr time_now) (NumPy.map data arr)) <->
  exists i j, in_grid arr i j
              /\ SimMask.threshold_mask arr time_now i j = true
              /\ x = data (item arr i j).
Proof.
  rewrite in_select. unfold in_grid, height, width. simpl.
  split; intros [i [j Hx]]; exists i, j; tauto.
Qed.

Lemma burned_selection_empty :
  select (SimMask.threshold_mask arr time_now) (NumPy.map data arr) = [] <->
  forall i j, in_grid arr i j -> SimMask.threshold_mask arr time_now i j = false.
Proof.
  split.
  - intros Hnil i j Hgrid.
    destruct (SimMask.threshold_mask arr time_now i j) eqn:Hm; [|reflexivity].
    assert (Hin : In (data (item arr i j))
                    (select (SimMask.threshold_mask arr time_now)
                       (NumPy.map data arr))).
    { apply burned_selection. exists i, j. auto. }
    rewrite Hnil in Hin. contradiction.
  - intro Hnone.
    destruct (select (SimMask.threshold_mask arr time_now) (NumPy.map data arr))
      as [|x l] eqn:Hsel; [reflexivity|].
    assert (Hin : In x (select (SimMask.threshold_mask arr time_now)
                          (NumPy.map data arr))).
    { rewrite Hsel. left. reflexivity. }
    apply burned_selection in Hin. destruct Hin as [i [j [Hgrid [Hm _]]]].
    rewrite (Hnone i j Hgrid) in Hm. discriminate.
Qed.

Lemma nothing_burned_before_start :
  time_now <= 0 ->
  forall i j, SimMask.threshold_mask arr time_now i j = false.
Proof.
  intros Ht i j.
  destruct (SimMask.threshold_mask arr time_now i j) eqn:Hm; [|reflexivity].
  apply threshold_mask_true in Hm. destruct Hm as [_ [q [_ [Hpos Hle]]]].
  exfalso. apply (Qlt_irrefl 0).
  eapply Qlt_le_trans; [exact Hpos|]. eapply Qle_trans; eauto.
Qed.

(** The scorer's pair on a grid where some cell is burned. *)
Lemma simulated_when_burned (i j : nat) :
  in_grid arr i j -> SimMask.threshold_mask arr time_now i j = true ->
  SimMask.sim_time arr time_now
  = Float.nanmax (select (SimMask.threshold_mask arr time_now)
                    (NumPy.map data arr)).
Proof.
  intros [Hi Hj] Hm. unfold SimMask.sim_time, SimMask.simulated.
  assert (Hpos : negb (Qle_bool time_now 0) = true).
  { destruct (Qle_bool time_now 0) eqn:E; [|reflexivity].
    apply Qle_bool_iff in E.
    rewrite (nothing_burned_before_start E i j) in Hm. discriminate. }
  rewrite Hpos.
  assert (Hany : any (shape arr) (SimMask.threshold_mask arr time_now) = true).
  { apply any_true. exists i, j. auto. }
  rewrite Hany. reflexivity.
Qed.

End BurntMapFacts.

(** X16. The burned-map function raises [ValueError] (the reduction over an
    empty selection) exactly when no cell of the grid is unmasked with a
    finite arrival time that is strictly positive and at most [time_now];
    this is always so for a [time_now] that is not positive.  Where it
    raises, the scorer records not-a-number as its simulated time. *)
Theorem burnt_map_raises_when_nothing_burned
  (toa_array : BurntMap.toa_arg) (time_now : Q) :
  let arr := BurntMap.as_masked toa_array in
  ((forall i j q, in_grid arr i j -> mask (item arr i j) = false ->
                  data (item arr i j) = Float.fin q -> 0 < q ->
                  ~ q <= time_now)
   <-> BurntMap.plot_burnt_map_from_toa toa_array time_now
       = Raise (ValueError ("zero-size array to reduction operation "
                            ++ BurntMap.reduction toa_array
                            ++ " which has no identity")))
  /\ (time_now <= 0 ->
      BurntMap.plot_burnt_map_from_toa toa_array time_now
      = Raise (ValueError ("zero-size array to reduction operation "
                           ++ BurntMap.reduction toa_array
                           ++ " which has no identity")))
  /\ (forall e, BurntMap.plot_burnt_map_from_toa toa_array time_now = Raise e ->
                SimMask.sim_time arr time_now = Float.nan).
Proof.
  intro arr.
  assert (Hnone : (forall i j q, in_grid arr i j -> mask (item arr i j) = false ->
                     data (item arr i j) = Float.fin q -> 0 < q ->
                     ~ q <= time_now)
                  <-> select (SimMask.threshold_mask arr time_now)
                        (NumPy.map data arr) = []).
  { rewrite burned_selection_empty. split.
    - intros Hcells i j Hgrid.
      destruct (SimMask.threshold_mask arr time_now i j) eqn:Hm; [|reflexivity].
      apply threshold_mask_true in Hm. destruct Hm as [Hmask [q [Hq [Hpos Hle]]]].
      destruct (Hcells i j q Hgrid Hmask Hq Hpos Hle).
    - intros Hmask i j q Hgrid Hm Hq Hpos Hle.
      assert (Ht : SimMask.threshold_mask arr time_now i j = true).
      { apply threshold_mask_true. split; [exact Hm|]. exists q. auto. }
      rewrite (Hmask i j Hgrid) in Ht. discriminate. }
  assert (Hraise : select (SimMask.threshold_mask arr time_now)
                     (NumPy.map data arr) = []
                   <-> BurntMap.plot_burnt_map_from_toa toa_array time_now
                       = Raise (Kappa.zero_size (BurntMap.reduction toa_array))).
  { unfold BurntMap.plot_burnt_map_from_toa. fold arr. cbv zeta. simpl item.
    destruct (select (SimMask.threshold_mask arr time_now) (NumPy.map data arr));
      split; intro Heq; try reflexivity; discriminate. }
  split; [rewrite Hnone; exact Hraise|]. split.
  - intro Ht. apply Hraise. apply burned_selection_empty.
    intros i j _. apply nothing_burned_before_start. exact Ht.
  - intros e He.
    assert (Hsel : select (SimMask.threshold_mask arr time_now)
                     (NumPy.map data arr) = []).
    { unfold BurntMap.plot_burnt_map_from_toa in He. fold arr in He.
      cbv zeta in He. simpl item in He.
      destruct (select (SimMask.threshold_mask arr time_now) (NumPy.map data arr));
        [reflexivity | discriminate]. }
    destruct (sim_time_spec arr time_now) as [[_ Hnan] | [i [j [m [Hgrid [Hb _]]]]]];
      [exact Hnan|].
    exfalso. rewrite burnt_item in Hb by exact Hgrid.
    rewrite (proj1 (burned_selection_empty arr time_now) Hsel i j Hgrid) in Hb.
    discriminate.
Qed.

(** X17. When the burned-map function returns, its mask has the shape of
    the grid and marks the cells the scorer labels 1 at that time, and the
    time returned is the scorer's simulated time: the largest arrival time
    under the mask, which is strictly positive and at most [time_now]. *)
Theorem burnt_map_time_is_scorer_time
  (toa_array : BurntMap.toa_arg) (time_now : Q)
  (burned : ndarray bool) (toa_max : Float.float) :
  BurntMap.plot_burnt_map_from_toa toa_array time_now = Ok (burned, toa_max) ->
  let arr := BurntMap.as_masked toa_array in
  shape burned = shape arr
  /\ (forall i j, in_grid arr i j ->
                  (item burned i j = true
                   <-> item (SimMask.burnt arr time_now) i j = 1%nat))
  /\ toa_max = SimMask.sim_time arr time_now
  /\ exists i j m,
      in_grid arr i j /\ item burned i j = true
      /\ data (item arr i j) = Float.fin m /\ toa_max = Float.fin m
      /\ 0 < m /\ m <= time_now
      /\ forall i' j' q, in_grid arr i' j' -> item burned i' j' = true ->
                         data (item arr i' j') = Float.fin q -> q <= m.
Proof.
  intros Hplot arr.
  unfold BurntMap.plot_burnt_map_from_toa in Hplot. fold arr in Hplot.
  cbv zeta in Hplot. simpl item in Hplot.
  destruct (select (SimMask.threshold_mask arr time_now) (NumPy.map data arr))
    as [|x l] eqn:Hsel; [discriminate|].
  inversion Hplot as [[Hb Hmax]]. clear Hplot. rewrite <- Hsel.
  assert (Hin : In x (select (SimMask.threshold_mask arr time_now)
                        (NumPy.map data arr))) by (rewrite Hsel; left; reflexivity).
  apply burned_selection in Hin. destruct Hin as [i0 [j0 [Hgrid0 [Hm0 _]]]].
  assert (Hbit : forall i j, in_grid arr i j ->
             (SimMask.threshold_mask arr time_now i j = true
              <-> item (SimMask.burnt arr time_now) i j = 1%nat)).
  { intros i j Hgrid. rewrite burnt_item by exact Hgrid.
    destruct (SimMask.threshold_mask arr time_now i j); split; congruence. }
  assert (Htime : Float.nanmax (select (SimMask.threshold_mask arr time_now)
                                  (NumPy.map data arr))
                  = SimMask.sim_time arr time_now).
  { symmetry. exact (simulated_when_burned arr time_now i0 j0 Hgrid0 Hm0). }
  split; [reflexivity|]. split; [exact Hbit|]. split; [exact Htime|].
  simpl item. rewrite Htime.
  destruct (sim_time_spec arr time_now)
    as [[Hzero _] | [i [j [m [Hgrid [Hone [Hd [Hst Hall]]]]]]]].
  - exfalso. apply (Hbit i0 j0 Hgrid0) in Hm0. rewrite (Hzero i0 j0 Hgrid0) in Hm0.
    discriminate.
  - pose proof (proj2 (Hbit i j Hgrid) Hone) as Hm.
    destruct (proj1 (threshold_mask_true arr time_now i j) Hm)
      as [_ [q [Hq [Hpos Hle]]]].
    rewrite Hd in Hq. inversion Hq; subst q.
    exists i, j, m. repeat split; try assumption; try apply Hgrid.
    intros i' j' q Hgrid' Hb' Hq'. apply (Hall i' j' q Hgrid'); [|exact Hq'].
    apply Hbit; assumption.
Qed.

(** The statement of X16 on the plain array of the scenario, five minutes
    before the start. *)
Lemma burnt_map_raises_when_nothing_burned_witness :
  - (300) <= 0
  /\ BurntMap.plot_burnt_map_from_toa (BurntMap.Plain scenario_plain) (- (300))
     = Raise (ValueError
                "zero-size array to reduction operation fmax which has no identity").
Proof.
  assert (Ht : - (300) <= 0) by (apply Qle_bool_iff; reflexivity).
  split; [exact Ht|].
  exact (proj1 (proj2 (burnt_map_raises_when_nothing_burned
                         (BurntMap.Plain scenario_plain) (- (300)))) Ht).
Defined.

(** The statement of X17 on the masked grid of the scenario at cutoff 3. *)
Lemma burnt_map_time_is_scorer_time_witness :
  let burned := mk_ndarray (shape scenario_grid)
                  (SimMask.threshold_mask scenario_grid 3) in
  BurntMap.plot_burnt_map_from_toa (BurntMap.Masked scenario_grid) 3
  = Ok (burned, Float.fin 3)
  /\ shape burned = shape scenario_grid
  /\ (forall i j, in_grid scenario_grid i j ->
                  (item burned i j = true
                   <-> item (SimMask.burnt scenario_grid 3) i j = 1%nat))
  /\ Float.fin 3 = SimMask.sim_time scenario_grid 3
  /\ exists i j m,
      in_grid scenario_grid i j /\ item burned i j = true
      /\ data (item scenario_grid i j) = Float.fin m /\ Float.fin 3 = Float.fin m
      /\ 0 < m /\ m <= 3
      /\ forall i' j' q, in_grid scenario_grid i' j' -> item burned i' j' = true ->
                         data (item scenario_grid i' j') = Float.fin q -> q <= m.
Proof.
  intro burned.
  assert (Hplot : BurntMap.plot_burnt_map_from_toa (BurntMap.Masked scenario_grid) 3
                  = Ok (burned, Float.fin 3)) by reflexivity.
  split; [exact Hplot|].
  exact (burnt_map_time_is_scorer_time (BurntMap.Masked scenario_grid) 3
           burned (Float.fin 3) Hplot).
Defined.

(** ** The observed burn-area history *)

Section HullHistoryFacts.
Context {geometry : Type} {A : HullHistory.Areas geometry}.

(** A key of the dictionary has a value. *)
Lemma dict_get_key (k : Z) (d : Dict.dict geometry) :
  In k (Dict.keys d) -> exists g, Dict.get k d = Some g.
Proof.
  induction d as [|[k' g'] d IH]; simpl; intro Hin; [contradiction|].
  destruct (k =? k')%Z eqn:E; [eauto|].
  destruct Hin as [Heq | Hin]; [|exact (IH Hin)].
  apply Z.eqb_neq in E. congruence.
Qed.

Lemma history_of_keys (t0 : Calendar.Timestamp) (hulls : Dict.dict geometry)
  (obs_times : list Z) :
  (forall t, In t obs_times -> In t (Dict.keys hulls)) ->
  HullHistory.history t0 hulls obs_times
  = Ok (List.map (fun t => inject_Z (t - t0)) obs_times,
        List.map (area_at_key hulls) obs_times).
Proof.
  induction obs_times as [|t tl IH]; intro Hkeys; simpl; [reflexivity|].
  destruct (dict_get_key t hulls (Hkeys t (or_introl eq_refl))) as [g Hg].
  unfold area_at_key at 1. rewrite Hg. simpl.
  rewrite IH by (intros t' Ht'; apply Hkeys; right; exact Ht'). reflexivity.
Qed.

End HullHistoryFacts.

(** X18. The observed burn-area history fails only when the start time
    does not parse, with the parser's error.  Otherwise it returns one time
    and one area per key of the dictionary, in ascending order of the keys:
    the times are the keys minus the parsed start, in seconds, hence never
    decreasing, and the area of an empty hull is zero. *)
Theorem hull_history_fails_only_on_start_time
  {geometry : Type} {A : HullHistory.Areas geometry}
  (to_datetime : list ascii -> result Calendar.Timestamp)
  (hulls : Dict.dict geometry) (start : StartTime.start_time) :
  (exists e, StartTime._parse_start_to_utc to_datetime start = Raise e
             /\ HullHistory.viirs_burn_area_history_from_hulls to_datetime
                  hulls start = Raise e)
  \/ (exists t0 times_sec areas_km2,
         StartTime._parse_start_to_utc to_datetime start = Ok t0
         /\ HullHistory.viirs_burn_area_history_from_hulls to_datetime hulls start
            = Ok (times_sec, areas_km2)
         /\ times_sec = List.map (fun t => inject_Z (t - t0))
                          (Dict.sorted (Dict.keys hulls))
         /\ areas_km2 = List.map (area_at_key hulls)
                          (Dict.sorted (Dict.keys hulls))
         /\ length times_sec = length hulls
         /\ length areas_km2 = length hulls
         /\ StronglySorted Qle times_sec
         /\ (forall t g, Dict.get t hulls = Some g ->
                         HullHistory.is_empty g = true ->
                         area_at_key hulls t = 0)).
Proof.
  unfold HullHistory.viirs_burn_area_history_from_hulls.
  destruct (StartTime._parse_start_to_utc to_datetime start) as [t0|e];
    simpl bind; [|left; eauto].
  right. exists t0. eexists. eexists. split; [reflexivity|].
  split.
  { apply history_of_keys. intros t Ht. apply dict_sorted_In. exact Ht. }
  assert (Hlen : length (Dict.sorted (Dict.keys hulls)) = length hulls).
  { rewrite dict_sorted_length. unfold Dict.keys. apply length_map. }
  split; [reflexivity|]. split; [reflexivity|].
  split; [rewrite length_map; exact Hlen|].
  split; [rewrite length_map; exact Hlen|].
  split.
  - apply (sorted_map Z.le Qle); [|apply dict_sorted_ascending].
    intros a b Hab. rewrite <- Zle_Qle. lia.
  - intros t g Hget Hempty. unfold area_at_key, HullHistory.area_km2.
    rewrite Hget, Hempty. reflexivity.
Qed.

(** X19. For the same hulls and start time, the observation times of the
    scorer are those of the observed burn-area history, entry by entry,
    and the two return as many entries. *)
Theorem scorer_times_are_history_times
  {geometry : Type} {R : Geo.Raster geometry} {A : HullHistory.Areas geometry}
  (to_datetime : list ascii -> result Calendar.Timestamp)
  (toa_field : MaskedArray) (hulls : Dict.dict geometry)
  (start : StartTime.start_time) (ref : Geo.RefRaster)
  (times_sec areas_km2 : list Q)
  (kappas times_simu times_viirs : list Float.float) :
  HullHistory.viirs_burn_area_history_from_hulls to_datetime hulls start
  = Ok (times_sec, areas_km2) ->
  Kappa.calc_cohen_kappa_for_case to_datetime toa_field hulls start ref
  = Ok (kappas, times_simu, times_viirs) ->
  times_viirs = List.map Float.fin times_sec
  /\ length kappas = length areas_km2
  /\ length times_simu = length times_sec.
Proof.
  intros Hhist Hscore.
  destruct (calc_cohen_kappa_ok _ _ _ _ _ _ Hscore)
    as [t0 [rs [Hp [_ [Hall Hout]]]]].
  inversion Hout; subst. clear Hout.
  destruct (score_all_fields _ _ _ _ _ _ Hall) as [Hv [Hs _]].
  unfold HullHistory.viirs_burn_area_history_from_hulls in Hhist.
  rewrite Hp in Hhist. simpl bind in Hhist.
  rewrite history_of_keys in Hhist
    by (intros t Ht; apply dict_sorted_In; exact Ht).
  inversion Hhist; subst. clear Hhist.
  split; [|split].
  - rewrite Hv, map_map. reflexivity.
  - rewrite !length_map.
    rewrite <- (length_map Kappa.time_viirs rs), Hv, length_map. reflexivity.
  - rewrite Hs, !length_map. reflexivity.
Qed.

(** The statement of X18 on the three hulls of the scenario: the start time
    of the Tubbs case parses, so the history is returned. *)
Lemma hull_history_fails_only_on_start_time_witness :
  HullHistory.viirs_burn_area_history_from_hulls (A := CellAreas.areas)
    StartTime.to_datetime_iso three_hulls tubbs_start
  = Ok ([- (300); 2; 3], [3 # 1000000; 0; 3 # 1000000])
  /\ ((exists e, StartTime._parse_start_to_utc StartTime.to_datetime_iso
                   tubbs_start = Raise e
                 /\ HullHistory.viirs_burn_area_history_from_hulls
                      (A := CellAreas.areas) StartTime.to_datetime_iso
                      three_hulls tubbs_start = Raise e)
      \/ (exists t0 times_sec areas_km2,
             StartTime._parse_start_to_utc StartTime.to_datetime_iso tubbs_start
             = Ok t0
             /\ HullHistory.viirs_burn_area_history_from_hulls
                  (A := CellAreas.areas) StartTime.to_datetime_iso three_hulls
                  tubbs_start = Ok (times_sec, areas_km2)
             /\ times_sec = List.map (fun t => inject_Z (t - t0))
                              (Dict.sorted (Dict.keys three_hulls))
             /\ areas_km2 = List.map (area_at_key (A := CellAreas.areas) three_hulls)
                              (Dict.sorted (Dict.keys three_hulls))
             /\ length times_sec = length three_hulls
             /\ length areas_km2 = length three_hulls
             /\ StronglySorted Qle times_sec
             /\ (forall t g, Dict.get t three_hulls = Some g ->
                             HullHistory.is_empty (Areas := CellAreas.areas) g = true ->
                             area_at_key (A := CellAreas.areas) three_hulls t = 0))).
Proof.
  split; [vm_compute; reflexivity|].
  exact (hull_history_fails_only_on_start_time (A := CellAreas.areas)
           StartTime.to_datetime_iso three_hulls tubbs_start).
Defined.

(** The statement of X19 on the same hulls and the scenario grid. *)
Lemma scorer_times_are_history_times_witness :
  HullHistory.viirs_burn_area_history_from_hulls (A := CellAreas.areas)
    StartTime.to_datetime_iso three_hulls tubbs_start
  = Ok ([- (300); 2; 3], [3 # 1000000; 0; 3 # 1000000])
  /\ Kappa.calc_cohen_kappa_for_case (R := Cells.raster)
       StartTime.to_datetime_iso scenario_grid three_hulls tubbs_start scenario_ref
     = Ok ([Float.fin (0 # 48); Float.fin (0 # 32); Float.fin (24 # 24)],
           [Float.nan; Float.fin 2; Float.fin 3],
           [Float.fin (-300); Float.fin 2; Float.fin 3])
  /\ [Float.fin (-300); Float.fin 2; Float.fin 3]
     = List.map Float.fin [- (300); 2; 3]
  /\ length [Float.fin (0 # 48); Float.fin (0 # 32); Float.fin (24 # 24)]
     = length [3 # 1000000; 0; 3 # 1000000]
  /\ length [Float.nan; Float.fin 2; Float.fin 3] = length [- (300); 2; 3].
Proof.
  assert (Hhist : HullHistory.viirs_burn_area_history_from_hulls
                    (A := CellAreas.areas) StartTime.to_datetime_iso three_hulls
                    tubbs_start
                  = Ok ([- (300); 2; 3], [3 # 1000000; 0; 3 # 1000000]))
    by (vm_compute; reflexivity).
  assert (Hscore : Kappa.calc_cohen_kappa_for_case (R := Cells.raster)
                     StartTime.to_datetime_iso scenario_grid three_hulls
                     tubbs_start scenario_ref
                   = Ok ([Float.fin (0 # 48); Float.fin (0 # 32);
                          Float.fin (24 # 24)],
                         [Float.nan; Float.fin 2; Float.fin 3],
                         [Float.fin (-300); Float.fin 2; Float.fin 3]))
    by (vm_compute; reflexivity).
  split; [exact Hhist|]. split; [exact Hscore|].
  exact (scorer_times_are_history_times (R := Cells.raster)
           (A := CellAreas.areas) StartTime.to_datetime_iso scenario_grid
           three_hulls tubbs_start scenario_ref _ _ _ _ _ Hhist Hscore).
Defined.

(** ** The stack of arrival-time rasters *)

Section PathOrder.

Lemma ascii_compare_refl (a : ascii) : Ascii.compare a a = Eq.
Proof. unfold Ascii.compare. apply N.compare_refl. Qed.

Lemma ascii_compare_lt_trans (a b c : ascii) :
  Ascii.compare a b = Lt -> Ascii.compare b c = Lt -> Ascii.compare a c = Lt.
Proof.
  unfold Ascii.compare. rewrite !N.compare_lt_iff. apply N.lt_trans.
Qed.

Lemma string_compare_refl (s : string) : String.compare s s = Eq.
Proof.
  induction s as [|c s IH]; simpl; [reflexivity|].
  rewrite ascii_compare_refl. exact IH.
Qed.

Lemma string_compare_lt_trans (a b c : string) :
  String.compare a b = Lt -> String.compare b c = Lt -> String.compare a c = Lt.
Proof.
  revert b c. induction a as [|x a IH]; intros [|y b] [|z c]; simpl;
    try discriminate; try reflexivity.
  destruct (Ascii.compare x y) eqn:Exy; try discriminate;
    destruct (Ascii.compare y z) eqn:Eyz; try discriminate; intros Hab Hbc.
  - apply Ascii.compare_eq_iff in Exy, Eyz. subst.
    rewrite ascii_compare_refl. exact (IH _ _ Hab Hbc).
  - apply Ascii.compare_eq_iff in Exy. subst. rewrite Eyz. reflexivity.
  - apply Ascii.compare_eq_iff in Eyz. subst. rewrite Exy. reflexivity.
  - rewrite (ascii_compare_lt_trans _ _ _ Exy Eyz). reflexivity.
Qed.

Lemma path_compare_refl (a : ToaStack.Path) : ToaStack.compare a a = Eq.
Proof.
  induction a as [|x a IH]; simpl; [reflexivity|].
  rewrite string_compare_refl. exact IH.
Qed.

Lemma path_compare_eq (a b : ToaStack.Path) :
  ToaStack.compare a b = Eq -> a = b.
Proof.
  revert b. induction a as [|x a IH]; intros [|y b]; simpl;
    try discriminate; [reflexivity|].
  destruct (String.compare x y) eqn:E; try discriminate.
  apply String.compare_eq_iff in E. intro H. f_equal; [exact E | exact (IH _ H)].
Qed.

Lemma path_compare_antisym (a b : ToaStack.Path) :
  ToaStack.compare a b = CompOpp (ToaStack.compare b a).
Proof.
  revert b. induction a as [|x a IH]; intros [|y b]; simpl; try reflexivity.
  rewrite (String.compare_antisym x y).
  destruct (String.compare y x); simpl; [apply IH | reflexivity | reflexivity].
Qed.

Lemma path_compare_lt_trans (a b c : ToaStack.Path) :
  ToaStack.compare a b = Lt -> ToaStack.compare b c = Lt ->
  ToaStack.compare a c = Lt.
Proof.
  revert b c. induction a as [|x a IH]; intros [|y b] [|z c]; simpl;
    try discriminate; try reflexivity.
  destruct (String.compare x y) eqn:Exy; try discriminate;
    destruct (String.compare y z) eqn:Eyz; try discriminate; intros Hab Hbc.
  - apply String.compare_eq_iff in Exy, Eyz. subst.
    rewrite string_compare_refl. exact (IH _ _ Hab Hbc).
  - apply String.compare_eq_iff in Exy. subst. rewrite Eyz. reflexivity.
  - apply String.compare_eq_iff in Eyz. subst. rewrite Exy. reflexivity.
  - rewrite (string_compare_lt_trans _ _ _ Exy Eyz). reflexivity.
Qed.

Lemma path_leb_total (a b : ToaStack.Path) :
  ToaStack.leb a b = true \/ ToaStack.leb b a = true.
Proof.
  unfold ToaStack.leb. rewrite (path_compare_antisym b a).
  destruct (ToaStack.compare a b); simpl; auto.
Qed.

Lemma path_leb_trans (a b c : ToaStack.Path) :
  ToaStack.leb a b = true -> ToaStack.leb b c = true -> ToaStack.leb a c = true.
Proof.
  unfold ToaStack.leb.
  destruct (ToaStack.compare a b) eqn:Eab; try discriminate;
    destruct (ToaStack.compare b c) eqn:Ebc; try discriminate; intros _ _.
  - apply path_compare_eq in Eab, Ebc. subst. rewrite path_compare_refl.
    reflexivity.
  - apply path_compare_eq in Eab. subst. rewrite Ebc. reflexivity.
  - apply path_compare_eq in Ebc. subst. rewrite Eab. reflexivity.
  - rewrite (path_compare_lt_trans _ _ _ Eab Ebc). reflexivity.
Qed.

End PathOrder.

Section StackFacts.

Variables Affine Meta : Type.

Lemma read_stack_spec (files : list (ToaStack.file Affine Meta)) (index : nat)
  (arrays : list (ndarray Float.float)) (times : list Q) :
  ToaStack.read_stack files index = Ok (arrays, times) ->
  length arrays = length files /\ length times = length files
  /\ forall k f, nth_error files k = Some f ->
       exists arr t m,
         ToaStack.read_raster f = Ok (arr, t, m)
         /\ nth_error arrays k = Some (NumPy.map data arr)
         /\ nth_error times k = Some (ToaStack.time_of (ToaStack.path f)
                                         (index + k)).
Proof.
  revert index arrays times.
  induction files as [|f tl IH]; intros index arrays times Hread; simpl in Hread.
  - inversion Hread; subst. repeat split; try reflexivity.
    intros [|k] f Hf; discriminate.
  - destruct (ToaStack.read_raster f) as [[[arr t] m]|e] eqn:Hf; simpl in Hread;
      [|discriminate].
    destruct (ToaStack.read_stack tl (S index)) as [[arrays' times']|e] eqn:Htl;
      simpl in Hread; [|discriminate].
    inversion Hread; subst. clear Hread.
    destruct (IH _ _ _ Htl) as [Ha [Ht Hk]].
    simpl. repeat split; try congruence.
    intros [|k] f' Hf'; simpl in Hf'.
    + inversion Hf'; subst f'. exists arr, t, m. rewrite Nat.add_0_r. auto.
    + destruct (Hk k f' Hf') as [arr' [t' [m' [Hr [Hna Hnt]]]]].
      exists arr', t', m'. simpl.
      replace (index + S k)%nat with (S index + k)%nat by lia. auto.
Qed.

Lemma read_stack_raises (files : list (ToaStack.file Affine Meta)) (index : nat)
  (e : exn) :
  ToaStack.read_stack files index = Raise e ->
  exists f, In f files /\ ToaStack.read_raster f = Raise e.
Proof.
  revert index. induction files as [|f tl IH]; intros index Hread;
    simpl in Hread; [discriminate|].
  destruct (ToaStack.read_raster f) as [[[arr t] m]|e'] eqn:Hf; simpl in Hread.
  - destruct (ToaStack.read_stack tl (S index)) as [[arrays' times']|e'] eqn:Htl;
      simpl in Hread; [discriminate|].
    inversion Hread; subst. destruct (IH _ Htl) as [f' [Hin Hr]].
    exists f'. split; [right; exact Hin | exact Hr].
  - inversion Hread; subst. exists f. split; [left; reflexivity | exact Hf].
Qed.

End StackFacts.

(** X20. [load_toa_stack] takes the matched files in the order of their
    paths.  Without a file it raises [FileNotFoundError] with the pattern
    in the message; with files, its only errors are those of reading one
    of them.  When it returns, the paths are those of the sorted files, and
    at each position it gives the data of that file's raster without its
    mask and the number in the file name, or the position when the name
    has none; the transform and the metadata are those of the first file. *)
Theorem toa_stack_is_aligned
  (Affine Meta : Type) (toa_glob : string)
  (matched : list (ToaStack.file Affine Meta)) :
  let files := Viirs.sort_by
                 (fun a b => ToaStack.leb (ToaStack.path a) (ToaStack.path b))
                 matched in
  Permutation matched files
  /\ StronglySorted
       (fun a b => ToaStack.leb (ToaStack.path a) (ToaStack.path b) = true) files
  /\ (matched = [] ->
      ToaStack.load_toa_stack toa_glob matched
      = Raise (FileNotFoundError
                 ("No TOA rasters found with pattern: " ++ toa_glob)))
  /\ (forall e, matched <> [] ->
                ToaStack.load_toa_stack toa_glob matched = Raise e ->
                exists f, In f matched /\ ToaStack.read_raster f = Raise e)
  /\ (forall paths arrays times tform meta,
        ToaStack.load_toa_stack toa_glob matched
        = Ok (paths, arrays, times, tform, meta) ->
        paths = List.map (@ToaStack.path Affine Meta) files
        /\ length arrays = length files /\ length times = length files
        /\ (forall k f, nth_error files k = Some f ->
              exists arr t m,
                ToaStack.read_raster f = Ok (arr, t, m)
                /\ nth_error arrays k = Some (NumPy.map data arr)
                /\ nth_error times k
                   = Some (ToaStack.time_of (ToaStack.path f) k))
        /\ exists first arr,
            nth_error files 0 = Some first
            /\ ToaStack.read_raster first = Ok (arr, tform, meta)).
Proof.
  intro files.
  assert (Hperm : Permutation matched files) by apply sort_by_perm.
  split; [exact Hperm|]. split.
  { apply (sort_by_sorted _ (fun a b => ToaStack.leb (ToaStack.path a)
                                          (ToaStack.path b))).
    - intros a b. apply path_leb_total.
    - intros a b c. apply path_leb_trans. }
  split.
  { intros ->. reflexivity. }
  unfold ToaStack.load_toa_stack. fold files. split.
  - intros e Hne Hload.
    destruct files as [|first rest] eqn:Hfiles.
    { exfalso. apply Hne. apply Permutation_sym in Hperm.
      exact (Permutation_nil Hperm). }
    destruct (ToaStack.read_stack (first :: rest) 0) as [[arrays times]|e'] eqn:Hs;
      simpl bind in Hload.
    + destruct (ToaStack.read_raster first) as [[[arr t] m]|e'] eqn:Hf;
        simpl in Hload; [discriminate|].
      inversion Hload; subst. exists first. split; [|exact Hf].
      apply (Permutation_in _ (Permutation_sym Hperm)). left. reflexivity.
    + inversion Hload; subst. destruct (read_stack_raises _ _ _ _ _ Hs) as [f [Hin Hr]].
      exists f. split; [|exact Hr].
      apply (Permutation_in _ (Permutation_sym Hperm)). exact Hin.
  - intros paths arrays times tform meta Hload.
    destruct files as [|first rest] eqn:Hfiles; [discriminate|].
    destruct (ToaStack.read_stack (first :: rest) 0) as [[arrays' times']|e'] eqn:Hs;
      simpl bind in Hload; [|discriminate].
    destruct (ToaStack.read_raster first) as [[[arr t] m]|e'] eqn:Hf;
      simpl in Hload; [|discriminate].
    inversion Hload; subst. clear Hload.
    destruct (read_stack_spec _ _ _ _ _ _ Hs) as [Ha [Ht Hk]].
    split; [reflexivity|]. split; [exact Ha|]. split; [exact Ht|]. split.
    + intros k f Hkf. exact (Hk k f Hkf).
    + exists first, arr. split; [reflexivity | exact Hf].
Qed.

Section NamePattern.

Import Text.








End NamePattern.

Section NameTime.

Import Text.






End NameTime.



(** The statement of X20 on the two rasters of the scenario: the file named
    by run and time comes first and gets its position as time. *)
Lemma toa_stack_is_aligned_witness :
  let files := Viirs.sort_by
                 (fun a b => ToaStack.leb (ToaStack.path a) (ToaStack.path b))
                 scenario_stack in
  ToaStack.load_toa_stack "outputs/time_of_arrival_*.tif" scenario_stack
  = Ok ([ ["outputs"%string; "time_of_arrival_0000001_0021600.tif"%string];
          ["outputs"%string; "time_of_arrival_0003600.tif"%string] ],
        [NumPy.map data scenario_grid; NumPy.map data repeated_grid],
        [0; 3600], tt, tt)
  /\ [ ["outputs"%string; "time_of_arrival_0000001_0021600.tif"%string];
       ["outputs"%string; "time_of_arrival_0003600.tif"%string] ]
     = List.map (@ToaStack.path unit unit) files
  /\ length [NumPy.map data scenario_grid; NumPy.map data repeated_grid]
     = length files
  /\ length [0; 3600] = length files
  /\ (forall k f, nth_error files k = Some f ->
        exists arr t m,
          ToaStack.read_raster f = Ok (arr, t, m)
          /\ nth_error [NumPy.map data scenario_grid; NumPy.map data repeated_grid] k
             = Some (NumPy.map data arr)
          /\ nth_error [0; 3600] k = Some (ToaStack.time_of (ToaStack.path f) k))
  /\ exists first arr,
      nth_error files 0 = Some first
      /\ ToaStack.read_raster first = Ok (arr, tt, tt).
Proof.
  intro files.
  assert (Hload : ToaStack.load_toa_stack "outputs/time_of_arrival_*.tif"
                    scenario_stack
                  = Ok ([ ["outputs"%string;
                           "time_of_arrival_0000001_0021600.tif"%string];
                          ["outputs"%string;
                           "time_of_arrival_0003600.tif"%string] ],
                        [NumPy.map data scenario_grid;
                         NumPy.map data repeated_grid],
                        [0; 3600], tt, tt)) by reflexivity.
  split; [exact Hload|].
  exact (proj2 (proj2 (proj2 (proj2
           (toa_stack_is_aligned unit unit "outputs/time_of_arrival_*.tif"
              scenario_stack)))) _ _ _ _ _ Hload).
Defined.

(** ** Rasters after [load_toa_stack] *)

Section DroppedMask.

Variable arr : MaskedArray.

Lemma stacked_shape : shape (stacked arr) = shape arr.
Proof. reflexivity. Qed.

Lemma stacked_valid (i j : nat) :
  valid_mask (stacked arr) i j = Float.isfinite (data (item arr i j)).
Proof.
  unfold valid_mask, cell_valid, stacked. simpl. apply andb_true_r.
Qed.

Lemma valid_stays_valid (i j : nat) :
  valid_mask arr i j = true -> valid_mask (stacked arr) i j = true.
Proof.
  rewrite stacked_valid. unfold valid_mask, cell_valid.
  intro H. apply andb_true_iff in H. tauto.
Qed.

Lemma filter_length_le {A : Type} (f g : A -> bool) (l : list A) :
  (forall x, f x = true -> g x = true) ->
  (length (filter f l) <= length (filter g l))%nat.
Proof.
  intro Hfg. induction l as [|x l IH]; simpl; [lia|].
  destruct (f x) eqn:Ef.
  - rewrite (Hfg x Ef). simpl. lia.
  - destruct (g x); simpl; lia.
Qed.

Lemma filter_map_length_le {A B : Type} (f : B -> bool) (g h : A -> B)
  (l : list A) :
  (forall x, f (g x) = true -> f (h x) = true) ->
  (length (filter f (List.map g l)) <= length (filter f (List.map h l)))%nat.
Proof.
  intro Hgh. induction l as [|x l IH]; [apply Nat.le_refl|].
  cbn [List.map filter]. destruct (f (g x)) eqn:Eg.
  - rewrite (Hgh x Eg). cbn [length]. lia.
  - destruct (f (h x)); cbn [length]; lia.
Qed.

Lemma arrived_stays_arrived (ij : nat * nat) :
  arrived (item arr (fst ij) (snd ij)) = true ->
  arrived (item (stacked arr) (fst ij) (snd ij)) = true.
Proof.
  unfold arrived, cell_valid, stacked. simpl. intro H.
  apply andb_true_iff in H. destruct H as [Hv Hp].
  apply andb_true_iff in Hv. destruct Hv as [Hf _].
  rewrite Hf, Hp. reflexivity.
Qed.

Lemma sim_labels_length (a : MaskedArray) (t : Q) :
  length (Kappa.sim_labels a t)
  = length (filter (fun ij => valid_mask a (fst ij) (snd ij)) (indices (shape a))).
Proof.
  unfold Kappa.sim_labels, select. rewrite length_map, burnt_shape. reflexivity.
Qed.

End DroppedMask.

(** X22. A raster that went through [load_toa_stack] has lost its mask:
    for the scorer a cell is valid exactly when its stored value is finite,
    masked in the file or not.  Every cell valid in the file stays valid,
    the label vectors of the scorer get no shorter, and the cells the burn
    history counts get no fewer. *)
Theorem stacked_raster_has_no_mask (arr : MaskedArray) (time_sec : Q) :
  shape (stacked arr) = shape arr
  /\ (forall i j, item (stacked arr) i j = mk_cell (data (item arr i j)) false)
  /\ (forall i j, valid_mask (stacked arr) i j
                  = Float.isfinite (data (item arr i j)))
  /\ (forall i j, valid_mask arr i j = true ->
                  valid_mask (stacked arr) i j = true)
  /\ (length (Kappa.sim_labels arr time_sec)
      <= length (Kappa.sim_labels (stacked arr) time_sec))%nat
  /\ (finite_positive_cells arr <= finite_positive_cells (stacked arr))%nat.
Proof.
  split; [reflexivity|]. split; [reflexivity|].
  split; [apply stacked_valid|]. split; [apply valid_stays_valid|]. split.
  - rewrite !sim_labels_length, stacked_shape. apply filter_length_le.
    intros ij. apply valid_stays_valid.
  - unfold finite_positive_cells, ravel. rewrite stacked_shape.
    apply filter_map_length_le. intros ij. apply arrived_stays_arrived.
Qed.

(** The statement of X22 on the scenario grid: its twelve no-data cells
    hold a finite fill value and become valid. *)
Lemma stacked_raster_has_no_mask_witness :
  length (Kappa.sim_labels scenario_grid 3) = 4%nat
  /\ length (Kappa.sim_labels (stacked scenario_grid) 3) = 16%nat
  /\ (length (Kappa.sim_labels scenario_grid 3)
      <= length (Kappa.sim_labels (stacked scenario_grid) 3))%nat.
Proof.
  split; [vm_compute; reflexivity|]. split; [vm_compute; reflexivity|].
  exact (proj1 (proj2 (proj2 (proj2 (proj2
           (stacked_raster_has_no_mask scenario_grid 3)))))).
Defined.

Section StackedCurve.

Import BurnHistory.

Lemma positive_upward (x y : Q) :
  positive x = true -> x <= y -> positive y = true.
Proof.
  unfold positive. rewrite !negb_true_iff. intros Hx Hxy.
  destruct (Qle_bool y 0) eqn:Ey; [|reflexivity].
  apply Qle_bool_iff in Ey. apply Qle_bool_false in Hx.
  exfalso. apply (Qlt_irrefl 0).
  eapply Qlt_le_trans; [exact Hx|]. eapply Qle_trans; eassumption.
Qed.

Lemma filter_positive_insert (x : Q) (l : list Q) :
  StronglySorted Qle l ->
  filter positive (insert x l)
  = if positive x then insert x (filter positive l) else filter positive l.
Proof.
  induction 1 as [|y l Hs IH Hall]; simpl.
  - destruct (positive x); reflexivity.
  - destruct (Qle_bool x y) eqn:Exy.
    + simpl. destruct (positive x) eqn:Px; [|reflexivity].
      apply Qle_bool_iff in Exy.
      rewrite (positive_upward x y Px Exy). simpl. rewrite (proj2 (Qle_bool_iff x y) Exy).
      reflexivity.
    + simpl. rewrite IH. destruct (positive y) eqn:Py.
      * assert (Px : positive x = true).
        { apply (positive_upward y x Py). apply Qlt_le_weak.
          apply Qle_bool_false. exact Exy. }
        rewrite Px. simpl. rewrite Exy. reflexivity.
      * destruct (positive x); reflexivity.
Qed.

(** Keeping the positive values and sorting can be done in either order. *)
Lemma filter_positive_sort (l : list Q) :
  filter positive (sort l) = sort (filter positive l).
Proof.
  induction l as [|x l IH]; [reflexivity|]. simpl sort.
  rewrite filter_positive_insert by apply sort_sorted.
  simpl filter. destruct (positive x); [simpl; rewrite IH; reflexivity | exact IH].
Qed.

End StackedCurve.

Section StackedHistory.

Import BurnHistory.

(** The curve is read off the sorted positive values. *)
Lemma curve_of_positive_values (a b : MaskedArray) (px : option Q)
  (n_steps : option nat) :
  filter positive (sort (finite_values a))
  = filter positive (sort (finite_values b)) ->
  times_of (burn_area_history_from_toa a px n_steps)
  = times_of (burn_area_history_from_toa b px n_steps)
  /\ counts_of (burn_area_history_from_toa a px n_steps)
     = counts_of (burn_area_history_from_toa b px n_steps)
  /\ areas_of (burn_area_history_from_toa a px n_steps)
     = areas_of (burn_area_history_from_toa b px n_steps).
Proof.
  unfold burn_area_history_from_toa.
  destruct (finite_values a) as [|v vs]; destruct (finite_values b) as [|w ws];
    cbv beta iota zeta; intro Hpos.
  - auto.
  - change (filter positive (sort [])) with (@nil Q) in Hpos.
    rewrite <- Hpos. simpl. auto.
  - change (filter positive (sort [])) with (@nil Q) in Hpos.
    rewrite Hpos. simpl. auto.
  - rewrite Hpos. auto.
Qed.

Lemma flat_map_of_selection {A B C : Type} (f : B -> list C) (g : A -> B)
  (p : A -> bool) (l : list A) :
  flat_map f (List.map g (filter p l))
  = flat_map (fun x => if p x then f (g x) else []) l.
Proof.
  induction l as [|x l IH]; [reflexivity|]. cbn [filter flat_map].
  destruct (p x); cbn [List.map flat_map app]; rewrite IH; reflexivity.
Qed.

Lemma filter_of_flat_map {A B : Type} (p : B -> bool) (f : A -> list B)
  (l : list A) :
  filter p (flat_map f l) = flat_map (fun x => filter p (f x)) l.
Proof.
  induction l as [|x l IH]; [reflexivity|]. cbn [flat_map].
  rewrite filter_app, IH. reflexivity.
Qed.

Lemma flat_map_agree {A B : Type} (f g : A -> list B) (l : list A) :
  (forall x, In x l -> f x = g x) -> flat_map f l = flat_map g l.
Proof.
  induction l as [|x l IH]; intro Hfg; [reflexivity|]. cbn [flat_map].
  rewrite (Hfg x (or_introl eq_refl)), IH; [reflexivity|].
  intros y Hy. apply Hfg. right. exact Hy.
Qed.

(** The positive values of a raster whose masked cells hold none are those
    of its data. *)
Lemma positive_values_of_stacked (arr : MaskedArray) :
  (forall i j q, in_grid arr i j -> mask (item arr i j) = true ->
                 data (item arr i j) = Float.fin q -> q <= 0) ->
  filter positive (finite_values (stacked arr))
  = filter positive (finite_values arr).
Proof.
  intro Hmasked. unfold finite_values, select.
  change (shape (stacked arr)) with (shape arr).
  rewrite !flat_map_of_selection, !filter_of_flat_map.
  apply flat_map_agree. intros [i j] Hin. apply in_indices in Hin.
  cbn [fst snd]. rewrite stacked_valid.
  change (data (item (stacked arr) i j)) with (data (item arr i j)).
  unfold valid_mask, cell_valid.
  destruct (data (item arr i j)) as [| | |q] eqn:Ed; try reflexivity.
  destruct (mask (item arr i j)) eqn:Em; [|reflexivity].
  simpl. unfold positive.
  rewrite (proj2 (Qle_bool_iff q 0) (Hmasked i j q Hin Em Ed)). reflexivity.
Qed.

End StackedHistory.

(** X23. When no masked cell of a raster holds a finite, strictly positive
    value (a fill value such as -9999), the burn history is the same
    whether the raster keeps its mask or went through [load_toa_stack]:
    same times, same counts, same areas, in exact and in coarse mode. *)
Theorem stacked_curve_is_unchanged
  (arr : MaskedArray) (pixel_area_m2 : option Q) (n_steps : option nat) :
  (forall i j q, in_grid arr i j -> mask (item arr i j) = true ->
                 data (item arr i j) = Float.fin q -> q <= 0) ->
  BurnHistory.times_of
    (BurnHistory.burn_area_history_from_toa (stacked arr) pixel_area_m2 n_steps)
  = BurnHistory.times_of
      (BurnHistory.burn_area_history_from_toa arr pixel_area_m2 n_steps)
  /\ BurnHistory.counts_of
       (BurnHistory.burn_area_history_from_toa (stacked arr) pixel_area_m2 n_steps)
     = BurnHistory.counts_of
         (BurnHistory.burn_area_history_from_toa arr pixel_area_m2 n_steps)
  /\ BurnHistory.areas_of
       (BurnHistory.burn_area_history_from_toa (stacked arr) pixel_area_m2 n_steps)
     = BurnHistory.areas_of
         (BurnHistory.burn_area_history_from_toa arr pixel_area_m2 n_steps)
  /\ finite_positive_cells (stacked arr) = finite_positive_cells arr.
Proof.
  intro Hmasked.
  pose proof (positive_values_of_stacked arr Hmasked) as Hpos.
  destruct (curve_of_positive_values (stacked arr) arr pixel_area_m2 n_steps)
    as [Ht [Hc Ha]].
  { rewrite !filter_positive_sort, Hpos. reflexivity. }
  split; [exact Ht|]. split; [exact Hc|]. split; [exact Ha|].
  rewrite <- !finite_values_count, Hpos. reflexivity.
Qed.

(** The statement of X23 on the scenario grid, whose no-data cells hold
    -9999. *)
Lemma stacked_curve_is_unchanged_witness :
  (forall i j q, in_grid scenario_grid i j ->
                 mask (item scenario_grid i j) = true ->
                 data (item scenario_grid i j) = Float.fin q -> q <= 0)
  /\ BurnHistory.times_of
       (BurnHistory.burn_area_history_from_toa (stacked scenario_grid)
          (Some 900) None)
     = BurnHistory.times_of
         (BurnHistory.burn_area_history_from_toa scenario_grid (Some 900) None).
Proof.
  assert (Hmasked : forall i j q, in_grid scenario_grid i j ->
                      mask (item scenario_grid i j) = true ->
                      data (item scenario_grid i j) = Float.fin q -> q <= 0).
  { intros i j q [Hi Hj] Hm Hd.
    change (height scenario_grid) with 4%nat in Hi.
    change (width scenario_grid) with 4%nat in Hj.
    destruct i as [|[|[|[|i]]]]; try lia;
      destruct j as [|[|[|[|j]]]]; try lia;
      try discriminate Hm; inversion Hd; subst q;
      apply Qle_bool_iff; reflexivity. }
  split; [exact Hmasked|].
  exact (proj1 (stacked_curve_is_unchanged scenario_grid (Some 900) None Hmasked)).
Defined.
